(** * Per-room end-to-end encryption client (E2EERoomClient)

    A shallow embedding of the room E2EE controller: the [Cipher] class, the
    [getRoomMetadata] projection and the [E2EERoomClient] key-lifecycle
    manager with its message entry points.

    Conventions of the embedding.
    - JavaScript strings are [string]; [Uint8Array]/[ArrayBuffer] are
      [list byte]; [Date] is its millisecond time value in [Z].
    - JavaScript objects that are spread or inspected by key (messages) are
      [gmap string Value]; the closed [EncryptableMessage] type is a record.
    - Everything imported from outside the file ([./helpers], [meteor/base64],
      [meteor/ejson], WebCrypto, the REST client, the notification stream, the
      stores) is a field of the record [World].  An operation that may throw
      or reject returns [exn + A].
    - A promise is an [Outcome]: resolved, rejected, or still pending.
    - Code runs in the monad [M], which threads the client's fields, the
      trace of externally visible events, and the promises that the code
      starts without awaiting them ([tasks], [jobs]).
    - A promise that is started and not awaited runs at once from its call
      to its first [await], and goes on later.  For the callbacks of a
      [forEach] ([jobs]) the first stretch is run where the callback is
      called, and the job is what is left of it.  For the promises that the
      handler and [provideKeyToUser] start ([tasks]) the first stretch is
      run together with the rest, by [settle]: no other code runs between
      the two, except in the handler's second branch, where
      [decryptPendingMessages], which has no [await], is called after
      [decryptLastMessage] and is over before that one goes on.
    - In which order the libraries settle the promises that several started
      promises wait for is not fixed by the code.  [settle] runs what is
      left of each started promise to its end, one after the other, in the
      order in which they were started: overlapping runs are outside this
      model.
    - A promise that waits for a signal ([fetchKey], [fetchKeyID],
      [fetchMetadata] without a value) is [Pending] when the run that is
      looked at ends.  In the code a later [keyChanged] (or
      [metadataChanged]) that brings the value settles it and its caller
      goes on from there; that later stretch is not part of the model: of
      a call that has to wait the properties below say at most that it
      has not been rejected. *)

From Stdlib Require Import ZArith Ascii String List Lia.
From Stdlib.Strings Require Import Byte.
From Stdlib Require Import DecimalString DecimalZ.
From stdpp Require Import gmap strings list fin_maps.
Import ListNotations.

Set Warnings "-register-all".
Local Open Scope string_scope.
Local Open Scope Z_scope.
Local Open Scope list_scope.

(** ** JavaScript values and strings *)

Definition bytes := list Byte.byte.

(** [s.slice(0, n)] *)
Fixpoint slice_to (n : nat) (s : string) : string :=
  match n, s with
  | S n', String c s' => String c (slice_to n' s')
  | _, _ => EmptyString
  end.

(** [s.slice(n)] *)
Fixpoint slice_from (n : nat) (s : string) : string :=
  match n, s with
  | S n', String _ s' => slice_from n' s'
  | _, _ => s
  end.

(** Values that [EJSON.parse]/[JSON.parse] produce and that message fields
    hold.  Numbers are kept as integers: no property here reads one. *)
Inductive Value : Type :=
| VUndefined
| VNull
| VBool (b : bool)
| VNumber (n : Z)
| VString (s : string)
| VDate (ms : Z)
| VArray (xs : list Value)
| VObject (fields : list (string * Value)).

(** [k in x] for a plain object *)
Fixpoint has_field (k : string) (fields : list (string * Value)) : bool :=
  match fields with
  | [] => false
  | (k', _) :: rest => if String.eqb k' k then true else has_field k rest
  end.

(** [x.k] for a plain object ([undefined] when the key is missing) *)
Fixpoint get_field (k : string) (fields : list (string * Value)) : Value :=
  match fields with
  | [] => VUndefined
  | (k', v) :: rest => if String.eqb k' k then v else get_field k rest
  end.

(** [x.k] for any value; only plain objects carry fields here *)
Definition prop_of (x : Value) (k : string) : Value :=
  match x with
  | VObject fields => get_field k fields
  | _ => VUndefined
  end.

(** A message ([IMessage] or any [T extends Pick<IMessage, ...>]): a
    JavaScript object, with whatever fields it has. *)
Abbreviation Message := (gmap string Value).

(** [message.k] *)
Definition field (message : Message) (k : string) : Value :=
  default VUndefined (message !! k).

(** [type EncryptableMessage = { _id, text, userId, ts }] *)
Record EncryptableMessage := {
  em_id : string;
  em_text : string;
  em_userId : string;
  em_ts : Z;
}.

(** The object an [EncryptableMessage] is at run time. *)
Definition toValue (m : EncryptableMessage) : Value :=
  VObject [("_id", VString (em_id m)); ("text", VString (em_text m));
           ("userId", VString (em_userId m)); ("ts", VDate (em_ts m))].

(** [new Error(message)], and whatever an external operation throws. *)
Inductive exn : Type :=
| Error (message : string).

Definition NotDecryptable : exn := Error "input is not decryptable".
Definition MalformedPlaintext : exn := Error "unknown decrypted message format".

(** [type RoomMetadata] *)
Record RoomMetadata := {
  uid : string;
  encryptionRequired : bool;
  roomKeyID : option string;
  encryptedKey : option string;
  lastMessage : option Message;
}.

(** [Serialized<IUser>], as far as the client reads it: [_id] and
    [e2e.public_key]. *)
Record User := {
  user_id : string;
  user_e2e : option string;
}.

(** [IRoom] and [ISubscription], as far as [getRoomMetadata] reads them. *)
Record Room := {
  room_t : string;
  room_encrypted : option bool;
  room_e2eKeyId : option string;
  room_lastMessage : option Message;
}.

Record Subscription := {
  sub_E2EKey : option string;
}.

(** The reactive sources [getRoomMetadata] reads: [Meteor.userId()],
    [Subscriptions.findOne], [Rooms.findOne] and the room-type
    configuration. *)
Record Store := {
  Meteor_userId : option string;
  Subscriptions_findOne : option Subscription;
  Rooms_findOne : option Room;
  allowRoomSettingChange_E2E : string -> bool;
}.

(** Truthiness of an optional string: [undefined] and [''] are falsy. *)
Definition truthy (s : option string) : bool :=
  match s with
  | Some s => negb (String.eqb s "")
  | None => false
  end.

(** [a === b] for optional strings *)
Definition strict_eq (a b : option string) : bool :=
  match a, b with
  | Some x, Some y => String.eqb x y
  | None, None => true
  | _, _ => false
  end.

(** String conversion of [this.keyID] in [this.keyID + ...]. *)
Definition to_js_string (s : option string) : string :=
  match s with
  | Some s => s
  | None => "undefined"
  end.

(** [const extractEncryptedKeyId] *)
Definition extractEncryptedKeyId (encryptedData : string) : string :=
  slice_to 12 encryptedData.

(** [const getRoomMetadata] *)
Definition getRoomMetadata (store : Store) : option RoomMetadata :=
  match Meteor_userId store with
  | None => None
  | Some u =>
    if negb (truthy (Some u)) then None else
    match Subscriptions_findOne store, Rooms_findOne store with
    | Some subscription, Some room =>
      if negb (allowRoomSettingChange_E2E store (room_t room)) then None
      else if negb (default false (room_encrypted room))
                && negb (truthy (sub_E2EKey subscription)) then None
      else if negb (default false (room_encrypted room))
                && negb (truthy (room_e2eKeyId room)) then None
      else Some {| uid := u;
                   encryptionRequired :=
                     match room_encrypted room with Some true => true | _ => false end;
                   roomKeyID := room_e2eKeyId room;
                   encryptedKey := sub_E2EKey subscription;
                   lastMessage := room_lastMessage room |}
    | _, _ => None
    end
  end.

(** Modelled from the spec: [joinVectorAndEncryptedData] of [./helpers],
    which is not part of the sources at hand ("nonce ++ ciphertext"). *)
Definition joinVectorAndEncryptedData (vector encryptedData : bytes) : bytes :=
  vector ++ encryptedData.

(** Modelled from the spec: [splitVectorAndEncryptedData] of [./helpers]
    ("split nonce (first 16 bytes) from ciphertext"). *)
Definition splitVectorAndEncryptedData (cipherText : bytes) : bytes * bytes :=
  (firstn 16 cipherText, skipn 16 cipherText).

(** ** Promises, events and the world outside the file *)

Inductive Outcome (A : Type) : Type :=
| Resolved (a : A)
| Rejected (e : exn)
| Pending.
Arguments Resolved {A} a.
Arguments Rejected {A} e.
Arguments Pending {A}.

Inductive Signal := metadataChanged | keyChanged.

(** Promises started by a [forEach] callback and never awaited.  The
    callback has run from its call to its first [await]; the job is what
    is left of it: [encryptForParticipant(user)] waiting for
    [importRSAKey(jwk)], and the callback of [decryptPendingMessages]
    waiting for the promise of its [decryptMessage(message)]. *)
Inductive Job :=
| JEncryptForParticipant (user : User) (jwk : Value)
| JDecryptPendingMessage (decrypted : Outcome Message).

(** Promises started by the handler or by [provideKeyToUser] and never
    awaited. *)
Inductive Task :=
| TImportSubscriptionKey (encryptedSubscriptionKey : string)
| TCreateGroupKey
| TDecryptLastMessage
| TDecryptPendingMessages
| TEncryptKeyForOtherParticipants.

Section Client.

Context {CryptoKey : Type}.

(** What the client does to the outside, in order. *)
Inductive Event : Type :=
| EvEmit (s : Signal)
| EvEncryptAES (vector : bytes) (k : CryptoKey) (data : bytes)
| EvDecryptAES (vector : bytes) (k : CryptoKey) (cipherText : bytes)
| EvDecryptRSA (k : CryptoKey) (body : bytes)
| EvEncryptRSA (k : CryptoKey) (data : bytes)
| EvImportAESKey (jwk : Value)
| EvImportRSAKey (jwk : Value)
| EvGenerateAESKey
| EvExportJWKKey (k : CryptoKey)
| EvSetRoomKeyID (rid keyID : string)
| EvGetUsersOfRoomWithoutKey (rid : string)
| EvUpdateGroupKey (rid uid wrapped : string)
| EvKeyRequest (rid keyID : string)
| EvConsoleError (e : exn)
| EvMessagesFind (rid : string)
| EvRoomsUpdate (rid : string) (msg e2e : Value)
| EvSubscriptionsUpdate (rid : string) (msg e2e : Value)
| EvMessagesUpdate (_id : Value) (rest : Message).

(** The external collaborators.  Each field answers one call; an answer
    [inl e] is an exception or a rejected promise.  A world fixes the
    answers for the run that is looked at. *)
Record World := {
  (* meteor/base64 *)
  Base64_encode : bytes -> string;
  Base64_decode : string -> exn + bytes;
  (* meteor/ejson and JSON *)
  EJSON_stringify : Value -> string;
  EJSON_parse : string -> exn + Value;
  JSON_stringify : Value -> string;
  JSON_parse : string -> exn + Value;
  (* TextEncoder, TextDecoder, crypto.getRandomValues *)
  TextEncoder_encode : string -> bytes;
  TextDecoder_decode : bytes -> string;
  getRandomValues : nat -> bytes;
  (* ./helpers *)
  encryptAES : bytes -> CryptoKey -> bytes -> exn + bytes;
  decryptAES : bytes -> CryptoKey -> bytes -> exn + bytes;
  encryptRSA : CryptoKey -> bytes -> exn + bytes;
  decryptRSA : CryptoKey -> bytes -> exn + bytes;
  generateAESKey : exn + CryptoKey;
  exportJWKKey : CryptoKey -> exn + Value;
  importAESKey : Value -> exn + CryptoKey;
  importRSAKey : Value -> exn + CryptoKey;
  fromStringToBuffer : string -> bytes;
  fromBufferToString : bytes -> string;
  (* APIClient.v1 *)
  post_setRoomKeyID : string -> string -> exn + unit;
  get_getUsersOfRoomWithoutKey : string -> exn + list User;
  post_updateGroupKey : string -> string -> string -> exn + unit;
  (* Messages.find({ rid, t: 'e2e', e2e: 'pending' }) *)
  Messages_find : string -> list Message;
  (* lib/utils/isShallowEqual *)
  isShallowEqual : option RoomMetadata -> option RoomMetadata -> bool;
  (* Date.now() and TimeSync.serverOffset(); [None] is NaN *)
  Date_now : Z;
  TimeSync_serverOffset : option Z;
}.

(** The fields of an [E2EERoomClient]. *)
Record Client := {
  rid : string;
  userPrivateKey : CryptoKey;
  computation : bool;
  metadata : option RoomMetadata;
  key : option CryptoKey;
  keyID : option string;
  sessionKeyExportedString : option string;
}.

Record Machine := {
  client : Client;
  trace : list Event;
  tasks : list Task;
  jobs : list Job;
}.

Definition with_client (f : Client -> Client) (m : Machine) : Machine :=
  {| client := f (client m); trace := trace m; tasks := tasks m; jobs := jobs m |}.

Definition with_computation (v : bool) (c : Client) : Client :=
  {| rid := rid c; userPrivateKey := userPrivateKey c; computation := v;
     metadata := metadata c; key := key c; keyID := keyID c;
     sessionKeyExportedString := sessionKeyExportedString c |}.

Definition with_metadata (v : option RoomMetadata) (c : Client) : Client :=
  {| rid := rid c; userPrivateKey := userPrivateKey c; computation := computation c;
     metadata := v; key := key c; keyID := keyID c;
     sessionKeyExportedString := sessionKeyExportedString c |}.

Definition with_key (v : option CryptoKey) (c : Client) : Client :=
  {| rid := rid c; userPrivateKey := userPrivateKey c; computation := computation c;
     metadata := metadata c; key := v; keyID := keyID c;
     sessionKeyExportedString := sessionKeyExportedString c |}.

Definition with_keyID (v : option string) (c : Client) : Client :=
  {| rid := rid c; userPrivateKey := userPrivateKey c; computation := computation c;
     metadata := metadata c; key := key c; keyID := v;
     sessionKeyExportedString := sessionKeyExportedString c |}.

Definition with_sessionKeyExportedString (v : option string) (c : Client) : Client :=
  {| rid := rid c; userPrivateKey := userPrivateKey c; computation := computation c;
     metadata := metadata c; key := key c; keyID := keyID c;
     sessionKeyExportedString := v |}.

(** ** The monad of client code *)

Definition M (A : Type) : Type := Machine -> Outcome A * Machine.

Definition ret {A} (a : A) : M A := fun m => (Resolved a, m).

Definition bind {A B} (c : M A) (k : A -> M B) : M B :=
  fun m =>
    match c m with
    | (Resolved a, m') => k a m'
    | (Rejected e, m') => (Rejected e, m')
    | (Pending, m') => (Pending, m')
    end.

(** [throw e] *)
Definition throw {A} (e : exn) : M A := fun m => (Rejected e, m).

(** A promise that no one settles in this run. *)
Definition suspend {A} : M A := fun m => (Pending, m).

(** [try { c } catch (e) { h e }], and [promise.catch(h)] *)
Definition try_catch {A} (c : M A) (h : exn -> M A) : M A :=
  fun m =>
    match c m with
    | (Rejected e, m') => h e m'
    | r => r
    end.

Definition read {A} (f : Client -> A) : M A := fun m => (Resolved (f (client m)), m).

Definition write (f : Client -> Client) : M unit :=
  fun m => (Resolved tt, with_client f m).

Definition log (e : Event) : M unit :=
  fun m => (Resolved tt,
            {| client := client m; trace := trace m ++ [e];
               tasks := tasks m; jobs := jobs m |}).

Definition spawn_task (t : Task) : M unit :=
  fun m => (Resolved tt,
            {| client := client m; trace := trace m;
               tasks := tasks m ++ [t]; jobs := jobs m |}).

Definition spawn_job (j : Job) : M unit :=
  fun m => (Resolved tt,
            {| client := client m; trace := trace m;
               tasks := tasks m; jobs := jobs m ++ [j] |}).

(** The value of a synchronous call that may throw. *)
Definition lift {A} (r : exn + A) : M A :=
  match r with
  | inl e => throw e
  | inr a => ret a
  end.

(** [c(...)] with the promise kept for later, for a callee that does
    nothing after the call it awaits but compute its result: when it hands
    back its promise that call has been made, and what the promise settles
    to is fixed. *)
Definition call {A} (c : M A) : M (Outcome A) :=
  fun m => (Resolved (fst (c m)), snd (c m)).

(** [await promise] *)
Definition await_promise {A} (promise : Outcome A) : M A :=
  fun m => (promise, m).

End Client.

Arguments Event : clear implicits.
Arguments World : clear implicits.
Arguments Client : clear implicits.
Arguments Machine : clear implicits.
Arguments M : clear implicits.

Declare Scope client_scope.
Delimit Scope client_scope with client.
Notation "x <- c ;; k" := (bind c (fun x => k))
  (at level 100, c at next level, right associativity) : client_scope.
Notation "c ;; k" := (bind c (fun _ => k))
  (at level 100, right associativity) : client_scope.

(** ** The code *)

Section Code.

Context {CryptoKey : Type} (W : World CryptoKey).

Local Open Scope client_scope.

(** [await call(...)]: the call is made, then its promise settles. *)
Definition await {A} (e : Event CryptoKey) (r : exn + A) : M CryptoKey A :=
  log e ;; lift r.

(** [list.forEach(f)] *)
Fixpoint forEach {A} (l : list A) (f : A -> M CryptoKey unit) : M CryptoKey unit :=
  match l with
  | [] => ret tt
  | x :: rest => f x ;; forEach rest f
  end.

(** [Base64.encode(s)] for a string argument: the character codes are the
    bytes. *)
Definition Base64_encode_string (s : string) : string :=
  Base64_encode W (list_byte_of_string s).

(** [const extractEncryptedBody] *)
Definition extractEncryptedBody (encryptedData : string) : exn + bytes :=
  Base64_decode W (slice_from 12 encryptedData).

(** *** class Cipher *)

(** [Cipher.encrypt] *)
Definition Cipher_encrypt (input : Value) (key : CryptoKey) (keyID : string)
  : M CryptoKey string :=
  let data := TextEncoder_encode W (EJSON_stringify W input) in
  let vector := getRandomValues W 16 in
  result <- await (EvEncryptAES vector key data) (encryptAES W vector key data) ;;
  ret (keyID +:+ Base64_encode W (joinVectorAndEncryptedData vector result)).

(** [Cipher.isEncryptableMessage]: [typeof x === 'object' && x !== null &&
    'text' in x].  Arrays and dates are objects without a [text] key. *)
Definition Cipher_isEncryptableMessage (x : Value) : bool :=
  match x with
  | VObject fields => has_field "text" fields
  | _ => false
  end.

(** [Cipher.decrypt] *)
Definition Cipher_decrypt (input : string) (key : CryptoKey) (keyID : string)
  : M CryptoKey Value :=
  if negb (String.eqb (extractEncryptedKeyId input) keyID) then
    throw NotDecryptable
  else
    encrypted <- lift (extractEncryptedBody input) ;;
    let '(vector, cipherText) := splitVectorAndEncryptedData encrypted in
    result <- await (EvDecryptAES vector key cipherText)
                    (decryptAES W vector key cipherText) ;;
    let decryptedText := TextDecoder_decode W result in
    parsed <- lift (EJSON_parse W decryptedText) ;;
    if negb (Cipher_isEncryptableMessage parsed) then
      throw MalformedPlaintext
    else
      ret parsed.

(** *** class E2EERoomClient *)

Definition getMetadata : M CryptoKey (option RoomMetadata) := read metadata.

Definition getKey : M CryptoKey (option CryptoKey) := read key.

Definition getKeyID : M CryptoKey (option string) := read keyID.

(** [fetchMetadata], [fetchKey], [fetchKeyID]: the value when it is there,
    otherwise a promise that waits for a later signal and is still pending
    at the end of the run. *)
Definition fetchMetadata : M CryptoKey RoomMetadata :=
  metadata <- getMetadata ;;
  match metadata with
  | Some metadata => ret metadata
  | None => suspend
  end.

Definition fetchKey : M CryptoKey CryptoKey :=
  key <- getKey ;;
  match key with
  | Some key => ret key
  | None => suspend
  end.

Definition fetchKeyID : M CryptoKey string :=
  keyID <- getKeyID ;;
  match keyID with
  | Some keyID => ret keyID
  | None => suspend
  end.

(** [emit('keyChanged')]: its listeners are the waiters of [fetchKey] and
    [fetchKeyID], whose later stretch is not followed. *)
Definition emit_keyChanged : M CryptoKey unit := log (EvEmit keyChanged).

Definition importSubscriptionKey (encryptedSubscriptionKey : string) : M CryptoKey unit :=
  encryptedBody <- lift (extractEncryptedBody encryptedSubscriptionKey) ;;
  priv <- read userPrivateKey ;;
  decrypted <- await (EvDecryptRSA priv encryptedBody) (decryptRSA W priv encryptedBody) ;;
  let unencryptedSubscriptionKey := fromBufferToString W decrypted in
  jwkSubscriptionKey <- lift (JSON_parse W unencryptedSubscriptionKey) ;;
  subscriptionKey <- await (EvImportAESKey jwkSubscriptionKey)
                           (importAESKey W jwkSubscriptionKey) ;;
  write (with_key (Some subscriptionKey)) ;;
  write (with_keyID
           (Some (extractEncryptedKeyId (Base64_encode_string unencryptedSubscriptionKey)))) ;;
  write (with_sessionKeyExportedString (Some unencryptedSubscriptionKey)).

Definition discardKey : M CryptoKey unit :=
  write (with_key None) ;;
  write (with_keyID None) ;;
  write (with_sessionKeyExportedString None).

Definition encryptForParticipant (user : User) : M CryptoKey unit :=
  match user_e2e user with
  | None => ret tt
  | Some public_key =>
    jwk <- lift (JSON_parse W public_key) ;;
    userKey <- await (EvImportRSAKey jwk) (importRSAKey W jwk) ;;
    exported <- read sessionKeyExportedString ;;
    if negb (truthy exported) then ret tt else
    let data := fromStringToBuffer W (to_js_string exported) in
    encryptedUserKey <- await (EvEncryptRSA userKey data) (encryptRSA W userKey data) ;;
    r <- read rid ;;
    kid <- read keyID ;;
    let wrapped := to_js_string kid +:+ Base64_encode W encryptedUserKey in
    await (EvUpdateGroupKey r (user_id user) wrapped)
          (post_updateGroupKey W r (user_id user) wrapped)
  end.

(** [this.encryptForParticipant(user)] where the promise is dropped: the
    function runs from its call to its first [await], where [importRSAKey]
    has been called, and the rest of it is left for later.  A participant
    without a public key is done with at once; a public key that does not
    parse rejects a promise that no one holds. *)
Definition encryptForParticipant_called (user : User) : M CryptoKey unit :=
  match user_e2e user with
  | None => ret tt
  | Some public_key =>
    match JSON_parse W public_key with
    | inl _ => ret tt
    | inr jwk =>
      log (EvImportRSAKey jwk) ;;
      spawn_job (JEncryptForParticipant user jwk)
    end
  end.

(** [encryptForParticipant] from its first [await] on, when [importRSAKey]
    has answered. *)
Definition encryptForParticipant_resumed (user : User) (jwk : Value) : M CryptoKey unit :=
  userKey <- lift (importRSAKey W jwk) ;;
  exported <- read sessionKeyExportedString ;;
  if negb (truthy exported) then ret tt else
  let data := fromStringToBuffer W (to_js_string exported) in
  encryptedUserKey <- await (EvEncryptRSA userKey data) (encryptRSA W userKey data) ;;
  r <- read rid ;;
  kid <- read keyID ;;
  let wrapped := to_js_string kid +:+ Base64_encode W encryptedUserKey in
  await (EvUpdateGroupKey r (user_id user) wrapped)
        (post_updateGroupKey W r (user_id user) wrapped).

Definition encryptKeyForOtherParticipants : M CryptoKey unit :=
  r <- read rid ;;
  users <- await (EvGetUsersOfRoomWithoutKey r) (get_getUsersOfRoomWithoutKey W r) ;;
  forEach users encryptForParticipant_called.

Definition createGroupKey : M CryptoKey unit :=
  subscriptionKey <- await EvGenerateAESKey (generateAESKey W) ;;
  jwkSubscriptionKey <- await (EvExportJWKKey subscriptionKey)
                              (exportJWKKey W subscriptionKey) ;;
  let unencryptedSubscriptionKey := JSON_stringify W jwkSubscriptionKey in
  let key' := subscriptionKey in
  let keyID' := extractEncryptedKeyId (Base64_encode_string unencryptedSubscriptionKey) in
  r <- read rid ;;
  await (EvSetRoomKeyID r keyID') (post_setRoomKeyID W r keyID') ;;
  write (with_key (Some key')) ;;
  write (with_keyID (Some keyID')) ;;
  write (with_sessionKeyExportedString (Some unencryptedSubscriptionKey)) ;;
  encryptKeyForOtherParticipants.

Definition requestGroupKey (keyID : string) : M CryptoKey unit :=
  r <- read rid ;;
  log (EvKeyRequest r keyID).

Definition handleMetadataChanged : M CryptoKey unit :=
  metadata <- getMetadata ;;
  match metadata with
  | None =>
    discardKey ;;
    emit_keyChanged
  | Some metadata =>
    key <- getKey ;;
    keyID <- getKeyID ;;
    let roomKeyId := roomKeyID metadata in
    let encryptedSubscriptionKey := encryptedKey metadata in
    if truthy keyID && bool_decide (is_Some key) && strict_eq keyID roomKeyId then
      spawn_task TDecryptLastMessage ;;
      spawn_task TDecryptPendingMessages
    else
      discardKey ;;
      emit_keyChanged ;;
      if truthy encryptedSubscriptionKey then
        spawn_task (TImportSubscriptionKey (to_js_string encryptedSubscriptionKey))
      else if negb (truthy roomKeyId) then
        spawn_task TCreateGroupKey
      else
        requestGroupKey (to_js_string roomKeyId)
  end.

(** [emit('metadataChanged')]: the constructor registered
    [handleMetadataChanged] as its listener. *)
Definition emit_metadataChanged : M CryptoKey unit :=
  log (EvEmit metadataChanged) ;;
  handleMetadataChanged.

(** The string a value is when the code calls [slice] on it. *)
Definition as_string (v : Value) : exn + string :=
  match v with
  | VString s => inr s
  | _ => inl (Error "TypeError: encryptedData.slice is not a function")
  end.

(** [v === s] for a string literal [s] *)
Definition is_string (v : Value) (s : string) : bool :=
  match v with
  | VString s' => String.eqb s' s
  | _ => false
  end.

Definition decryptMessage (message : Message) (waitForKey : bool) : M CryptoKey Message :=
  if negb (is_string (field message "t") "e2e") || is_string (field message "e2e") "done" then
    ret message
  else
    key <- (if waitForKey then (k <- fetchKey ;; ret (Some k)) else getKey) ;;
    keyID <- (if waitForKey then (k <- fetchKeyID ;; ret (Some k)) else getKeyID) ;;
    match key with
    | Some key =>
      if negb (truthy keyID) then ret message else
      input <- lift (as_string (field message "msg")) ;;
      data <- Cipher_decrypt input key (to_js_string keyID) ;;
      ret (<["e2e" := VString "done"]> (<["msg" := prop_of data "text"]> message))
    | None => ret message
    end.

Definition encryptMessage (message : Message) : M CryptoKey Message :=
  metadata <- getMetadata ;;
  match metadata with
  | None => ret message
  | Some metadata =>
    if negb (encryptionRequired metadata) then
      ret message
    else if is_string (field message "t") "e2e" then
      ret message
    else
      key <- fetchKey ;;
      keyID <- fetchKeyID ;;
      let ts := Date_now W + default 0 (TimeSync_serverOffset W) in
      msg <- Cipher_encrypt
               (VObject [("_id", field message "_id"); ("text", field message "msg");
                         ("userId", VString (uid metadata)); ("ts", VDate ts)])
               key keyID ;;
      ret (<["e2e" := VString "pending"]>
             (<["msg" := VString msg]> (<["t" := VString "e2e"]> message)))
  end.

Definition decryptLastMessage : M CryptoKey unit :=
  metadata <- getMetadata ;;
  match metadata with
  | None => ret tt
  | Some metadata =>
    match lastMessage metadata with
    | None => ret tt
    | Some lastMessage =>
      decryptedLastMessage <- decryptMessage lastMessage true ;;
      r <- read rid ;;
      log (EvRoomsUpdate r (field decryptedLastMessage "msg")
                           (field decryptedLastMessage "e2e")) ;;
      log (EvSubscriptionsUpdate r (field decryptedLastMessage "msg")
                                   (field decryptedLastMessage "e2e"))
    end
  end.

(** The callback of [decryptPendingMessages]'s [forEach], from its call
    to its [await]: [decryptMessage] is called, which goes as far as the
    call of [decryptAES], and the callback waits for its promise. *)
Definition decryptPendingMessage_called (message : Message) : M CryptoKey unit :=
  decrypted <- call (decryptMessage message false) ;;
  spawn_job (JDecryptPendingMessage decrypted).

(** The same callback from its [await] on.  A rejection is the rejection
    of a promise that no one holds. *)
Definition decryptPendingMessage_resumed (decrypted : Outcome Message) : M CryptoKey unit :=
  decrypted <- await_promise decrypted ;;
  log (EvMessagesUpdate (field decrypted "_id") (delete "_id" decrypted)).

Definition decryptPendingMessages : M CryptoKey unit :=
  r <- read rid ;;
  log (EvMessagesFind r) ;;
  forEach (Messages_find W r) decryptPendingMessage_called.

Definition provideKeyToUser (keyID' : string) : M CryptoKey unit :=
  kid <- read keyID ;;
  if negb (strict_eq kid (Some keyID')) then ret tt
  else spawn_task TEncryptKeyForOtherParticipants.

(** The function [start] hands to [Tracker.autorun]; [store] is what the
    reactive sources answer in this run. *)
Definition autorun (store : Store) : M CryptoKey unit :=
  let metadata' := getRoomMetadata store in
  prev <- read metadata ;;
  if isShallowEqual W prev metadata' then
    ret tt
  else
    write (with_metadata metadata') ;;
    emit_metadataChanged.

(** [start]: [Tracker.autorun] runs its function once at once. *)
Definition start (store : Store) : M CryptoKey unit :=
  running <- read computation ;;
  if running then ret tt
  else
    autorun store ;;
    write (with_computation true).

(** A change of the reactive sources: the computation, while it lives,
    runs its function again. *)
Definition invalidate (store : Store) : M CryptoKey unit :=
  running <- read computation ;;
  if running then autorun store else ret tt.

Definition stop : M CryptoKey unit :=
  write (with_computation false).

(** *** Promises that were started and not awaited *)

Definition run_task (t : Task) : M CryptoKey unit :=
  match t with
  | TImportSubscriptionKey encryptedSubscriptionKey =>
    try_catch (importSubscriptionKey encryptedSubscriptionKey ;; emit_keyChanged)
              (fun error => log (EvConsoleError error))
  | TCreateGroupKey =>
    try_catch (createGroupKey ;; emit_keyChanged)
              (fun error => log (EvConsoleError error))
  | TDecryptLastMessage => decryptLastMessage
  | TDecryptPendingMessages => decryptPendingMessages
  | TEncryptKeyForOtherParticipants => encryptKeyForOtherParticipants
  end.

(** What is left of a callback. *)
Definition run_job (j : Job) : M CryptoKey unit :=
  match j with
  | JEncryptForParticipant user jwk => encryptForParticipant_resumed user jwk
  | JDecryptPendingMessage decrypted => decryptPendingMessage_resumed decrypted
  end.

Definition run_all {T} (run : T -> M CryptoKey unit) (l : list T) (m : Machine CryptoKey)
  : Machine CryptoKey :=
  fold_left (fun m t => snd (run t m)) l m.

Definition clear_tasks (m : Machine CryptoKey) : Machine CryptoKey :=
  {| client := client m; trace := trace m; tasks := []; jobs := jobs m |}.

Definition clear_jobs (m : Machine CryptoKey) : Machine CryptoKey :=
  {| client := client m; trace := trace m; tasks := tasks m; jobs := [] |}.

(** The tasks without an [await]: they are over when their call returns. *)
Definition synchronous (t : Task) : bool :=
  match t with
  | TDecryptPendingMessages => true
  | _ => false
  end.

(** Run the started tasks: first those that were over at their call, then
    the others, in the order in which they were started. *)
Definition run_tasks (m : Machine CryptoKey) : Machine CryptoKey :=
  run_all run_task (List.filter (fun t => negb (synchronous t)) (tasks m))
    (run_all run_task (List.filter synchronous (tasks m)) (clear_tasks m)).

(** Run what is left of the callbacks. *)
Definition run_jobs (m : Machine CryptoKey) : Machine CryptoKey :=
  run_all run_job (jobs m) (clear_jobs m).

Definition settle (m : Machine CryptoKey) : Machine CryptoKey :=
  run_jobs (run_tasks m).

(** *** The life of a client *)

(** [new E2EERoomClient(rid, userPrivateKey)] *)
Definition create (rid' : string) (userPrivateKey' : CryptoKey) : Machine CryptoKey :=
  {| client := {| rid := rid'; userPrivateKey := userPrivateKey'; computation := false;
                  metadata := None; key := None; keyID := None;
                  sessionKeyExportedString := None |};
     trace := []; tasks := []; jobs := [] |}.

(** What reaches a client from outside: calls of its public methods and
    changes of the reactive sources. *)
Inductive Input :=
| CallStart (store : Store)
| StoreChanged (store : Store)
| CallStop
| CallProvideKeyToUser (keyID' : string)
| CallDecryptMessage (message : Message) (waitForKey : bool)
| CallEncryptMessage (message : Message).

Definition react (i : Input) : M CryptoKey unit :=
  match i with
  | CallStart store => start store
  | StoreChanged store => invalidate store
  | CallStop => stop
  | CallProvideKeyToUser keyID' => provideKeyToUser keyID'
  | CallDecryptMessage message waitForKey => decryptMessage message waitForKey ;; ret tt
  | CallEncryptMessage message => encryptMessage message ;; ret tt
  end.

(** One input, and everything it started run to its end. *)
Definition step (m : Machine CryptoKey) (i : Input) : Machine CryptoKey :=
  settle (snd (react i m)).

Definition run (inputs : list Input) (m : Machine CryptoKey) : Machine CryptoKey :=
  fold_left step inputs m.

End Code.

(** ** Vocabulary of the properties *)

Section Vocabulary.

Context {CryptoKey : Type} (W : World CryptoKey).

(** What the round trip asks of the libraries the cipher calls. *)
Record CipherLaws : Prop := {
  nonce_length : length (getRandomValues W 16) = 16%nat;
  base64_decode_encode : forall bs, Base64_decode W (Base64_encode W bs) = inr bs;
  aes_decrypt_encrypt : forall vector k data c,
    length vector = 16%nat ->
    encryptAES W vector k data = inr c -> decryptAES W vector k c = inr data;
  utf8_decode_encode : forall x,
    TextDecoder_decode W (TextEncoder_encode W (EJSON_stringify W x)) = EJSON_stringify W x;
  ejson_parse_stringify : forall m,
    EJSON_parse W (EJSON_stringify W (toValue m)) = inr (toValue m);
}.

(** The key triple: all three fields absent, or all three present. *)
Definition allNone (c : Client CryptoKey) : Prop :=
  key c = None /\ keyID c = None /\ sessionKeyExportedString c = None.

Definition allSome (c : Client CryptoKey) : Prop :=
  is_Some (key c) /\ is_Some (keyID c) /\ is_Some (sessionKeyExportedString c).

Definition coherent (c : Client CryptoKey) : Prop := allNone c \/ allSome c.

(** [hasKey()], [hasKeyID()], [hasExportedMaterial()] *)
Definition hasKey (c : Client CryptoKey) : bool := bool_decide (is_Some (key c)).
Definition hasKeyID (c : Client CryptoKey) : bool := bool_decide (is_Some (keyID c)).
Definition hasExportedMaterial (c : Client CryptoKey) : bool :=
  bool_decide (is_Some (sessionKeyExportedString c)).

(** The three assignments of an adoption. *)
Definition adopt (k : CryptoKey) (kid material : string) (c : Client CryptoKey)
  : Client CryptoKey :=
  with_sessionKeyExportedString (Some material) (with_keyID (Some kid) (with_key (Some k) c)).

(** The three assignments of [discardKey]. *)
Definition discard (c : Client CryptoKey) : Client CryptoKey :=
  with_sessionKeyExportedString None (with_keyID None (with_key None c)).

(** The key id of exported key material. *)
Definition derivedKeyID (material : string) : string :=
  extractEncryptedKeyId (Base64_encode_string W material).

(** The test of the handler's second branch:
    [keyID && key && keyID === roomKeyId]. *)
Definition keyValid (c : Client CryptoKey) (md : RoomMetadata) : bool :=
  truthy (keyID c) && bool_decide (is_Some (key c)) && strict_eq (keyID c) (roomKeyID md).

(** How often a trace emits a signal. *)
Definition is_emit (s : Signal) (e : Event CryptoKey) : bool :=
  match e, s with
  | EvEmit metadataChanged, metadataChanged => true
  | EvEmit keyChanged, keyChanged => true
  | _, _ => false
  end.

Definition count_emits (s : Signal) (tr : list (Event CryptoKey)) : nat :=
  length (filter (fun e => is_emit s e = true) tr).

(** The steps of a key creation that Scenario B orders. *)
Inductive Milestone :=
| KeyGenerated
| KeyIDPublished
| DistributorInvoked
| KeyChangedEmitted.

#[global] Instance Milestone_eq_dec : EqDecision Milestone.
Proof. solve_decision. Defined.

Definition milestone (e : Event CryptoKey) : option Milestone :=
  match e with
  | EvGenerateAESKey => Some KeyGenerated
  | EvSetRoomKeyID _ _ => Some KeyIDPublished
  | EvGetUsersOfRoomWithoutKey _ => Some DistributorInvoked
  | EvEmit keyChanged => Some KeyChangedEmitted
  | _ => None
  end.

Definition milestones (tr : list (Event CryptoKey)) : list Milestone :=
  omap milestone tr.

(** [pattern] occurs in [l], in this order, other steps allowed between. *)
Fixpoint in_order (pattern l : list Milestone) : bool :=
  match pattern, l with
  | [], _ => true
  | _ :: _, [] => false
  | p :: ps, x :: xs =>
    if decide (p = x) then in_order ps xs else in_order (p :: ps) xs
  end.

(** The key material a wrapped key holds for this client. *)
Definition unwrap (c : Client CryptoKey) (encryptedSubscriptionKey : string) : exn + string :=
  match extractEncryptedBody W encryptedSubscriptionKey with
  | inl e => inl e
  | inr body =>
    match decryptRSA W (userPrivateKey c) body with
    | inl e => inl e
    | inr decrypted => inr (fromBufferToString W decrypted)
    end
  end.

(** Scenario D as the spec asks for it: a wrapped key whose derived key id
    is not the room's published one is not adopted, and a key request for
    the published id goes out instead. *)
Definition rejects_mismatched_key (mach : Machine CryptoKey) : Prop :=
  forall md material,
    metadata (client mach) = Some md ->
    truthy (encryptedKey md) = true ->
    unwrap (client mach) (to_js_string (encryptedKey md)) = inr material ->
    Some (derivedKeyID material) <> roomKeyID md ->
    let final := settle W (snd (handleMetadataChanged mach)) in
    key (client final) = None /\
    In (EvKeyRequest (rid (client mach)) (to_js_string (roomKeyID md))) (trace final).

(** The transition the handler started, an import or a creation, is
    rejected with [e]. *)
Definition transition_fails (m1 : Machine CryptoKey) (e : exn) : Prop :=
  (exists enc, tasks m1 = [TImportSubscriptionKey enc] /\
               fst (importSubscriptionKey W enc (clear_tasks m1)) = Rejected e) \/
  (tasks m1 = [TCreateGroupKey] /\
   fst (createGroupKey W (clear_tasks m1)) = Rejected e).

(** The error taxonomy as the spec has it: whatever fails in a transition,
    the client is keyless afterwards. *)
Definition failure_leaves_keyless (mach : Machine CryptoKey) : Prop :=
  forall e,
    transition_fails (snd (handleMetadataChanged mach)) e ->
    allNone (client (settle W (snd (handleMetadataChanged mach)))).

(** Scenario B's order as the spec has it: the key id is published, then
    [keyChanged] is emitted, then the distributor is invoked (its first
    act is to ask for the participants without a key). *)
Definition keyChanged_before_distribution (tr : list (Event CryptoKey)) : bool :=
  in_order [KeyIDPublished; KeyChangedEmitted; DistributorInvoked] (milestones tr).

(** The public key of a participant as [importRSAKey] gets it: there is
    none for a participant without [e2e], or whose public key does not
    parse. *)
Definition parsed_public_key (user : User) : option Value :=
  match user_e2e user with
  | Some public_key =>
    match JSON_parse W public_key with
    | inr jwk => Some jwk
    | inl _ => None
    end
  | None => None
  end.

(** What calling [encryptForParticipant] for each of [users] shows: the
    calls of [importRSAKey], and the wrappings that wait for its answer. *)
Definition import_calls (users : list User) : list (Event CryptoKey) :=
  omap (fun user => EvImportRSAKey <$> parsed_public_key user) users.

Definition wrappings_started (users : list User) : list Job :=
  omap (fun user => JEncryptForParticipant user <$> parsed_public_key user) users.

(** The events of a wrapping after its [importRSAKey].  When they come,
    relative to what else runs, depends on how fast the libraries answer;
    the code does not fix it. *)
Definition is_wrapping_event (e : Event CryptoKey) : bool :=
  match e with
  | EvEncryptRSA _ _ | EvUpdateGroupKey _ _ _ => true
  | _ => false
  end.

Definition without_wrappings (tr : list (Event CryptoKey)) : list (Event CryptoKey) :=
  List.filter (fun e => negb (is_wrapping_event e)) tr.

(** The machine on which the observer runs the handler for a snapshot it
    takes for new: the snapshot is stored and [metadataChanged] emitted. *)
Definition notified (snapshot : option RoomMetadata) (m : Machine CryptoKey)
  : Machine CryptoKey :=
  {| client := with_metadata snapshot (client m);
     trace := trace m ++ [EvEmit metadataChanged];
     tasks := tasks m; jobs := jobs m |}.

(** Suppression as the spec has it: two shallow-equal snapshots in a row
    make one [metadataChanged], whatever the observer held before. *)
Definition equal_snapshots_trigger_once (mach : Machine CryptoKey)
    (store1 store2 : Store) : Prop :=
  isShallowEqual W (getRoomMetadata store1) (getRoomMetadata store2) = true ->
  let m1 := settle W (snd (autorun W store1 mach)) in
  let m2 := settle W (snd (autorun W store2 m1)) in
  count_emits metadataChanged (trace m2) = S (count_emits metadataChanged (trace mach)).

(** From [m] to [m'] the observer's fields and the started tasks are as
    they were, and the trace grew by events none of which emits
    [metadataChanged]. *)
Definition steady (m m' : Machine CryptoKey) : Prop :=
  rid (client m') = rid (client m) /\
  userPrivateKey (client m') = userPrivateKey (client m) /\
  computation (client m') = computation (client m) /\
  metadata (client m') = metadata (client m) /\
  tasks m' = tasks m /\
  exists evs, trace m' = trace m ++ evs /\ count_emits metadataChanged evs = 0%nat.

(** [steady], and no job was started either. *)
Definition still (m m' : Machine CryptoKey) : Prop :=
  steady m m' /\ jobs m' = jobs m.

(** From [m] to [m'] the key triple is as it was. *)
Definition same_keys (m m' : Machine CryptoKey) : Prop :=
  key (client m') = key (client m) /\
  keyID (client m') = keyID (client m) /\
  sessionKeyExportedString (client m') = sessionKeyExportedString (client m).

(** From [m] to [m'] a triple that was all present or all absent stays so. *)
Definition keeps_coherent (m m' : Machine CryptoKey) : Prop :=
  coherent (client m) -> coherent (client m').

(** Every run of [c] relates the machine before to the machine after. *)
Definition respects (R : relation (Machine CryptoKey)) {A} (c : M CryptoKey A) : Prop :=
  forall m, R m (snd (c m)).

End Vocabulary.

Arguments allNone {CryptoKey} c.
Arguments allSome {CryptoKey} c.
Arguments coherent {CryptoKey} c.
Arguments adopt {CryptoKey} k kid material c.
Arguments discard {CryptoKey} c.
Arguments is_emit {CryptoKey} s e.
Arguments count_emits {CryptoKey} s tr.
Arguments steady {CryptoKey} m m'.
Arguments still {CryptoKey} m m'.
Arguments respects {CryptoKey} R {A} c.
Arguments same_keys {CryptoKey} m m'.
Arguments keeps_coherent {CryptoKey} m m'.
Arguments milestone {CryptoKey} e.
Arguments milestones {CryptoKey} tr.
Arguments keyChanged_before_distribution {CryptoKey} tr.
Arguments notified {CryptoKey} snapshot m.
Arguments is_wrapping_event {CryptoKey} e.
Arguments without_wrappings {CryptoKey} tr.

(** ** A concrete world

    Stand-ins for the libraries, small enough to run: keys are numbers, the
    text-safe encoding keeps the bytes as characters, the ciphers reverse
    their input, and a message is serialized as length-prefixed fields. *)

Module Demo.

(** [n] marks, then a comma: the length prefix of a field. *)
Fixpoint tally (n : nat) (rest : string) : string :=
  match n with
  | O => String "," rest
  | S n' => String "#" (tally n' rest)
  end.

Fixpoint untally (s : string) : option (nat * string) :=
  match s with
  | String "#" s' =>
    match untally s' with
    | Some (n, rest) => Some (S n, rest)
    | None => None
    end
  | String "," s' => Some (O, s')
  | _ => None
  end.

Definition frame (s rest : string) : string :=
  tally (String.length s) (s +:+ rest).

Definition unframe (s : string) : option (string * string) :=
  match untally s with
  | Some (n, rest) => Some (slice_to n rest, slice_from n rest)
  | None => None
  end.

Definition stringify (v : Value) : string :=
  match v with
  | VObject [(_, VString a); (_, VString b); (_, VString c); (_, VDate z)] =>
    frame a (frame b (frame c (NilEmpty.string_of_int (Z.to_int z))))
  | _ => "null"
  end.

Definition parse (s : string) : exn + Value :=
  match unframe s with
  | Some (a, s1) =>
    match unframe s1 with
    | Some (b, s2) =>
      match unframe s2 with
      | Some (c, s3) =>
        match NilEmpty.int_of_string s3 with
        | Some z =>
          inr (toValue {| em_id := a; em_text := b; em_userId := c;
                          em_ts := Z.of_int z |})
        | None => inl (Error "Unexpected token")
        end
      | None => inl (Error "Unexpected token")
      end
    | None => inl (Error "Unexpected token")
    end
  | None => inl (Error "Unexpected token")
  end.

(** A JSON Web Key is its [k] member here. *)
Definition jwk_of (material : string) : Value :=
  VObject [("kty", VString "oct"); ("k", VString material)].

Definition material_of (jwk : Value) : string :=
  match prop_of jwk "k" with
  | VString s => s
  | _ => "null"
  end.

(** Snapshots are the same when their scalar fields are and neither holds
    a last message: two fetched message objects are never the same object. *)
Definition same_snapshot (a b : option RoomMetadata) : bool :=
  match a, b with
  | None, None => true
  | Some a, Some b =>
    String.eqb (uid a) (uid b) &&
    Bool.eqb (encryptionRequired a) (encryptionRequired b) &&
    strict_eq (roomKeyID a) (roomKeyID b) &&
    strict_eq (encryptedKey a) (encryptedKey b) &&
    match lastMessage a, lastMessage b with
    | None, None => true
    | _, _ => false
    end
  | _, _ => false
  end.

(** The world, given how the participants query answers. *)
Definition world (users : exn + list User) : World nat := {|
  Base64_encode := string_of_list_byte;
  Base64_decode := fun s => inr (list_byte_of_string s);
  EJSON_stringify := stringify;
  EJSON_parse := parse;
  JSON_stringify := material_of;
  JSON_parse := fun s =>
    if String.eqb s "" then inl (Error "Unexpected end of JSON input")
    else inr (jwk_of s);
  TextEncoder_encode := list_byte_of_string;
  TextDecoder_decode := string_of_list_byte;
  getRandomValues := fun n => repeat "*"%byte n;
  encryptAES := fun _ _ data => inr (rev data);
  decryptAES := fun _ _ cipherText => inr (rev cipherText);
  encryptRSA := fun _ data => inr (rev data);
  decryptRSA := fun _ body => inr (rev body);
  generateAESKey := inr 7%nat;
  exportJWKKey := fun _ => inr (jwk_of "fresh-room-key-material");
  importAESKey := fun _ => inr 9%nat;
  importRSAKey := fun _ => inr 5%nat;
  fromStringToBuffer := list_byte_of_string;
  fromBufferToString := string_of_list_byte;
  post_setRoomKeyID := fun _ _ => inr tt;
  get_getUsersOfRoomWithoutKey := fun _ => users;
  post_updateGroupKey := fun _ _ _ => inr tt;
  Messages_find := fun _ => [];
  isShallowEqual := same_snapshot;
  Date_now := 1650000000000;
  TimeSync_serverOffset := Some 25;
|}.

Definition alice : User := {| user_id := "alice"; user_e2e := Some "alice-public-key" |}.
Definition bob : User := {| user_id := "bob"; user_e2e := None |}.

Definition online : World nat := world (inr [alice; bob]).
Definition offline : World nat := world (inl (Error "Failed to fetch")).

Definition carol : User := {| user_id := "carol"; user_e2e := Some "carol-public-key" |}.

(** Three participants without the key, one of them without a public key. *)
Definition busy : World nat := world (inr [carol; bob; alice]).

(** No request gets through: [setRoomKeyID] and the participants query are
    refused alike. *)
Definition unreachable : World nat := {|
  Base64_encode := Base64_encode offline;
  Base64_decode := Base64_decode offline;
  EJSON_stringify := EJSON_stringify offline;
  EJSON_parse := EJSON_parse offline;
  JSON_stringify := JSON_stringify offline;
  JSON_parse := JSON_parse offline;
  TextEncoder_encode := TextEncoder_encode offline;
  TextDecoder_decode := TextDecoder_decode offline;
  getRandomValues := getRandomValues offline;
  encryptAES := encryptAES offline;
  decryptAES := decryptAES offline;
  encryptRSA := encryptRSA offline;
  decryptRSA := decryptRSA offline;
  generateAESKey := generateAESKey offline;
  exportJWKKey := exportJWKKey offline;
  importAESKey := importAESKey offline;
  importRSAKey := importRSAKey offline;
  fromStringToBuffer := fromStringToBuffer offline;
  fromBufferToString := fromBufferToString offline;
  post_setRoomKeyID := fun _ _ => inl (Error "Failed to fetch");
  get_getUsersOfRoomWithoutKey := get_getUsersOfRoomWithoutKey offline;
  post_updateGroupKey := fun _ _ _ => inl (Error "Failed to fetch");
  Messages_find := Messages_find offline;
  isShallowEqual := isShallowEqual offline;
  Date_now := Date_now offline;
  TimeSync_serverOffset := TimeSync_serverOffset offline;
|}.

(** A client with no key, observing [md]. *)
Definition observing (md : option RoomMetadata) : Machine nat :=
  {| client := {| rid := "GENERAL"; userPrivateKey := 1%nat; computation := true;
                  metadata := md; key := None; keyID := None;
                  sessionKeyExportedString := None |};
     trace := []; tasks := []; jobs := [] |}.

(** A fresh encrypted room: no room key id, no wrapped key. *)
Definition fresh_room : RoomMetadata :=
  {| uid := "me"; encryptionRequired := true; roomKeyID := None;
     encryptedKey := None; lastMessage := None |}.

(** A room whose published key id is not the id of the key that was
    wrapped for this user. *)
Definition mismatched_room : RoomMetadata :=
  {| uid := "me"; encryptionRequired := true; roomKeyID := Some "room-key-id1";
     encryptedKey := Some "wrapped-key1lairetam-yek-rehto-na";
     lastMessage := None |}.

(** A room whose wrapped key holds nothing that parses. *)
Definition broken_room : RoomMetadata :=
  {| uid := "me"; encryptionRequired := true; roomKeyID := Some "room-key-id1";
     encryptedKey := Some "wrapped-key1"; lastMessage := None |}.

(** A room that does not ask for encryption. *)
Definition plain_room : RoomMetadata :=
  {| uid := "me"; encryptionRequired := false; roomKeyID := Some "room-key-id1";
     encryptedKey := None; lastMessage := None |}.

(** Two states of the reactive sources that give the same snapshot. *)
Definition store_a : Store :=
  {| Meteor_userId := Some "me";
     Subscriptions_findOne := Some {| sub_E2EKey := None |};
     Rooms_findOne := Some {| room_t := "p"; room_encrypted := Some true;
                              room_e2eKeyId := Some "room-key-id1";
                              room_lastMessage := None |};
     allowRoomSettingChange_E2E := fun t => String.eqb t "p" || String.eqb t "d" |}.

Definition store_b : Store :=
  {| Meteor_userId := Some "me";
     Subscriptions_findOne := Some {| sub_E2EKey := None |};
     Rooms_findOne := Some {| room_t := "p"; room_encrypted := Some true;
                              room_e2eKeyId := Some "room-key-id1";
                              room_lastMessage := None |};
     allowRoomSettingChange_E2E := fun t => String.eqb t "p" |}.

(** A client that holds key 9 under the id "room-key-id1". *)
Definition keyed : Machine nat :=
  {| client := {| rid := "GENERAL"; userPrivateKey := 1%nat; computation := true;
                  metadata := Some broken_room; key := Some 9%nat;
                  keyID := Some "room-key-id1";
                  sessionKeyExportedString := Some "room-key-id1-material" |};
     trace := []; tasks := []; jobs := [] |}.

Definition hello : EncryptableMessage :=
  {| em_id := "m1"; em_text := "hello"; em_userId := "me"; em_ts := 1650000000025 |}.

(** What [Cipher.encrypt] makes of [hello] under key 9. *)
Definition ciphertext : string :=
  match fst (Cipher_encrypt online (toValue hello) 9%nat "room-key-id1" keyed) with
  | Resolved c => c
  | _ => ""
  end.

Definition plain_message : Message :=
  <["_id" := VString "m0"]> (<["msg" := VString "hello"]> (<["rid" := VString "GENERAL"]> ∅)).

Definition pending_message : Message :=
  <["_id" := VString "m1"]>
    (<["t" := VString "e2e"]>
       (<["e2e" := VString "pending"]>
          (<["msg" := VString ciphertext]> (<["rid" := VString "GENERAL"]> ∅)))).

(** The sources of [store_a] after the user logged out. *)
Definition store_logged_out : Store :=
  {| Meteor_userId := None;
     Subscriptions_findOne := Some {| sub_E2EKey := None |};
     Rooms_findOne := Some {| room_t := "p"; room_encrypted := Some true;
                              room_e2eKeyId := Some "room-key-id1";
                              room_lastMessage := None |};
     allowRoomSettingChange_E2E := fun t => String.eqb t "p" || String.eqb t "d" |}.

(** The sources of a room that was just set to encrypted. *)
Definition store_fresh : Store :=
  {| Meteor_userId := Some "me";
     Subscriptions_findOne := Some {| sub_E2EKey := None |};
     Rooms_findOne := Some {| room_t := "p"; room_encrypted := Some true;
                              room_e2eKeyId := None;
                              room_lastMessage := None |};
     allowRoomSettingChange_E2E := fun t => String.eqb t "p" || String.eqb t "d" |}.

(** [keyed] after it moved on to the key "room-key-id2". *)
Definition rotated : Machine nat :=
  {| client := {| rid := "GENERAL"; userPrivateKey := 1%nat; computation := true;
                  metadata := Some broken_room; key := Some 11%nat;
                  keyID := Some "room-key-id2";
                  sessionKeyExportedString := Some "room-key-id2-material" |};
     trace := []; tasks := []; jobs := [] |}.

(** A message of another room member, encrypted and not yet decrypted. *)
Definition pending_reply : Message :=
  <["_id" := VString "m2"]> (<["u" := VString "alice"]> pending_message).

(** The room of [keyed], with [pending_message] as its last message. *)
Definition busy_room : RoomMetadata :=
  {| uid := "me"; encryptionRequired := true; roomKeyID := Some "room-key-id1";
     encryptedKey := Some "wrapped-key1"; lastMessage := Some pending_message |}.

(** [keyed], observing [busy_room]. *)
Definition reading : Machine nat :=
  {| client := {| rid := "GENERAL"; userPrivateKey := 1%nat; computation := true;
                  metadata := Some busy_room; key := Some 9%nat;
                  keyID := Some "room-key-id1";
                  sessionKeyExportedString := Some "room-key-id1-material" |};
     trace := []; tasks := []; jobs := [] |}.

(** [online], with two messages found pending. *)
Definition archive : World nat := {|
  Base64_encode := Base64_encode online;
  Base64_decode := Base64_decode online;
  EJSON_stringify := EJSON_stringify online;
  EJSON_parse := EJSON_parse online;
  JSON_stringify := JSON_stringify online;
  JSON_parse := JSON_parse online;
  TextEncoder_encode := TextEncoder_encode online;
  TextDecoder_decode := TextDecoder_decode online;
  getRandomValues := getRandomValues online;
  encryptAES := encryptAES online;
  decryptAES := decryptAES online;
  encryptRSA := encryptRSA online;
  decryptRSA := decryptRSA online;
  generateAESKey := generateAESKey online;
  exportJWKKey := exportJWKKey online;
  importAESKey := importAESKey online;
  importRSAKey := importRSAKey online;
  fromStringToBuffer := fromStringToBuffer online;
  fromBufferToString := fromBufferToString online;
  post_setRoomKeyID := post_setRoomKeyID online;
  get_getUsersOfRoomWithoutKey := get_getUsersOfRoomWithoutKey online;
  post_updateGroupKey := post_updateGroupKey online;
  Messages_find := fun _ => [pending_message; pending_reply];
  isShallowEqual := isShallowEqual online;
  Date_now := Date_now online;
  TimeSync_serverOffset := TimeSync_serverOffset online;
|}.

End Demo.

(** ** Vocabulary of the further properties *)

Section Observations.

Context {CryptoKey : Type} (W : World CryptoKey).

(** The record [encryptMessage] hands to the cipher. *)
Definition plaintext_record (metadata : RoomMetadata) (message : Message) : Value :=
  VObject [("_id", field message "_id"); ("text", field message "msg");
           ("userId", VString (uid metadata));
           ("ts", VDate (Date_now W + default 0 (TimeSync_serverOffset W)))].

(** The message [encryptMessage] returns for the ciphertext [c]. *)
Definition encrypted_message (message : Message) (c : string) : Message :=
  <["e2e" := VString "pending"]> (<["msg" := VString c]> (<["t" := VString "e2e"]> message)).

(** The message [decryptMessage] returns for the decrypted record [data]. *)
Definition decrypted_message (message : Message) (data : Value) : Message :=
  <["e2e" := VString "done"]> (<["msg" := prop_of data "text"]> message).

(** The events of [m'] that [m] did not have yet. *)
Definition events_since (m m' : Machine CryptoKey) : list (Event CryptoKey) :=
  skipn (length (trace m)) (trace m').

(** From [m] to [m'] the trace grew by events that all satisfy [P]. *)
Definition adds_only (P : Event CryptoKey -> bool) (m m' : Machine CryptoKey) : Prop :=
  exists evs, trace m' = trace m ++ evs /\ forallb P evs = true.

(** The events of decrypting and of writing a decrypted message back. *)
Definition is_decryption_event (e : Event CryptoKey) : bool :=
  match e with
  | EvDecryptAES _ _ _ | EvMessagesFind _ | EvRoomsUpdate _ _ _
  | EvSubscriptionsUpdate _ _ _ | EvMessagesUpdate _ _ => true
  | _ => false
  end.

(** The events of making a new room key: generating it, exporting it and
    publishing its id. *)
Definition is_creation_event (e : Event CryptoKey) : bool :=
  match e with
  | EvGenerateAESKey | EvExportJWKKey _ | EvSetRoomKeyID _ _ => true
  | _ => false
  end.

(** Every event but a request for the room key. *)
Definition not_key_request (e : Event CryptoKey) : bool :=
  match e with EvKeyRequest _ _ => false | _ => true end.

(** Every event but those of making a new room key. *)
Definition not_creation_event (e : Event CryptoKey) : bool :=
  negb (is_creation_event e).

(** Every event but an update of the last message's two projections. *)
Definition not_projection_update (e : Event CryptoKey) : bool :=
  match e with
  | EvRoomsUpdate _ _ _ | EvSubscriptionsUpdate _ _ _ => false
  | _ => true
  end.

(** Any event at all. *)
Definition any_event (e : Event CryptoKey) : bool := true.

(** From [m] to [m'] the client's fields are as they were. *)
Definition same_client (m m' : Machine CryptoKey) : Prop := client m' = client m.

(** What wrapping a key for a participant and unwrapping it again asks of
    the libraries: [privateKey] undoes [publicKey], and the byte and text
    conversions undo each other. *)
Record WrapLaws (publicKey privateKey : CryptoKey) : Prop := {
  wrap_base64 : forall bs, Base64_decode W (Base64_encode W bs) = inr bs;
  wrap_rsa : forall data wrapped,
    encryptRSA W publicKey data = inr wrapped ->
    decryptRSA W privateKey wrapped = inr data;
  wrap_buffer : forall s, fromBufferToString W (fromStringToBuffer W s) = s;
}.

End Observations.

Arguments events_since {CryptoKey} m m'.
Arguments adds_only {CryptoKey} P m m'.
Arguments is_decryption_event {CryptoKey} e.
Arguments is_creation_event {CryptoKey} e.
Arguments not_key_request {CryptoKey} e.
Arguments not_creation_event {CryptoKey} e.
Arguments any_event {CryptoKey} e.
Arguments not_projection_update {CryptoKey} e.
Arguments same_client {CryptoKey} m m'.
Arguments encrypted_message message c : assert.
Arguments decrypted_message message data : assert.

(** * Properties *)

(** ** Facts about slicing *)

Lemma slice_to_app (a b : string) : slice_to (String.length a) (a +:+ b) = a.
Proof.
  induction a as [|c a IH]; simpl.
  - reflexivity.
  - now rewrite IH.
Qed.

Lemma slice_from_app (a b : string) : slice_from (String.length a) (a +:+ b) = b.
Proof.
  induction a as [|c a IH]; simpl.
  - now destruct b.
  - exact IH.
Qed.

Lemma split_join (vector encryptedData : bytes) :
  length vector = 16%nat ->
  splitVectorAndEncryptedData (joinVectorAndEncryptedData vector encryptedData)
  = (vector, encryptedData).
Proof.
  intros Hlen. unfold splitVectorAndEncryptedData, joinVectorAndEncryptedData.
  rewrite <- Hlen.
  now rewrite take_app_length, drop_app_length.
Qed.

(** ** The cipher *)

Section CipherFacts.

Context {CryptoKey : Type} (W : World CryptoKey).

Lemma Cipher_encrypt_resolved input k id mach c mach' :
  Cipher_encrypt W input k id mach = (Resolved c, mach') ->
  exists result,
    encryptAES W (getRandomValues W 16) k
               (TextEncoder_encode W (EJSON_stringify W input)) = inr result /\
    c = id +:+ Base64_encode W (joinVectorAndEncryptedData (getRandomValues W 16) result).
Proof.
  unfold Cipher_encrypt, await, bind, log, lift, ret, throw. simpl.
  destruct (encryptAES W _ k _) as [e|result]; intros H; inversion H; subst.
  now exists result.
Qed.

(** C1. Round trip: decrypting, with the same key and key id, what
    [Cipher.encrypt] returned for a message [m] under a key id of 12
    characters gives back [m], whatever nonce was drawn and whatever the
    machine looks like when [decrypt] runs. *)
Theorem Cipher_decrypt_encrypt (L : CipherLaws W) (m : EncryptableMessage) (k : CryptoKey)
    (id : string) (mach mach' : Machine CryptoKey) (c : string) :
  String.length id = 12%nat ->
  Cipher_encrypt W (toValue m) k id mach = (Resolved c, mach') ->
  forall mach2, fst (Cipher_decrypt W c k id mach2) = Resolved (toValue m).
Proof.
  intros Hid Henc mach2.
  destruct (Cipher_encrypt_resolved _ _ _ _ _ _ Henc) as (result & Haes & ->).
  set (body := Base64_encode W _).
  assert (Hhead : slice_to 12 (id +:+ body) = id)
    by (rewrite <- Hid; apply slice_to_app).
  assert (Htail : slice_from 12 (id +:+ body) = body)
    by (rewrite <- Hid; apply slice_from_app).
  unfold Cipher_decrypt, extractEncryptedKeyId, extractEncryptedBody.
  rewrite Hhead, Htail, String.eqb_refl. subst body.
  unfold await, bind, log, lift, ret, throw.
  rewrite (base64_decode_encode W L), (split_join _ _ (nonce_length W L)).
  cbv beta iota.
  rewrite (aes_decrypt_encrypt W L _ _ _ _ (nonce_length W L) Haes).
  rewrite (utf8_decode_encode W L), (ejson_parse_stringify W L).
  reflexivity.
Qed.

Lemma Cipher_decrypt_rejects (input : string) (k : CryptoKey) (id : string)
    (mach : Machine CryptoKey) :
  String.eqb (extractEncryptedKeyId input) id = false ->
  Cipher_decrypt W input k id mach = (Rejected NotDecryptable, mach).
Proof. intros Hne. unfold Cipher_decrypt. now rewrite Hne. Qed.

(** C2. A ciphertext whose first 12 characters differ from the key id the
    caller supplies is rejected with [NotDecryptable]; the machine, and so
    the trace, is left as it was: no decryption was attempted. *)
Theorem Cipher_decrypt_keyID_mismatch (input : string) (k : CryptoKey) (id : string)
    (mach : Machine CryptoKey) :
  extractEncryptedKeyId input <> id ->
  Cipher_decrypt W input k id mach = (Rejected NotDecryptable, mach).
Proof.
  intros Hne. apply Cipher_decrypt_rejects. now apply String.eqb_neq.
Qed.

(** The spec's wording of the same: a ciphertext made under key id [A]
    (12 characters) is rejected under any other key id [B]. *)
Corollary Cipher_decrypt_other_keyID (input : Value) (k k' : CryptoKey) (A B : string)
    (mach mach' mach2 : Machine CryptoKey) (c : string) :
  String.length A = 12%nat -> A <> B ->
  Cipher_encrypt W input k A mach = (Resolved c, mach') ->
  Cipher_decrypt W c k' B mach2 = (Rejected NotDecryptable, mach2).
Proof.
  intros HA HAB Henc.
  destruct (Cipher_encrypt_resolved _ _ _ _ _ _ Henc) as (result & _ & ->).
  apply Cipher_decrypt_rejects. apply String.eqb_neq.
  unfold extractEncryptedKeyId. rewrite <- HA. now rewrite slice_to_app.
Qed.

End CipherFacts.


(** ** The key triple *)

Section KeyState.

Context {CryptoKey : Type}.

Lemma allNone_has (c : Client CryptoKey) :
  allNone c <-> hasKey c = false /\ hasKeyID c = false /\ hasExportedMaterial c = false.
Proof.
  unfold allNone, hasKey, hasKeyID, hasExportedMaterial.
  rewrite !bool_decide_eq_false, <- !eq_None_not_Some. tauto.
Qed.

Lemma allSome_has (c : Client CryptoKey) :
  allSome c <-> hasKey c = true /\ hasKeyID c = true /\ hasExportedMaterial c = true.
Proof.
  unfold allSome, hasKey, hasKeyID, hasExportedMaterial.
  rewrite !bool_decide_eq_true. tauto.
Qed.

End KeyState.

(** ** Running client code by hand *)

Ltac unfold_M :=
  unfold await, bind, ret, throw, suspend, try_catch, read, write, log, lift,
         spawn_task, spawn_job, with_client.

Ltac unfold_M_in H :=
  unfold await, bind, ret, throw, suspend, try_catch, read, write, log, lift,
         spawn_task, spawn_job, with_client in H.

Section ClientFacts.

Context {CryptoKey : Type} (W : World CryptoKey).

Lemma is_string_true (v : Value) (s : string) : is_string v s = true <-> v = VString s.
Proof.
  destruct v; simpl; try (split; [discriminate | intros H; discriminate H]).
  rewrite String.eqb_eq. split; congruence.
Qed.

Lemma is_string_false (v : Value) (s : string) : is_string v s = false <-> v <> VString s.
Proof.
  rewrite <- is_string_true. destruct (is_string v s); split; congruence.
Qed.

(** Calling [encryptForParticipant] for each of [users]: the public keys
    that parse are handed to [importRSAKey], in the order of [users], and
    for each of them a wrapping is left waiting. *)
Lemma encryptForParticipant_called_run (user : User) (m : Machine CryptoKey) :
  encryptForParticipant_called W user m =
  (Resolved tt,
   {| client := client m; trace := trace m ++ import_calls W [user];
      tasks := tasks m; jobs := jobs m ++ wrappings_started W [user] |}).
Proof.
  unfold encryptForParticipant_called, import_calls, wrappings_started,
    parsed_public_key. simpl.
  destruct (user_e2e user) as [public_key|]; simpl.
  2:{ unfold ret. rewrite !app_nil_r. now destruct m. }
  destruct (JSON_parse W public_key) as [e|jwk]; simpl.
  - unfold ret. rewrite !app_nil_r. now destruct m.
  - reflexivity.
Qed.

Lemma import_calls_cons (user : User) (users : list User) :
  import_calls W (user :: users) = import_calls W [user] ++ import_calls W users.
Proof. unfold import_calls. simpl. now destruct (parsed_public_key W user). Qed.

Lemma wrappings_started_cons (user : User) (users : list User) :
  wrappings_started W (user :: users)
  = wrappings_started W [user] ++ wrappings_started W users.
Proof. unfold wrappings_started. simpl. now destruct (parsed_public_key W user). Qed.

Lemma forEach_encryptForParticipant_called (users : list User) (m : Machine CryptoKey) :
  forEach users (encryptForParticipant_called W) m =
  (Resolved tt,
   {| client := client m; trace := trace m ++ import_calls W users;
      tasks := tasks m; jobs := jobs m ++ wrappings_started W users |}).
Proof.
  revert m. induction users as [|user users IH]; intros m.
  - simpl. unfold ret. rewrite !app_nil_r. now destruct m.
  - simpl forEach. unfold bind. rewrite encryptForParticipant_called_run, IH.
    rewrite (import_calls_cons user users), (wrappings_started_cons user users).
    simpl. now rewrite <- !app_assoc.
Qed.

(** *** Pass-through of the message entry points *)

(** C7. [decryptMessage] returns the message as it is when it is not of
    type "e2e" or is already "done"; with [waitForKey = false] it also does
    so when the key or the key id is missing; and a missing key or key id
    never makes it reject. *)
Theorem decryptMessage_passthrough (message : Message) (mach : Machine CryptoKey) :
  (forall waitForKey,
     field message "t" <> VString "e2e" \/ field message "e2e" = VString "done" ->
     decryptMessage W message waitForKey mach = (Resolved message, mach)) /\
  (key (client mach) = None \/ keyID (client mach) = None ->
   decryptMessage W message false mach = (Resolved message, mach)) /\
  (key (client mach) = None \/ keyID (client mach) = None ->
   forall waitForKey e, fst (decryptMessage W message waitForKey mach) <> Rejected e).
Proof.
  split; [|split].
  - intros waitForKey [Ht|Hdone]; unfold decryptMessage.
    + apply is_string_false in Ht. now rewrite Ht.
    + apply is_string_true in Hdone. rewrite Hdone. now rewrite orb_true_r.
  - intros Hmissing. unfold decryptMessage.
    destruct (negb _ || _); [reflexivity|].
    unfold getKey, getKeyID. unfold_M. simpl.
    destruct Hmissing as [-> | ->]; [reflexivity|].
    now destruct (key (client mach)).
  - intros Hmissing waitForKey e. unfold decryptMessage.
    destruct (negb _ || _); [discriminate|].
    destruct waitForKey; unfold fetchKey, fetchKeyID, getKey, getKeyID; unfold_M; simpl.
    + destruct Hmissing as [-> | Hid]; [discriminate|].
      destruct (key (client mach)); [|discriminate].
      rewrite Hid. discriminate.
    + destruct Hmissing as [-> | ->]; [discriminate|].
      destruct (key (client mach)); discriminate.
Qed.

(** C8. [encryptMessage] returns the message as it is, and leaves the
    machine as it was (nothing fetched, nothing encrypted, nothing logged),
    when the metadata says encryption is not required and also when the
    message is already of type "e2e". *)
Theorem encryptMessage_noop (message : Message) (mach : Machine CryptoKey) :
  (exists md, metadata (client mach) = Some md /\ encryptionRequired md = false) \/
  field message "t" = VString "e2e" ->
  encryptMessage W message mach = (Resolved message, mach).
Proof.
  intros H. unfold encryptMessage, getMetadata. unfold_M. simpl.
  destruct H as [(md & -> & Hreq) | Ht].
  - now rewrite Hreq.
  - destruct (metadata (client mach)) as [md|]; [|reflexivity].
    destruct (encryptionRequired md); simpl; [|reflexivity].
    apply is_string_true in Ht. now rewrite Ht.
Qed.

(** C10. When [decryptMessage] decrypts (the message is "e2e" and not
    "done", key and key id are there, and the call resolves), the result is
    the input with [msg] set to the [text] of what [Cipher.decrypt] returned
    and [e2e] set to "done"; every other field is the input's. *)
Theorem decryptMessage_frame (message r : Message) (waitForKey : bool)
    (mach mach' : Machine CryptoKey) (k : CryptoKey) (kid : string) :
  field message "t" = VString "e2e" ->
  field message "e2e" <> VString "done" ->
  key (client mach) = Some k ->
  keyID (client mach) = Some kid ->
  kid <> "" ->
  decryptMessage W message waitForKey mach = (Resolved r, mach') ->
  exists input data,
    field message "msg" = VString input /\
    Cipher_decrypt W input k kid mach = (Resolved data, mach') /\
    r = <["e2e" := VString "done"]> (<["msg" := prop_of data "text"]> message) /\
    r !! "msg" = Some (prop_of data "text") /\
    r !! "e2e" = Some (VString "done") /\
    forall f, f <> "msg" -> f <> "e2e" -> r !! f = message !! f.
Proof.
  intros Ht Hdone Hk Hkid Hne Hrun. unfold decryptMessage in Hrun.
  apply is_string_true in Ht. apply is_string_false in Hdone.
  rewrite Ht, Hdone in Hrun. simpl in Hrun.
  apply String.eqb_neq in Hne.
  assert (Hbody :
    (input <- lift (as_string (field message "msg")) ;;
     data <- Cipher_decrypt W input k kid ;;
     ret (<["e2e" := VString "done"]> (<["msg" := prop_of data "text"]> message)))%client
      mach = (Resolved r, mach')).
  { destruct waitForKey; unfold fetchKey, fetchKeyID, getKey, getKeyID in Hrun;
      unfold_M_in Hrun; simpl in Hrun; rewrite ?Hk, ?Hkid in Hrun; simpl in Hrun;
      rewrite Hne in Hrun; exact Hrun. }
  clear Hrun. unfold_M_in Hbody.
  destruct (field message "msg") as [| | | |input| | |] eqn:Hmsg;
    simpl in Hbody; try discriminate.
  destruct (Cipher_decrypt W input k kid mach) as [[data| |] mach1] eqn:Hdec;
    try discriminate.
  inversion Hbody; subst; clear Hbody.
  exists input, data. repeat split; trivial.
  - rewrite lookup_insert_ne by done. now rewrite lookup_insert_eq.
  - now rewrite lookup_insert_eq.
  - intros f Hf1 Hf2. now rewrite !lookup_insert_ne by done.
Qed.

End ClientFacts.

(** ** The key lifecycle *)

Section Lifecycle.

Context {CryptoKey : Type} (W : World CryptoKey).

Lemma adopt_allSome (k : CryptoKey) kid material c : allSome (adopt k kid material c).
Proof. unfold allSome; simpl; eauto. Qed.

Lemma discard_allNone (c : Client CryptoKey) : allNone (discard c).
Proof. unfold allNone; simpl; auto. Qed.

Lemma discardKey_run (m : Machine CryptoKey) :
  discardKey m = (Resolved tt, with_client discard m).
Proof. reflexivity. Qed.

(** [importSubscriptionKey], by outcome. *)
Lemma importSubscriptionKey_run (enc : string) (m : Machine CryptoKey) :
  match importSubscriptionKey W enc m with
  | (Resolved _, m') =>
    exists body decrypted jwk k,
      extractEncryptedBody W enc = inr body /\
      decryptRSA W (userPrivateKey (client m)) body = inr decrypted /\
      JSON_parse W (fromBufferToString W decrypted) = inr jwk /\
      importAESKey W jwk = inr k /\
      m' = {| client := adopt k (derivedKeyID W (fromBufferToString W decrypted))
                              (fromBufferToString W decrypted) (client m);
              trace := trace m ++ [EvDecryptRSA (userPrivateKey (client m)) body;
                                   EvImportAESKey jwk];
              tasks := tasks m; jobs := jobs m |}
  | (Rejected _, m') =>
    client m' = client m /\ tasks m' = tasks m /\ jobs m' = jobs m
  | (Pending, _) => False
  end.
Proof.
  unfold importSubscriptionKey. unfold_M. simpl.
  destruct (extractEncryptedBody W enc) as [e|body]; simpl; [auto|].
  destruct (decryptRSA W _ body) as [e|decrypted] eqn:Hrsa; simpl; [auto|].
  destruct (JSON_parse W _) as [e|jwk] eqn:Hparse; simpl; [auto|].
  destruct (importAESKey W jwk) as [e|k] eqn:Himport; simpl; [auto|].
  exists body, decrypted, jwk, k. rewrite <- !app_assoc. auto.
Qed.

Lemma encryptKeyForOtherParticipants_run (m : Machine CryptoKey) :
  encryptKeyForOtherParticipants W m =
  match get_getUsersOfRoomWithoutKey W (rid (client m)) with
  | inl e =>
    (Rejected e,
     {| client := client m;
        trace := trace m ++ [EvGetUsersOfRoomWithoutKey (rid (client m))];
        tasks := tasks m; jobs := jobs m |})
  | inr users =>
    (Resolved tt,
     {| client := client m;
        trace := trace m ++
                 EvGetUsersOfRoomWithoutKey (rid (client m)) :: import_calls W users;
        tasks := tasks m; jobs := jobs m ++ wrappings_started W users |})
  end.
Proof.
  unfold encryptKeyForOtherParticipants, await, bind, read, log, lift. simpl.
  destruct (get_getUsersOfRoomWithoutKey W _) as [e|users]; simpl.
  - reflexivity.
  - rewrite forEach_encryptForParticipant_called. simpl.
    now rewrite <- app_assoc.
Qed.

(** [createGroupKey], by outcome.  A rejection is either one of key
    generation, export and [setRoomKeyID], before the key is adopted, or
    one of the participants query, after it. *)
Lemma createGroupKey_run (m : Machine CryptoKey) :
  match createGroupKey W m with
  | (Resolved _, m') =>
    exists k jwk users,
      generateAESKey W = inr k /\ exportJWKKey W k = inr jwk /\
      post_setRoomKeyID W (rid (client m)) (derivedKeyID W (JSON_stringify W jwk)) = inr tt /\
      get_getUsersOfRoomWithoutKey W (rid (client m)) = inr users /\
      m' = {| client := adopt k (derivedKeyID W (JSON_stringify W jwk))
                              (JSON_stringify W jwk) (client m);
              trace := trace m ++
                [EvGenerateAESKey; EvExportJWKKey k;
                 EvSetRoomKeyID (rid (client m)) (derivedKeyID W (JSON_stringify W jwk));
                 EvGetUsersOfRoomWithoutKey (rid (client m))] ++ import_calls W users;
              tasks := tasks m;
              jobs := jobs m ++ wrappings_started W users |}
  | (Rejected e, m') =>
    tasks m' = tasks m /\ jobs m' = jobs m /\
    (client m' = client m \/
     (get_getUsersOfRoomWithoutKey W (rid (client m)) = inl e /\
      exists k jwk,
        client m' = adopt k (derivedKeyID W (JSON_stringify W jwk))
                          (JSON_stringify W jwk) (client m)))
  | (Pending, _) => False
  end.
Proof.
  unfold createGroupKey. unfold_M. simpl.
  destruct (generateAESKey W) as [e|k] eqn:Hgen; simpl; [auto|].
  destruct (exportJWKKey W k) as [e|jwk] eqn:Hexport; simpl; [auto|].
  destruct (post_setRoomKeyID W _ _) as [e|[]] eqn:Hpost; simpl; [auto|].
  rewrite encryptKeyForOtherParticipants_run. simpl.
  destruct (get_getUsersOfRoomWithoutKey W _) as [e|users] eqn:Hget; simpl.
  { repeat split; trivial. right. split; [trivial|]. now exists k, jwk. }
  exists k, jwk, users. rewrite <- !app_assoc. auto.
Qed.

Lemma importSubscriptionKey_coherent (enc : string) (m : Machine CryptoKey) :
  coherent (client m) -> coherent (client (snd (importSubscriptionKey W enc m))).
Proof.
  intros Hco. pose proof (importSubscriptionKey_run enc m) as H.
  destruct (importSubscriptionKey W enc m) as [[[]|e|] m']; simpl.
  - destruct H as (? & ? & ? & ? & _ & _ & _ & _ & ->).
    right. apply adopt_allSome.
  - destruct H as (-> & _). exact Hco.
  - contradiction.
Qed.

Lemma createGroupKey_coherent (m : Machine CryptoKey) :
  coherent (client m) -> coherent (client (snd (createGroupKey W m))).
Proof.
  intros Hco. pose proof (createGroupKey_run m) as H.
  destruct (createGroupKey W m) as [[[]|e|] m']; simpl.
  - destruct H as (? & ? & ? & _ & _ & _ & _ & ->).
    right. apply adopt_allSome.
  - destruct H as (_ & _ & [-> | (_ & k & jwk & ->)]);
      [exact Hco | right; apply adopt_allSome].
  - contradiction.
Qed.

(** C5. The three fields move together: after [discardKey] all three are
    absent; after an [importSubscriptionKey] or a [createGroupKey] that
    succeeded all three are present; and however either of them ends, a
    triple that was all present or all absent before it is so after it. *)
Theorem key_triple_atomic (mach : Machine CryptoKey) :
  allNone (client (snd (discardKey mach))) /\
  (forall enc m', importSubscriptionKey W enc mach = (Resolved tt, m') ->
                  allSome (client m')) /\
  (forall m', createGroupKey W mach = (Resolved tt, m') -> allSome (client m')) /\
  (coherent (client mach) ->
   (forall enc, coherent (client (snd (importSubscriptionKey W enc mach)))) /\
   coherent (client (snd (createGroupKey W mach)))).
Proof.
  split; [|split; [|split]].
  - rewrite discardKey_run. apply discard_allNone.
  - intros enc m' Hrun. pose proof (importSubscriptionKey_run enc mach) as H.
    rewrite Hrun in H. destruct H as (? & ? & ? & ? & _ & _ & _ & _ & ->).
    apply adopt_allSome.
  - intros m' Hrun. pose proof (createGroupKey_run mach) as H.
    rewrite Hrun in H. destruct H as (? & ? & ? & _ & _ & _ & _ & ->).
    apply adopt_allSome.
  - intros Hco. split.
    + intros enc. now apply importSubscriptionKey_coherent.
    + now apply createGroupKey_coherent.
Qed.

End Lifecycle.

(** ** The handler of [metadataChanged], branch by branch *)

Section Handler.

Context {CryptoKey : Type} (W : World CryptoKey).

Lemma truthy_strict_eq (a b : option string) :
  truthy a = true -> strict_eq a b = true -> truthy b = true.
Proof.
  destruct a as [a|], b as [b|]; simpl; try discriminate.
  intros Ha Hab. apply String.eqb_eq in Hab. now subst.
Qed.

(** With no room key id published, no held key passes the handler's test. *)
Lemma keyValid_roomKeyID (c : Client CryptoKey) (md : RoomMetadata) :
  truthy (roomKeyID md) = false -> keyValid c md = false.
Proof.
  intros Hroom. unfold keyValid.
  destruct (truthy (keyID c)) eqn:Hid; [|reflexivity].
  destruct (strict_eq (keyID c) (roomKeyID md)) eqn:Heq; [|apply andb_false_r].
  rewrite (truthy_strict_eq _ _ Hid Heq) in Hroom. discriminate.
Qed.

(** 1. No metadata: discard, emit [keyChanged]. *)
Lemma handleMetadataChanged_absent (m : Machine CryptoKey) :
  metadata (client m) = None ->
  handleMetadataChanged m =
  (Resolved tt,
   {| client := discard (client m); trace := trace m ++ [EvEmit keyChanged];
      tasks := tasks m; jobs := jobs m |}).
Proof.
  intros Hmd. unfold handleMetadataChanged, getMetadata. unfold_M. simpl.
  now rewrite Hmd.
Qed.

(** 2. The held key is the room's: decrypt the last message and the
    backlog. *)
Lemma handleMetadataChanged_valid (m : Machine CryptoKey) (md : RoomMetadata) :
  metadata (client m) = Some md -> keyValid (client m) md = true ->
  handleMetadataChanged m =
  (Resolved tt,
   {| client := client m; trace := trace m;
      tasks := tasks m ++ [TDecryptLastMessage; TDecryptPendingMessages];
      jobs := jobs m |}).
Proof.
  intros Hmd Hvalid. unfold handleMetadataChanged, getMetadata, getKey, getKeyID.
  unfold_M. simpl. rewrite Hmd. unfold keyValid in Hvalid. rewrite Hvalid. simpl.
  now rewrite <- app_assoc.
Qed.

(** 3a. A wrapped key is there: discard, emit, start the import. *)
Lemma handleMetadataChanged_import (m : Machine CryptoKey) (md : RoomMetadata) :
  metadata (client m) = Some md -> keyValid (client m) md = false ->
  truthy (encryptedKey md) = true ->
  handleMetadataChanged m =
  (Resolved tt,
   {| client := discard (client m); trace := trace m ++ [EvEmit keyChanged];
      tasks := tasks m ++ [TImportSubscriptionKey (to_js_string (encryptedKey md))];
      jobs := jobs m |}).
Proof.
  intros Hmd Hvalid Henc. unfold handleMetadataChanged, getMetadata, getKey, getKeyID.
  unfold_M. simpl. rewrite Hmd. unfold keyValid in Hvalid. rewrite Hvalid. simpl.
  now rewrite Henc.
Qed.

(** 3b. No wrapped key and no room key id: discard, emit, start the
    creation. *)
Lemma handleMetadataChanged_create (m : Machine CryptoKey) (md : RoomMetadata) :
  metadata (client m) = Some md ->
  truthy (encryptedKey md) = false -> truthy (roomKeyID md) = false ->
  handleMetadataChanged m =
  (Resolved tt,
   {| client := discard (client m); trace := trace m ++ [EvEmit keyChanged];
      tasks := tasks m ++ [TCreateGroupKey]; jobs := jobs m |}).
Proof.
  intros Hmd Henc Hroom. pose proof (keyValid_roomKeyID (client m) md Hroom) as Hvalid.
  unfold handleMetadataChanged, getMetadata, getKey, getKeyID.
  unfold_M. simpl. rewrite Hmd. unfold keyValid in Hvalid. rewrite Hvalid. simpl.
  now rewrite Henc, Hroom.
Qed.

(** 3c. No wrapped key but a room key id: discard, emit, ask for the key. *)
Lemma handleMetadataChanged_request (m : Machine CryptoKey) (md : RoomMetadata) :
  metadata (client m) = Some md -> keyValid (client m) md = false ->
  truthy (encryptedKey md) = false -> truthy (roomKeyID md) = true ->
  handleMetadataChanged m =
  (Resolved tt,
   {| client := discard (client m);
      trace := trace m ++ [EvEmit keyChanged;
                           EvKeyRequest (rid (client m)) (to_js_string (roomKeyID md))];
      tasks := tasks m; jobs := jobs m |}).
Proof.
  intros Hmd Hvalid Henc Hroom.
  unfold handleMetadataChanged, requestGroupKey, getMetadata, getKey, getKeyID.
  unfold_M. simpl. rewrite Hmd. unfold keyValid in Hvalid. rewrite Hvalid. simpl.
  rewrite Henc, Hroom. simpl. now rewrite <- app_assoc.
Qed.

End Handler.

(** ** What started promises leave alone *)

Section Footprint.

Context {CryptoKey : Type} (W : World CryptoKey).

Lemma count_emits_app (s : Signal) (a b : list (Event CryptoKey)) :
  count_emits s (a ++ b) = (count_emits s a + count_emits s b)%nat.
Proof. unfold count_emits. now rewrite filter_app, length_app. Qed.

#[local] Instance steady_preorder : PreOrder (@steady CryptoKey).
Proof.
  split.
  - intros m. repeat split; trivial. exists []. now rewrite app_nil_r.
  - intros a b c (H1 & H2 & H3 & H4 & H5 & evs & H6 & H7)
                 (G1 & G2 & G3 & G4 & G5 & evs' & G6 & G7).
    repeat split; try congruence.
    exists (evs ++ evs'). rewrite G6, H6, <- app_assoc, count_emits_app, H7, G7.
    auto.
Qed.

#[local] Instance still_preorder : PreOrder (@still CryptoKey).
Proof.
  split.
  - intros m. split; reflexivity.
  - intros a b c [H1 H2] [G1 G2]. split; [now transitivity b | congruence].
Qed.

Section Combinators.

Context (R : relation (Machine CryptoKey)) `{!PreOrder R}.

Lemma respects_ret {A} (a : A) : respects R (ret a).
Proof. intros m. reflexivity. Qed.

Lemma respects_throw {A} (e : exn) : respects R (@throw CryptoKey A e).
Proof. intros m. reflexivity. Qed.

Lemma respects_suspend {A} : respects R (@suspend CryptoKey A).
Proof. intros m. reflexivity. Qed.

Lemma respects_read {A} (f : Client CryptoKey -> A) : respects R (read f).
Proof. intros m. reflexivity. Qed.

Lemma respects_lift {A} (r : exn + A) : respects R (@lift CryptoKey A r).
Proof. destruct r; [apply respects_throw | apply respects_ret]. Qed.

Lemma respects_call {A} (c : M CryptoKey A) : respects R c -> respects R (call c).
Proof. intros Hc m. apply Hc. Qed.

Lemma respects_await_promise {A} (promise : Outcome A) :
  respects R (await_promise (CryptoKey:=CryptoKey) promise).
Proof. intros m. reflexivity. Qed.

Lemma respects_bind {A B} (c : M CryptoKey A) (k : A -> M CryptoKey B) :
  respects R c -> (forall a, respects R (k a)) -> respects R (bind c k).
Proof.
  intros Hc Hk m. unfold bind. specialize (Hc m).
  destruct (c m) as [[a|e|] m1]; simpl in *; trivial.
  transitivity m1; [exact Hc | apply Hk].
Qed.

Lemma respects_try_catch {A} (c : M CryptoKey A) (h : exn -> M CryptoKey A) :
  respects R c -> (forall e, respects R (h e)) -> respects R (try_catch c h).
Proof.
  intros Hc Hh m. unfold try_catch. specialize (Hc m).
  destruct (c m) as [[a|e|] m1]; simpl in *; trivial.
  transitivity m1; [exact Hc | apply Hh].
Qed.

Lemma respects_forEach {A} (l : list A) (f : A -> M CryptoKey unit) :
  (forall x, respects R (f x)) -> respects R (forEach l f).
Proof.
  intros Hf. induction l as [|x l IH]; simpl.
  - apply respects_ret.
  - apply respects_bind; [apply Hf | intros _; exact IH].
Qed.

Lemma respects_run_all {T} (run : T -> M CryptoKey unit) (l : list T) :
  (forall t, respects R (run t)) -> forall m, R m (run_all run l m).
Proof.
  intros Hrun. induction l as [|t l IH]; intros m; simpl.
  - reflexivity.
  - transitivity (snd (run t m)); [apply Hrun | apply IH].
Qed.

Lemma respects_run_all_in {T} (run : T -> M CryptoKey unit) (l : list T) :
  (forall t, In t l -> respects R (run t)) -> forall m, R m (run_all run l m).
Proof.
  induction l as [|t l IH]; intros Hrun m; simpl.
  - reflexivity.
  - transitivity (snd (run t m)).
    + apply Hrun. now left.
    + apply IH. intros t' Hin. apply Hrun. now right.
Qed.

Lemma respects_run_tasks (m : Machine CryptoKey) :
  (forall t, In t (tasks m) -> respects R (run_task W t)) ->
  R (clear_tasks m) (run_tasks W m).
Proof.
  intros Hrun. unfold run_tasks.
  transitivity (run_all (run_task W) (List.filter synchronous (tasks m)) (clear_tasks m));
    apply respects_run_all_in; intros t Hin; apply Hrun;
    apply List.filter_In in Hin; tauto.
Qed.

End Combinators.

Lemma still_steady {A} (c : M CryptoKey A) : respects still c -> respects steady c.
Proof. intros H m. apply H. Qed.

Lemma still_log (e : Event CryptoKey) :
  is_emit metadataChanged e = false -> respects still (log e).
Proof.
  intros He m. repeat split; trivial. exists [e]. split; [reflexivity|].
  unfold count_emits. now rewrite filter_cons_False by (rewrite He; discriminate).
Qed.

Lemma still_write_key v : respects still (write (with_key (CryptoKey:=CryptoKey) v)).
Proof.
  intros m. split; [|reflexivity].
  repeat split; trivial. exists []. now rewrite app_nil_r.
Qed.

Lemma still_write_keyID v : respects still (write (with_keyID (CryptoKey:=CryptoKey) v)).
Proof.
  intros m. split; [|reflexivity].
  repeat split; trivial. exists []. now rewrite app_nil_r.
Qed.

Lemma still_write_exported v :
  respects still (write (with_sessionKeyExportedString (CryptoKey:=CryptoKey) v)).
Proof.
  intros m. split; [|reflexivity].
  repeat split; trivial. exists []. now rewrite app_nil_r.
Qed.

Lemma steady_spawn_job (j : Job) : respects steady (spawn_job (CryptoKey:=CryptoKey) j).
Proof.
  intros m. repeat split; trivial. exists []. now rewrite app_nil_r.
Qed.

Ltac footprint :=
  repeat first
    [ progress cbv beta zeta
    | apply respects_ret; typeclasses eauto
    | apply respects_throw; typeclasses eauto
    | apply respects_suspend; typeclasses eauto
    | apply respects_read; typeclasses eauto
    | apply respects_lift; typeclasses eauto
    | match goal with
      | |- respects _ (await_promise _) =>
        apply respects_await_promise; typeclasses eauto
      end
    | match goal with
      | |- respects _ (call _) => apply respects_call; try typeclasses eauto
      end
    | apply still_write_key | apply still_write_keyID | apply still_write_exported
    | apply still_log; reflexivity
    | apply steady_spawn_job
    | apply still_steady; apply still_log; reflexivity
    | apply respects_bind; [typeclasses eauto | | intros ?]
    | apply respects_try_catch; [typeclasses eauto | | intros ?]
    | apply respects_forEach; [typeclasses eauto | intros ?]
    | match goal with
      | |- respects _ (match ?x with _ => _ end) => destruct x
      end ].

Lemma still_Cipher_encrypt input k id : respects still (Cipher_encrypt W input k id).
Proof. unfold Cipher_encrypt, await. footprint. Qed.

Lemma still_Cipher_decrypt input k id : respects still (Cipher_decrypt W input k id).
Proof.
  unfold Cipher_decrypt, await. footprint.
Qed.

Lemma still_decryptMessage message waitForKey :
  respects still (decryptMessage W message waitForKey).
Proof.
  unfold decryptMessage, fetchKey, fetchKeyID, getKey, getKeyID.
  footprint. all: try apply still_Cipher_decrypt.
Qed.

Lemma still_encryptMessage message : respects still (encryptMessage W message).
Proof.
  unfold encryptMessage, fetchKey, fetchKeyID, getKey, getKeyID, getMetadata.
  footprint. all: try apply still_Cipher_encrypt.
Qed.

Lemma still_importSubscriptionKey enc : respects still (importSubscriptionKey W enc).
Proof. unfold importSubscriptionKey, await. footprint. Qed.

Lemma still_discardKey : respects still (discardKey (CryptoKey:=CryptoKey)).
Proof. unfold discardKey. footprint. Qed.

Lemma still_encryptForParticipant user : respects still (encryptForParticipant W user).
Proof.
  unfold encryptForParticipant, await. footprint.
Qed.

Lemma still_encryptForParticipant_resumed user jwk :
  respects still (encryptForParticipant_resumed W user jwk).
Proof.
  unfold encryptForParticipant_resumed, await. footprint.
Qed.

Lemma steady_encryptForParticipant_called user :
  respects steady (encryptForParticipant_called W user).
Proof.
  unfold encryptForParticipant_called. footprint.
Qed.

Lemma still_decryptPendingMessage_resumed decrypted :
  respects still (decryptPendingMessage_resumed (CryptoKey:=CryptoKey) decrypted).
Proof.
  unfold decryptPendingMessage_resumed. footprint.
Qed.

Lemma steady_decryptPendingMessage_called message :
  respects steady (decryptPendingMessage_called W message).
Proof.
  unfold decryptPendingMessage_called. footprint.
  apply still_steady, still_decryptMessage.
Qed.

Lemma still_run_job j : respects still (run_job W j).
Proof.
  destruct j;
    [apply still_encryptForParticipant_resumed | apply still_decryptPendingMessage_resumed].
Qed.

Lemma steady_encryptKeyForOtherParticipants :
  respects steady (encryptKeyForOtherParticipants W).
Proof.
  unfold encryptKeyForOtherParticipants, await. footprint.
  all: apply steady_encryptForParticipant_called.
Qed.

Lemma steady_createGroupKey : respects steady (createGroupKey W).
Proof.
  unfold createGroupKey, await. footprint.
  all: try apply steady_encryptForParticipant_called.
  all: try solve [apply still_steady; footprint].
  all: try apply steady_encryptKeyForOtherParticipants.
Qed.

Lemma steady_decryptLastMessage : respects steady (decryptLastMessage W).
Proof.
  apply still_steady. unfold decryptLastMessage, getMetadata. footprint.
  all: try apply still_decryptMessage.
Qed.

Lemma steady_decryptPendingMessages : respects steady (decryptPendingMessages W).
Proof.
  unfold decryptPendingMessages. footprint.
  all: apply steady_decryptPendingMessage_called.
Qed.

Lemma steady_run_task t : respects steady (run_task W t).
Proof.
  destruct t; simpl.
  - apply still_steady.
    apply respects_try_catch; [typeclasses eauto | | intros e; footprint].
    apply respects_bind; [typeclasses eauto | apply still_importSubscriptionKey |].
    intros _. unfold emit_keyChanged. footprint.
  - apply respects_try_catch; [typeclasses eauto | | intros e; footprint].
    apply respects_bind; [typeclasses eauto | apply steady_createGroupKey |].
    intros _. unfold emit_keyChanged. footprint.
  - apply steady_decryptLastMessage.
  - apply steady_decryptPendingMessages.
  - apply steady_encryptKeyForOtherParticipants.
Qed.

(** Settling leaves no promise behind, keeps the observer's fields, and
    emits no [metadataChanged]. *)
Lemma settle_quiescent (m : Machine CryptoKey) :
  tasks (settle W m) = [] /\ jobs (settle W m) = [] /\
  metadata (client (settle W m)) = metadata (client m) /\
  computation (client (settle W m)) = computation (client m) /\
  exists evs, trace (settle W m) = trace m ++ evs /\
              count_emits metadataChanged evs = 0%nat.
Proof.
  unfold settle.
  pose proof (respects_run_tasks steady m (fun t _ => steady_run_task t)) as H1.
  set (m1 := run_tasks W m) in *.
  pose proof (respects_run_all still (run_job W) (jobs m1) still_run_job
                               (clear_jobs m1)) as H2.
  fold (run_jobs W m1) in H2. set (m2 := run_jobs W m1) in *.
  destruct H1 as (_ & _ & Hc1 & Hm1 & Ht1 & evs1 & Htr1 & Hn1).
  destruct H2 as ((_ & _ & Hc2 & Hm2 & Ht2 & evs2 & Htr2 & Hn2) & Hj2).
  simpl in *. repeat split; try congruence.
  exists (evs1 ++ evs2). rewrite Htr2, Htr1, <- app_assoc, count_emits_app, Hn1, Hn2.
  auto.
Qed.

Lemma settle_idle (m : Machine CryptoKey) :
  tasks m = [] -> jobs m = [] -> settle W m = m.
Proof.
  intros Ht Hj. unfold settle, run_jobs, run_tasks. rewrite Ht. simpl.
  rewrite Hj. simpl. destruct m; simpl in *; now subst.
Qed.

End Footprint.

(** ** Transitions of the lifecycle, run to their end *)

Section Transitions.

Context {CryptoKey : Type} (W : World CryptoKey).

Lemma events_since_app (m m' : Machine CryptoKey) (evs : list (Event CryptoKey)) :
  trace m' = trace m ++ evs -> events_since m m' = evs.
Proof. intros H. unfold events_since. now rewrite H, drop_app_length. Qed.

Lemma adopt_discard (k : CryptoKey) kid material c :
  adopt k kid material (discard c) = adopt k kid material c.
Proof. reflexivity. Qed.

(** The handler keeps the snapshot and emits no [metadataChanged]. *)
Lemma handleMetadataChanged_calm (m : Machine CryptoKey) :
  fst (handleMetadataChanged m) = Resolved tt /\
  metadata (client (snd (handleMetadataChanged m))) = metadata (client m) /\
  computation (client (snd (handleMetadataChanged m))) = computation (client m) /\
  exists evs, trace (snd (handleMetadataChanged m)) = trace m ++ evs /\
              count_emits metadataChanged evs = 0%nat.
Proof.
  destruct (metadata (client m)) as [md|] eqn:Hmd.
  - destruct (keyValid (client m) md) eqn:Hvalid.
    { rewrite (handleMetadataChanged_valid m md Hmd Hvalid). simpl.
      repeat split; trivial. exists []. now rewrite app_nil_r. }
    destruct (truthy (encryptedKey md)) eqn:Henc.
    { rewrite (handleMetadataChanged_import m md Hmd Hvalid Henc). simpl.
      repeat split; trivial. now eexists. }
    destruct (truthy (roomKeyID md)) eqn:Hroom.
    + rewrite (handleMetadataChanged_request m md Hmd Hvalid Henc Hroom). simpl.
      repeat split; trivial. now eexists.
    + rewrite (handleMetadataChanged_create m md Hmd Henc Hroom). simpl.
      repeat split; trivial. now eexists.
  - rewrite (handleMetadataChanged_absent m Hmd). simpl.
    repeat split; trivial. now eexists.
Qed.

(** A run of the observer's function on a snapshot that differs: store it,
    emit [metadataChanged], run the handler. *)
Lemma autorun_changed (store : Store) (m : Machine CryptoKey) :
  isShallowEqual W (metadata (client m)) (getRoomMetadata store) = false ->
  autorun W store m =
  handleMetadataChanged
    {| client := with_metadata (getRoomMetadata store) (client m);
       trace := trace m ++ [EvEmit metadataChanged];
       tasks := tasks m; jobs := jobs m |}.
Proof.
  intros Hnew. unfold autorun, emit_metadataChanged, bind, read, write, log. simpl.
  now rewrite Hnew.
Qed.

(** A run of the observer's function on a shallow-equal snapshot: nothing. *)
Lemma autorun_unchanged (store : Store) (m : Machine CryptoKey) :
  isShallowEqual W (metadata (client m)) (getRoomMetadata store) = true ->
  autorun W store m = (Resolved tt, m).
Proof.
  intros Hsame. unfold autorun, bind, read. simpl. now rewrite Hsame.
Qed.

(** A run of the handler always shows: it emits [keyChanged] or it starts
    the two decryptions. *)
Lemma handleMetadataChanged_shows (m : Machine CryptoKey) :
  snd (handleMetadataChanged m) <> m.
Proof.
  assert (Htrace : forall evs, evs <> [] -> trace m ++ evs <> trace m).
  { intros evs Hne H. apply (f_equal (@length _)) in H. rewrite length_app in H.
    destruct evs; [congruence | simpl in H; lia]. }
  destruct (metadata (client m)) as [md|] eqn:Hmd.
  - destruct (keyValid (client m) md) eqn:Hvalid.
    { rewrite (handleMetadataChanged_valid m md Hmd Hvalid). simpl. intros H.
      apply (f_equal tasks) in H. simpl in H.
      apply (f_equal (@length _)) in H. rewrite length_app in H. simpl in H. lia. }
    destruct (truthy (encryptedKey md)) eqn:Henc.
    { rewrite (handleMetadataChanged_import m md Hmd Hvalid Henc). simpl. intros H.
      apply (f_equal trace) in H. simpl in H. now apply Htrace in H. }
    destruct (truthy (roomKeyID md)) eqn:Hroom.
    + rewrite (handleMetadataChanged_request m md Hmd Hvalid Henc Hroom). simpl. intros H.
      apply (f_equal trace) in H. simpl in H. now apply Htrace in H.
    + rewrite (handleMetadataChanged_create m md Hmd Henc Hroom). simpl. intros H.
      apply (f_equal trace) in H. simpl in H. now apply Htrace in H.
  - rewrite (handleMetadataChanged_absent m Hmd). simpl. intros H.
    apply (f_equal trace) in H. simpl in H. now apply Htrace in H.
Qed.


(** The same from the start of a client's life: it is started on a first
    snapshot and the sources then change to a shallow-equal one. *)
Lemma fresh_client_one_emission (rid' : string) (userPrivateKey' : CryptoKey)
    (store1 store2 : Store) :
  isShallowEqual W None (getRoomMetadata store1) = false ->
  isShallowEqual W (getRoomMetadata store1) (getRoomMetadata store2) = true ->
  count_emits metadataChanged
    (trace (run W [CallStart store1; StoreChanged store2] (create rid' userPrivateKey')))
  = 1%nat.
Proof.
  intros Hnew Hsame. unfold run, fold_left, step, react.
  set (m := create rid' userPrivateKey').
  assert (Hstart : exists m0,
    start W store1 m = (Resolved tt, m0) /\ computation (client m0) = true /\
    metadata (client m0) = getRoomMetadata store1 /\
    exists evs, trace m0 = [EvEmit metadataChanged] ++ evs /\
                count_emits metadataChanged evs = 0%nat).
  { unfold start. unfold bind at 1. unfold read at 1. simpl.
    unfold bind. rewrite (autorun_changed store1 m Hnew).
    match goal with |- context [handleMetadataChanged ?x] =>
      destruct (handleMetadataChanged_calm x) as (Ho & Hmd & _ & evs & Htr & Hn);
      destruct (handleMetadataChanged x) as [o mh]
    end.
    simpl in Ho, Hmd, Htr. subst o. unfold write. simpl.
    eexists. split; [reflexivity|]. simpl. repeat split; trivial.
    exists evs. now rewrite Htr. }
  destruct Hstart as (m0 & -> & Hc0 & Hmd0 & evs0 & Htr0 & Hn0). simpl.
  destruct (settle_quiescent W m0) as (Ht & Hj & Hmd & Hc & evs & Htr & Hn).
  set (m1 := settle W m0) in *.
  assert (Hrun2 : invalidate W store2 m1 = (Resolved tt, m1)).
  { unfold invalidate, bind, read. simpl. rewrite Hc, Hc0.
    apply autorun_unchanged. now rewrite Hmd, Hmd0. }
  rewrite Hrun2. simpl. rewrite (settle_idle W m1 Ht Hj), Htr, Htr0.
  rewrite !count_emits_app, Hn, Hn0. reflexivity.
Qed.

Lemma settle_one_task (m : Machine CryptoKey) (t : Task) :
  tasks m = [t] -> settle W m = run_jobs W (snd (run_task W t (clear_tasks m))).
Proof. intros Ht. unfold settle, run_tasks. rewrite Ht. now destruct t. Qed.

(** When the handler, entered with nothing pending, leaves exactly one
    task, it has discarded the key and emitted [keyChanged]. *)
Lemma handleMetadataChanged_one_task (mach : Machine CryptoKey) (t : Task) :
  tasks mach = [] ->
  tasks (snd (handleMetadataChanged mach)) = [t] ->
  snd (handleMetadataChanged mach) =
  {| client := discard (client mach); trace := trace mach ++ [EvEmit keyChanged];
     tasks := [t]; jobs := jobs mach |}.
Proof.
  intros Ht.
  destruct (metadata (client mach)) as [md|] eqn:Hmd.
  - destruct (keyValid (client mach) md) eqn:Hvalid.
    { rewrite (handleMetadataChanged_valid mach md Hmd Hvalid). simpl.
      rewrite Ht. discriminate. }
    destruct (truthy (encryptedKey md)) eqn:Henc.
    { rewrite (handleMetadataChanged_import mach md Hmd Hvalid Henc). simpl.
      rewrite Ht. simpl. now intros ->. }
    destruct (truthy (roomKeyID md)) eqn:Hroom.
    + rewrite (handleMetadataChanged_request mach md Hmd Hvalid Henc Hroom). simpl.
      rewrite Ht. discriminate.
    + rewrite (handleMetadataChanged_create mach md Hmd Henc Hroom). simpl.
      rewrite Ht. simpl. now intros ->.
  - rewrite (handleMetadataChanged_absent mach Hmd). simpl. rewrite Ht. discriminate.
Qed.

(** C3, as the code has it. A wrapped key that unwraps and imports is
    adopted, under the key id derived from its own material, whatever key
    id the room has published: the two ids are not compared and no key
    request goes out. *)
Theorem imported_key_adopted_unchecked (mach : Machine CryptoKey) (md : RoomMetadata)
    (body decrypted : bytes) (jwk : Value) (k : CryptoKey) :
  metadata (client mach) = Some md ->
  keyValid (client mach) md = false ->
  truthy (encryptedKey md) = true ->
  tasks mach = [] -> jobs mach = [] ->
  extractEncryptedBody W (to_js_string (encryptedKey md)) = inr body ->
  decryptRSA W (userPrivateKey (client mach)) body = inr decrypted ->
  JSON_parse W (fromBufferToString W decrypted) = inr jwk ->
  importAESKey W jwk = inr k ->
  settle W (snd (handleMetadataChanged mach)) =
  {| client := adopt k (derivedKeyID W (fromBufferToString W decrypted))
                     (fromBufferToString W decrypted) (client mach);
     trace := trace mach ++
              [EvEmit keyChanged; EvDecryptRSA (userPrivateKey (client mach)) body;
               EvImportAESKey jwk; EvEmit keyChanged];
     tasks := []; jobs := [] |}.
Proof.
  intros Hmd Hvalid Henc Ht Hj Hbody Hrsa Hparse Himport.
  rewrite (handleMetadataChanged_import mach md Hmd Hvalid Henc). simpl.
  rewrite (settle_one_task _ (TImportSubscriptionKey (to_js_string (encryptedKey md))))
    by (simpl; now rewrite Ht).
  unfold run_task, importSubscriptionKey, emit_keyChanged. unfold_M. simpl.
  rewrite Hbody. simpl. rewrite Hrsa. simpl. rewrite Hparse. simpl.
  rewrite Himport. simpl.
  unfold run_jobs. simpl. rewrite Hj. simpl. unfold clear_jobs. simpl.
  now rewrite <- !app_assoc.
Qed.

(** [promise.then(...).catch(error => console.error(error))] on a rejected
    transition. *)
Lemma run_task_import_rejected (enc : string) (m m' : Machine CryptoKey) (e : exn) :
  importSubscriptionKey W enc m = (Rejected e, m') ->
  run_task W (TImportSubscriptionKey enc) m =
  (Resolved tt, {| client := client m'; trace := trace m' ++ [EvConsoleError e];
                   tasks := tasks m'; jobs := jobs m' |}).
Proof. intros H. unfold run_task, try_catch, bind, log. now rewrite H. Qed.

Lemma run_task_create_rejected (m m' : Machine CryptoKey) (e : exn) :
  createGroupKey W m = (Rejected e, m') ->
  run_task W TCreateGroupKey m =
  (Resolved tt, {| client := client m'; trace := trace m' ++ [EvConsoleError e];
                   tasks := tasks m'; jobs := jobs m' |}).
Proof. intros H. unfold run_task, try_catch, bind, log. now rewrite H. Qed.

(** [createGroupKey] once the key is generated and exported: the key id
    is published; if that is refused nothing has been assigned; otherwise
    the key is adopted and the distributor runs. *)
Lemma createGroupKey_published (m : Machine CryptoKey) (k : CryptoKey) (jwk : Value) :
  generateAESKey W = inr k -> exportJWKKey W k = inr jwk ->
  let material := JSON_stringify W jwk in
  let kid := derivedKeyID W material in
  let published :=
    {| client := client m;
       trace := trace m ++ [EvGenerateAESKey; EvExportJWKKey k;
                            EvSetRoomKeyID (rid (client m)) kid];
       tasks := tasks m; jobs := jobs m |} in
  createGroupKey W m =
  match post_setRoomKeyID W (rid (client m)) kid with
  | inl e => (Rejected e, published)
  | inr _ => encryptKeyForOtherParticipants W (with_client (adopt k kid material) published)
  end.
Proof.
  intros Hgen Hexport. cbv zeta. unfold createGroupKey. unfold_M. simpl.
  rewrite Hgen. simpl. rewrite Hexport. simpl.
  fold (derivedKeyID W (JSON_stringify W jwk)). rewrite <- !app_assoc. simpl.
  destruct (post_setRoomKeyID W _ _) as [e|[]]; reflexivity.
Qed.

(** A rejected [createGroupKey]: either the participants query was not
    reached, nothing was assigned and the rejection is that of key
    generation, export or [setRoomKeyID]; or every call before the query
    was answered, the key is adopted, and the rejection is the query's. *)
Lemma createGroupKey_rejected (m m' : Machine CryptoKey) (e : exn) :
  createGroupKey W m = (Rejected e, m') ->
  tasks m' = tasks m /\ jobs m' = jobs m /\
  ((client m' = client m /\
    exists evs, trace m' = trace m ++ evs /\ forallb is_creation_event evs = true) \/
   (exists k jwk,
      generateAESKey W = inr k /\ exportJWKKey W k = inr jwk /\
      post_setRoomKeyID W (rid (client m)) (derivedKeyID W (JSON_stringify W jwk)) = inr tt /\
      get_getUsersOfRoomWithoutKey W (rid (client m)) = inl e /\
      client m' = adopt k (derivedKeyID W (JSON_stringify W jwk))
                        (JSON_stringify W jwk) (client m) /\
      trace m' = trace m ++
        [EvGenerateAESKey; EvExportJWKKey k;
         EvSetRoomKeyID (rid (client m)) (derivedKeyID W (JSON_stringify W jwk));
         EvGetUsersOfRoomWithoutKey (rid (client m))])).
Proof.
  destruct (generateAESKey W) as [e0|k] eqn:Hgen.
  { unfold createGroupKey. unfold_M. simpl. rewrite Hgen. simpl.
    intros H. inversion H; subst; clear H. simpl. repeat split.
    left. split; [reflexivity|]. now exists [EvGenerateAESKey]. }
  destruct (exportJWKKey W k) as [e0|jwk] eqn:Hexport.
  { unfold createGroupKey. unfold_M. simpl. rewrite Hgen. simpl. rewrite Hexport. simpl.
    intros H. inversion H; subst; clear H. simpl. repeat split.
    left. split; [reflexivity|]. exists [EvGenerateAESKey; EvExportJWKKey k].
    now rewrite <- app_assoc. }
  rewrite (createGroupKey_published m k jwk Hgen Hexport).
  destruct (post_setRoomKeyID W _ _) as [e0|[]] eqn:Hpost.
  { intros H. inversion H; subst; clear H. simpl. repeat split.
    left. split; [reflexivity|]. now eexists. }
  rewrite encryptKeyForOtherParticipants_run. simpl.
  destruct (get_getUsersOfRoomWithoutKey W _) as [e0|users] eqn:Hget; [|discriminate].
  intros H. inversion H; subst; clear H. simpl. repeat split.
  right. exists k, jwk. repeat split; trivial. now rewrite <- app_assoc.
Qed.

(** A rejected [importSubscriptionKey] has assigned nothing and has not
    gone beyond unwrapping and importing. *)
Lemma importSubscriptionKey_rejected (enc : string) (m m' : Machine CryptoKey) (e : exn) :
  importSubscriptionKey W enc m = (Rejected e, m') ->
  client m' = client m /\ tasks m' = tasks m /\ jobs m' = jobs m /\
  exists evs, trace m' = trace m ++ evs /\
              forall r, ~ In (EvGetUsersOfRoomWithoutKey r) evs.
Proof.
  unfold importSubscriptionKey. unfold_M. simpl.
  destruct (extractEncryptedBody W enc) as [e0|body]; simpl.
  { intros H. inversion H; subst; clear H. repeat split.
    exists []. rewrite app_nil_r. split; [reflexivity | intros r []]. }
  destruct (decryptRSA W _ body) as [e0|decrypted]; simpl.
  { intros H. inversion H; subst; clear H. repeat split.
    eexists. split; [reflexivity|]. intros r [H|[]]. discriminate. }
  destruct (JSON_parse W _) as [e0|jwk]; simpl.
  { intros H. inversion H; subst; clear H. repeat split.
    eexists. split; [reflexivity|]. intros r [H|[]]. discriminate. }
  destruct (importAESKey W jwk) as [e0|k]; simpl; [|discriminate].
  intros H. inversion H; subst; clear H. simpl. repeat split.
  eexists. split; [now rewrite <- app_assoc|]. intros r [H|[H|[]]]; discriminate.
Qed.

(** C4, as the code has it. A failed import or creation is caught and
    logged and the promise chain resolves.  The participants query is
    reached exactly in a creation whose key generation, export and
    [setRoomKeyID] were answered, so that the failure is the query's; when
    it was not reached, the failure came before any adoption and the
    client is keyless afterwards; when it was reached, the key had been
    adopted and stays. *)
Theorem failed_transition_caught (mach : Machine CryptoKey) (e : exn) :
  tasks mach = [] -> jobs mach = [] ->
  let m1 := snd (handleMetadataChanged mach) in
  transition_fails W m1 e ->
  let final := settle W m1 in
  let query_reached :=
    In (EvGetUsersOfRoomWithoutKey (rid (client mach))) (events_since mach final) in
  (exists t, tasks m1 = [t] /\ fst (run_task W t (clear_tasks m1)) = Resolved tt) /\
  last (trace final) = Some (EvConsoleError e) /\
  tasks final = [] /\ jobs final = [] /\
  (query_reached <->
   tasks m1 = [TCreateGroupKey] /\
   exists k jwk,
     generateAESKey W = inr k /\ exportJWKKey W k = inr jwk /\
     post_setRoomKeyID W (rid (client mach))
                       (derivedKeyID W (JSON_stringify W jwk)) = inr tt /\
     get_getUsersOfRoomWithoutKey W (rid (client mach)) = inl e) /\
  (~ query_reached -> allNone (client final)) /\
  (query_reached -> allSome (client final)).
Proof.
  intros Ht Hj m1 Hfail final query_reached.
  assert (Hone : exists t, tasks m1 = [t]).
  { destruct Hfail as [(enc & H & _) | (H & _)]; eauto. }
  destruct Hone as (t & Hone).
  pose proof (handleMetadataChanged_one_task mach t Ht Hone) as Hm1.
  fold m1 in Hm1.
  assert (Hfinal : final = run_jobs W (snd (run_task W t (clear_tasks m1)))).
  { subst final. exact (settle_one_task m1 t Hone). }
  destruct Hfail as [(enc & Htask & Hrej) | (Htask & Hrej)];
    rewrite Hone in Htask; injection Htask as ->.
  - destruct (importSubscriptionKey W enc (clear_tasks m1)) as [o m'] eqn:Hrun0.
    simpl in Hrej. subst o.
    destruct (importSubscriptionKey_rejected _ _ _ _ Hrun0)
      as (Hc & Htk & Hjb & evs & Htr & Hnone).
    rewrite (run_task_import_rejected _ _ _ _ Hrun0) in Hfinal.
    rewrite Hm1 in Hc, Htk, Hjb, Htr. simpl in Hc, Htk, Hjb, Htr.
    unfold run_jobs, clear_jobs in Hfinal. simpl in Hfinal.
    rewrite Hjb, Hj, ?Htk in Hfinal. simpl in Hfinal. rewrite ?Htk in Hfinal.
    assert (Hquery : ~ query_reached).
    { subst query_reached. rewrite Hfinal.
      rewrite (events_since_app mach _ ((EvEmit keyChanged :: evs) ++ [EvConsoleError e]))
        by (simpl; rewrite Htr, <- !app_assoc; reflexivity).
      rewrite in_app_iff. simpl. intros [[H|H]|[H|[]]]; try discriminate.
      exact (Hnone _ H). }
    split.
    { exists (TImportSubscriptionKey enc). split; [exact Hone|].
      now rewrite (run_task_import_rejected _ _ _ _ Hrun0). }
    rewrite Hfinal. simpl.
    split; [apply last_snoc|]. split; [reflexivity|]. split; [reflexivity|].
    split; [|split].
    + split; [intros H; now destruct (Hquery H)|].
      intros (Hcreate & _). rewrite Hone in Hcreate. discriminate.
    + intros _. rewrite Hc. apply discard_allNone.
    + intros H. now destruct (Hquery H).
  - destruct (createGroupKey W (clear_tasks m1)) as [o m'] eqn:Hrun0.
    simpl in Hrej. subst o.
    destruct (createGroupKey_rejected _ _ _ Hrun0) as (Htk & Hjb & Hcases).
    rewrite (run_task_create_rejected _ _ _ Hrun0) in Hfinal.
    rewrite Hm1 in Htk, Hjb, Hcases. simpl in Htk, Hjb, Hcases.
    unfold run_jobs, clear_jobs in Hfinal. simpl in Hfinal.
    rewrite Hjb, Hj, ?Htk in Hfinal. simpl in Hfinal. rewrite ?Htk in Hfinal.
    split.
    { exists TCreateGroupKey. split; [exact Hone|].
      now rewrite (run_task_create_rejected _ _ _ Hrun0). }
    destruct Hcases as [(Hc & evs & Htr & Hall) | (k & jwk & Hgen & Hexport & Hpost & Hget & Hc & Htr)].
    + assert (Hquery : ~ query_reached).
      { subst query_reached. rewrite Hfinal.
        rewrite (events_since_app mach _ ((EvEmit keyChanged :: evs) ++ [EvConsoleError e]))
          by (simpl; rewrite Htr, <- !app_assoc; reflexivity).
        rewrite in_app_iff. simpl. intros [[H|H]|[H|[]]]; try discriminate.
        rewrite forallb_forall in Hall. specialize (Hall _ H). discriminate. }
      assert (Hworld : ~ exists k jwk,
        generateAESKey W = inr k /\ exportJWKKey W k = inr jwk /\
        post_setRoomKeyID W (rid (client mach))
                          (derivedKeyID W (JSON_stringify W jwk)) = inr tt /\
        get_getUsersOfRoomWithoutKey W (rid (client mach)) = inl e).
      { intros (k & jwk & Hgen & Hexport & Hpost & Hget).
        rewrite (createGroupKey_published _ k jwk Hgen Hexport) in Hrun0.
        rewrite Hm1 in Hrun0. simpl in Hrun0. rewrite Hpost in Hrun0.
        rewrite encryptKeyForOtherParticipants_run in Hrun0. simpl in Hrun0.
        rewrite Hget in Hrun0. inversion Hrun0; subst m'. simpl in Htr.
        rewrite <- !app_assoc in Htr. apply app_inv_head in Htr.
        simpl in Htr. inversion Htr; subst evs. discriminate Hall. }
      rewrite Hfinal. simpl.
      split; [apply last_snoc|]. split; [reflexivity|]. split; [reflexivity|].
      split; [|split].
      * split; [intros H; now destruct (Hquery H)|].
        intros (_ & H). now destruct (Hworld H).
      * intros _. rewrite Hc. apply discard_allNone.
      * intros H. now destruct (Hquery H).
    + assert (Hquery : query_reached).
      { subst query_reached. rewrite Hfinal.
        rewrite (events_since_app mach _
                   ([EvEmit keyChanged; EvGenerateAESKey; EvExportJWKKey k;
                     EvSetRoomKeyID (rid (client mach))
                                    (derivedKeyID W (JSON_stringify W jwk));
                     EvGetUsersOfRoomWithoutKey (rid (client mach));
                     EvConsoleError e]))
          by (simpl; rewrite Htr, <- !app_assoc; reflexivity).
        simpl. auto 6. }
      rewrite Hfinal. simpl.
      split; [apply last_snoc|]. split; [reflexivity|]. split; [reflexivity|].
      split; [|split].
      * split; [|intros _; exact Hquery].
        intros _. split; [exact Hone|]. now exists k, jwk.
      * intros H. now destruct (H Hquery).
      * intros _. rewrite Hc. apply adopt_allSome.
Qed.

Lemma without_wrappings_app (a b : list (Event CryptoKey)) :
  without_wrappings (a ++ b) = without_wrappings a ++ without_wrappings b.
Proof. apply List.filter_app. Qed.

Lemma without_wrappings_none (evs : list (Event CryptoKey)) :
  forallb is_wrapping_event evs = true -> without_wrappings evs = [].
Proof.
  induction evs as [|e evs IH]; simpl; [reflexivity|].
  intros H. apply andb_prop in H. destruct H as [He Hevs].
  rewrite He. simpl. now apply IH.
Qed.

Lemma without_wrappings_import_calls (users : list User) :
  without_wrappings (import_calls W users) = import_calls W users.
Proof.
  unfold import_calls. induction users as [|user users IH]; [reflexivity|].
  simpl omap. destruct (parsed_public_key W user) as [jwk|]; [|exact IH].
  unfold without_wrappings. simpl. f_equal. exact IH.
Qed.

Lemma milestones_import_calls (users : list User) :
  milestones (import_calls W users) = [].
Proof.
  unfold import_calls, milestones. induction users as [|user users IH]; simpl;
    [reflexivity|].
  now destruct (parsed_public_key W user).
Qed.

Lemma milestones_wrappings (evs : list (Event CryptoKey)) :
  forallb is_wrapping_event evs = true -> milestones evs = [].
Proof.
  unfold milestones. induction evs as [|e evs IH]; simpl; [reflexivity|].
  intros H. apply andb_prop in H. destruct H as [He Hevs].
  destruct e; try discriminate He; simpl; exact (IH Hevs).
Qed.

(** What is left of a wrapping assigns nothing, starts nothing, and calls
    [encryptRSA] and [updateGroupKey] only. *)
Lemma encryptForParticipant_resumed_run (user : User) (jwk : Value) (m : Machine CryptoKey) :
  client (snd (encryptForParticipant_resumed W user jwk m)) = client m /\
  tasks (snd (encryptForParticipant_resumed W user jwk m)) = tasks m /\
  jobs (snd (encryptForParticipant_resumed W user jwk m)) = jobs m /\
  exists evs, trace (snd (encryptForParticipant_resumed W user jwk m)) = trace m ++ evs /\
              forallb is_wrapping_event evs = true.
Proof.
  unfold encryptForParticipant_resumed, await. unfold_M. simpl.
  destruct (importRSAKey W jwk) as [e|userKey]; simpl.
  { repeat split. exists []. now rewrite app_nil_r. }
  destruct (negb (truthy (sessionKeyExportedString (client m)))); simpl.
  { repeat split. exists []. now rewrite app_nil_r. }
  destruct (encryptRSA W userKey _) as [e|encryptedUserKey]; simpl.
  { repeat split. now eexists. }
  destruct (post_updateGroupKey W _ _ _) as [e|[]]; simpl;
    repeat split; eexists; (split; [now rewrite <- app_assoc | reflexivity]).
Qed.

Lemma wrappings_run (users : list User) (m : Machine CryptoKey) :
  let m' := run_all (run_job W) (wrappings_started W users) m in
  client m' = client m /\ tasks m' = tasks m /\ jobs m' = jobs m /\
  exists evs, trace m' = trace m ++ evs /\ forallb is_wrapping_event evs = true.
Proof.
  cbv zeta. revert m.
  induction users as [|user users IH]; intros m.
  { simpl. repeat split. exists []. now rewrite app_nil_r. }
  rewrite wrappings_started_cons.
  assert (Hone : wrappings_started W [user] =
                 match parsed_public_key W user with
                 | Some jwk => [JEncryptForParticipant user jwk]
                 | None => []
                 end).
  { unfold wrappings_started. simpl. now destruct (parsed_public_key W user). }
  rewrite Hone. clear Hone.
  destruct (parsed_public_key W user) as [jwk|]; simpl app; [|apply IH].
  change (run_all (run_job W) (JEncryptForParticipant user jwk :: wrappings_started W users) m)
    with (run_all (run_job W) (wrappings_started W users)
            (snd (encryptForParticipant_resumed W user jwk m))).
  destruct (encryptForParticipant_resumed_run user jwk m)
    as (Hc & Ht & Hj & evs & Htr & Hall).
  destruct (IH (snd (encryptForParticipant_resumed W user jwk m)))
    as (Hc' & Ht' & Hj' & evs' & Htr' & Hall').
  repeat split; try congruence.
  exists (evs ++ evs'). rewrite Htr', Htr, <- app_assoc, forallb_app, Hall, Hall'.
  auto.
Qed.


(** The two stretches of [encryptForParticipant] make the whole: its
    call, and what is left of it run right after, do what the function
    does when it is awaited. *)
Lemma encryptForParticipant_stretches (user : User) (m : Machine CryptoKey) :
  jobs m = [] ->
  run_jobs W (snd (encryptForParticipant_called W user m))
  = snd (encryptForParticipant W user m).
Proof.
  intros Hj. rewrite encryptForParticipant_called_run.
  unfold run_jobs, clear_jobs. simpl. rewrite Hj. simpl.
  unfold wrappings_started, import_calls, parsed_public_key, encryptForParticipant.
  simpl. destruct (user_e2e user) as [public_key|]; simpl.
  2:{ rewrite app_nil_r. destruct m; simpl in *; now subst. }
  unfold bind at 1. destruct (JSON_parse W public_key) as [e|jwk]; simpl.
  { rewrite app_nil_r. destruct m; simpl in *; now subst. }
  unfold encryptForParticipant_resumed, await. unfold_M. simpl. rewrite Hj.
  destruct (importRSAKey W jwk) as [e|userKey]; simpl; [reflexivity|].
  destruct (negb (truthy (sessionKeyExportedString (client m)))); reflexivity.
Qed.

(** What a started wrapping does: a participant without a public key is
    skipped; for one with a key, and every call answered, the exported
    material is wrapped under that key and pushed as key id followed by
    the encoded wrapping. *)
Lemma encryptForParticipant_skips (user : User) (m : Machine CryptoKey) :
  user_e2e user = None ->
  encryptForParticipant W user m = (Resolved tt, m).
Proof. intros He. unfold encryptForParticipant. now rewrite He. Qed.

Lemma encryptForParticipant_pushes (user : User) (m : Machine CryptoKey)
    (public_key material kid : string) (jwk : Value) (userKey : CryptoKey)
    (wrapped : bytes) :
  user_e2e user = Some public_key ->
  sessionKeyExportedString (client m) = Some material -> material <> "" ->
  keyID (client m) = Some kid ->
  JSON_parse W public_key = inr jwk ->
  importRSAKey W jwk = inr userKey ->
  encryptRSA W userKey (fromStringToBuffer W material) = inr wrapped ->
  post_updateGroupKey W (rid (client m)) (user_id user)
                      (kid +:+ Base64_encode W wrapped) = inr tt ->
  encryptForParticipant W user m =
  (Resolved tt,
   {| client := client m;
      trace := trace m ++
               [EvImportRSAKey jwk;
                EvEncryptRSA userKey (fromStringToBuffer W material);
                EvUpdateGroupKey (rid (client m)) (user_id user)
                                 (kid +:+ Base64_encode W wrapped)];
      tasks := tasks m; jobs := jobs m |}).
Proof.
  intros He Hmat Hne Hkid Hparse Himport Hrsa Hpost.
  apply String.eqb_neq in Hne.
  unfold encryptForParticipant. rewrite He. unfold_M. simpl.
  rewrite Hparse. simpl. rewrite Himport. simpl. rewrite Hmat. simpl.
  rewrite Hne. simpl. rewrite Hrsa. simpl. rewrite Hkid. simpl.
  rewrite Hpost. simpl. now rewrite <- !app_assoc.
Qed.

End Transitions.

(** ** The key triple over the life of a client *)

Section Invariant.

Context {CryptoKey : Type} (W : World CryptoKey).

#[local] Instance same_keys_preorder : PreOrder (@same_keys CryptoKey).
Proof.
  split.
  - intros m. repeat split.
  - intros a b c (H1 & H2 & H3) (G1 & G2 & G3). repeat split; congruence.
Qed.

#[local] Instance keeps_coherent_preorder : PreOrder (@keeps_coherent CryptoKey).
Proof.
  split.
  - intros m H. exact H.
  - intros a b c H G Ha. exact (G (H Ha)).
Qed.

Lemma same_keys_coherent (m m' : Machine CryptoKey) :
  same_keys m m' -> keeps_coherent m m'.
Proof.
  intros (H1 & H2 & H3). unfold keeps_coherent, coherent, allNone, allSome.
  now rewrite H1, H2, H3.
Qed.

Lemma respects_same_keys {A} (c : M CryptoKey A) :
  respects same_keys c -> respects keeps_coherent c.
Proof. intros H m. apply same_keys_coherent, H. Qed.

Lemma same_keys_log (e : Event CryptoKey) : respects same_keys (log e).
Proof. intros m. repeat split. Qed.

Lemma same_keys_spawn_job (j : Job) : respects same_keys (spawn_job (CryptoKey:=CryptoKey) j).
Proof. intros m. repeat split. Qed.

Lemma same_keys_spawn_task (t : Task) :
  respects same_keys (spawn_task (CryptoKey:=CryptoKey) t).
Proof. intros m. repeat split. Qed.

Lemma same_keys_write_metadata v :
  respects same_keys (write (with_metadata (CryptoKey:=CryptoKey) v)).
Proof. intros m. repeat split. Qed.

Lemma same_keys_write_computation v :
  respects same_keys (write (with_computation (CryptoKey:=CryptoKey) v)).
Proof. intros m. repeat split. Qed.

(** Walk through client code that does not assign the key triple. *)
Ltac keys :=
  repeat first
    [ progress cbv beta zeta
    | apply same_keys_log | apply same_keys_spawn_job | apply same_keys_spawn_task
    | apply same_keys_write_metadata | apply same_keys_write_computation
    | apply respects_ret; typeclasses eauto
    | apply respects_throw; typeclasses eauto
    | apply respects_suspend; typeclasses eauto
    | apply respects_read; typeclasses eauto
    | apply respects_lift; typeclasses eauto
    | match goal with
      | |- respects _ (await_promise _) =>
        apply respects_await_promise; typeclasses eauto
      end
    | match goal with
      | |- respects _ (call _) => apply respects_call; try typeclasses eauto
      end
    | apply respects_bind; [typeclasses eauto | | intros ?]
    | apply respects_try_catch; [typeclasses eauto | | intros ?]
    | apply respects_forEach; [typeclasses eauto | intros ?]
    | match goal with
      | |- respects _ (match ?x with _ => _ end) => destruct x
      end ].

Lemma same_keys_Cipher_encrypt input k id : respects same_keys (Cipher_encrypt W input k id).
Proof. unfold Cipher_encrypt, await. keys. Qed.

Lemma same_keys_Cipher_decrypt input k id : respects same_keys (Cipher_decrypt W input k id).
Proof. unfold Cipher_decrypt, await. keys. Qed.

Lemma same_keys_decryptMessage message waitForKey :
  respects same_keys (decryptMessage W message waitForKey).
Proof.
  unfold decryptMessage, fetchKey, fetchKeyID, getKey, getKeyID.
  keys. all: try apply same_keys_Cipher_decrypt.
Qed.

Lemma same_keys_encryptMessage message : respects same_keys (encryptMessage W message).
Proof.
  unfold encryptMessage, fetchKey, fetchKeyID, getKey, getKeyID, getMetadata.
  keys. all: try apply same_keys_Cipher_encrypt.
Qed.

Lemma same_keys_run_job j : respects same_keys (run_job W j).
Proof.
  destruct j; simpl.
  - unfold encryptForParticipant_resumed, await. keys.
  - unfold decryptPendingMessage_resumed. keys.
Qed.

Lemma same_keys_encryptKeyForOtherParticipants :
  respects same_keys (encryptKeyForOtherParticipants W).
Proof.
  unfold encryptKeyForOtherParticipants, encryptForParticipant_called, await. keys.
Qed.

Lemma same_keys_decryptPendingMessages :
  respects same_keys (decryptPendingMessages W).
Proof.
  unfold decryptPendingMessages, decryptPendingMessage_called. keys.
  all: apply same_keys_decryptMessage.
Qed.

Lemma keeps_coherent_discardKey : respects keeps_coherent (discardKey (CryptoKey:=CryptoKey)).
Proof. intros m _. rewrite discardKey_run. left. apply discard_allNone. Qed.

Lemma keeps_coherent_importSubscriptionKey enc :
  respects keeps_coherent (importSubscriptionKey W enc).
Proof. intros m H. now apply importSubscriptionKey_coherent. Qed.

Lemma keeps_coherent_createGroupKey : respects keeps_coherent (createGroupKey W).
Proof. intros m H. now apply createGroupKey_coherent. Qed.

Lemma keeps_coherent_run_task t : respects keeps_coherent (run_task W t).
Proof.
  destruct t; simpl.
  - apply respects_try_catch; [typeclasses eauto | | intros e].
    + apply respects_bind;
        [typeclasses eauto | apply keeps_coherent_importSubscriptionKey | intros _].
      apply respects_same_keys. unfold emit_keyChanged. keys.
    + apply respects_same_keys. keys.
  - apply respects_try_catch; [typeclasses eauto | | intros e].
    + apply respects_bind;
        [typeclasses eauto | apply keeps_coherent_createGroupKey | intros _].
      apply respects_same_keys. unfold emit_keyChanged. keys.
    + apply respects_same_keys. keys.
  - apply respects_same_keys. unfold decryptLastMessage, getMetadata. keys.
    all: try apply same_keys_decryptMessage.
  - apply respects_same_keys, same_keys_decryptPendingMessages.
  - apply respects_same_keys, same_keys_encryptKeyForOtherParticipants.
Qed.

Lemma keeps_coherent_handleMetadataChanged :
  respects keeps_coherent (handleMetadataChanged (CryptoKey:=CryptoKey)).
Proof.
  unfold handleMetadataChanged, getMetadata, getKey, getKeyID, requestGroupKey,
    emit_keyChanged.
  repeat first
    [ progress cbv beta zeta
    | apply keeps_coherent_discardKey
    | apply respects_same_keys; first
        [ apply same_keys_log | apply same_keys_spawn_task
        | apply respects_read; typeclasses eauto ]
    | apply respects_bind; [typeclasses eauto | | intros ?]
    | match goal with
      | |- respects _ (match ?x with _ => _ end) => destruct x
      end ].
Qed.

Lemma keeps_coherent_autorun store : respects keeps_coherent (autorun W store).
Proof.
  unfold autorun, emit_metadataChanged.
  apply respects_bind;
    [typeclasses eauto | apply respects_read; typeclasses eauto | intros prev].
  destruct (isShallowEqual W prev _); [apply respects_ret; typeclasses eauto|].
  apply respects_bind;
    [typeclasses eauto | apply respects_same_keys, same_keys_write_metadata | intros _].
  apply respects_bind;
    [typeclasses eauto | apply respects_same_keys, same_keys_log | intros _].
  apply keeps_coherent_handleMetadataChanged.
Qed.

Lemma keeps_coherent_react i : respects keeps_coherent (react W i).
Proof.
  destruct i; simpl.
  - unfold start.
    apply respects_bind;
      [typeclasses eauto | apply respects_read; typeclasses eauto | intros running].
    destruct running; [apply respects_ret; typeclasses eauto|].
    apply respects_bind; [typeclasses eauto | apply keeps_coherent_autorun | intros _].
    apply respects_same_keys, same_keys_write_computation.
  - unfold invalidate.
    apply respects_bind;
      [typeclasses eauto | apply respects_read; typeclasses eauto | intros running].
    destruct running; [apply keeps_coherent_autorun | apply respects_ret; typeclasses eauto].
  - apply respects_same_keys, same_keys_write_computation.
  - apply respects_same_keys. unfold provideKeyToUser. keys.
  - apply respects_same_keys. keys. all: try apply same_keys_decryptMessage.
  - apply respects_same_keys. keys. all: try apply same_keys_encryptMessage.
Qed.

Lemma keeps_coherent_settle (m : Machine CryptoKey) : keeps_coherent m (settle W m).
Proof.
  intros Hm. unfold settle.
  assert (H1 : coherent (client (run_tasks W m))).
  { apply (respects_run_tasks W keeps_coherent m
             (fun t _ => keeps_coherent_run_task t)). exact Hm. }
  apply (same_keys_coherent (clear_jobs (run_tasks W m))).
  - apply (respects_run_all same_keys (run_job W) _ same_keys_run_job).
  - exact H1.
Qed.

Lemma keeps_coherent_step (m : Machine CryptoKey) (i : Input) :
  keeps_coherent m (step W m i).
Proof.
  unfold step. transitivity (snd (react W i m)).
  - apply keeps_coherent_react.
  - apply keeps_coherent_settle.
Qed.

(** Whatever reaches a client, in whatever order, its key triple is all
    present or all absent whenever it has settled. *)
Theorem key_triple_invariant (rid' : string) (userPrivateKey' : CryptoKey)
    (inputs : list Input) :
  coherent (client (run W inputs (create rid' userPrivateKey'))).
Proof.
  assert (H : forall m, keeps_coherent m (run W inputs m)).
  { induction inputs as [|i inputs IH]; intros m; simpl.
    - intros Hm. exact Hm.
    - transitivity (step W m i); [apply keeps_coherent_step | apply IH]. }
  apply H. left. repeat split.
Qed.

End Invariant.

(** ** The concrete world at work *)

Module Scenarios.

Import Demo.

Lemma untally_tally (n : nat) (rest : string) : untally (tally n rest) = Some (n, rest).
Proof.
  induction n as [|n IH]; simpl.
  - reflexivity.
  - now rewrite IH.
Qed.

Lemma unframe_frame (s rest : string) : unframe (frame s rest) = Some (s, rest).
Proof.
  unfold unframe, frame. rewrite untally_tally.
  now rewrite slice_to_app, slice_from_app.
Qed.

Lemma parse_stringify (m : EncryptableMessage) :
  parse (stringify (toValue m)) = inr (toValue m).
Proof.
  destruct m as [a b c z]. unfold parse, stringify, toValue. simpl.
  rewrite !unframe_frame, NilEmpty.isi, DecimalZ.of_to. reflexivity.
Qed.

(** The stand-ins keep the laws the round trip needs. *)
Lemma laws (users : exn + list User) : CipherLaws (world users).
Proof.
  split; simpl.
  - reflexivity.
  - intros bs. now rewrite list_byte_of_string_of_list_byte.
  - intros vector k data c _ [= <-]. now rewrite rev_involutive.
  - intros x. apply string_of_list_byte_of_string.
  - apply parse_stringify.
Qed.

(** *** The theorems at concrete inputs *)

Lemma hello_roundtrip :
  exists c,
    Cipher_encrypt online (toValue hello) 9%nat "room-key-id1" keyed
      = (Resolved c, snd (Cipher_encrypt online (toValue hello) 9%nat "room-key-id1" keyed)) /\
    fst (Cipher_decrypt online c 9%nat "room-key-id1" keyed) = Resolved (toValue hello).
Proof.
  eexists. split.
  - vm_compute. reflexivity.
  - apply (Cipher_decrypt_encrypt online (laws _) hello 9%nat "room-key-id1" keyed
             (snd (Cipher_encrypt online (toValue hello) 9%nat "room-key-id1" keyed))).
    + reflexivity.
    + vm_compute. reflexivity.
Defined.

Lemma other_keyID_rejected :
  Cipher_decrypt online ciphertext 9%nat "room-key-id2" keyed
  = (Rejected NotDecryptable, keyed).
Proof.
  apply (Cipher_decrypt_keyID_mismatch online ciphertext 9%nat "room-key-id2" keyed).
  vm_compute. discriminate.
Defined.

Lemma passthrough_runs :
  decryptMessage online plain_message true keyed = (Resolved plain_message, keyed) /\
  decryptMessage online pending_message false (observing None)
    = (Resolved pending_message, observing None) /\
  forall e, fst (decryptMessage online pending_message true (observing None)) <> Rejected e.
Proof.
  destruct (decryptMessage_passthrough online plain_message keyed) as (H1 & _ & _).
  destruct (decryptMessage_passthrough online pending_message (observing None))
    as (_ & H2 & H3).
  split; [|split].
  - apply (H1 true). left. vm_compute. discriminate.
  - apply H2. left. reflexivity.
  - apply H3. left. reflexivity.
Defined.

Lemma noop_runs :
  encryptMessage online plain_message (observing (Some plain_room))
    = (Resolved plain_message, observing (Some plain_room)) /\
  encryptMessage online pending_message keyed = (Resolved pending_message, keyed).
Proof.
  split.
  - apply (encryptMessage_noop online plain_message (observing (Some plain_room))).
    left. exists plain_room. split; reflexivity.
  - apply (encryptMessage_noop online pending_message keyed).
    right. reflexivity.
Defined.

Lemma pending_message_decrypted :
  let r := <["e2e" := VString "done"]> (<["msg" := VString "hello"]> pending_message) in
  fst (decryptMessage online pending_message false keyed) = Resolved r /\
  forall f, f <> "msg" -> f <> "e2e" -> r !! f = pending_message !! f.
Proof.
  intros r.
  assert (Hrun : decryptMessage online pending_message false keyed
                 = (Resolved r, snd (decryptMessage online pending_message false keyed))).
  { vm_compute. reflexivity. }
  destruct (decryptMessage_frame online pending_message r false keyed _ 9%nat
              "room-key-id1" eq_refl ltac:(discriminate) eq_refl eq_refl
              ltac:(discriminate) Hrun)
    as (input & data & _ & _ & _ & _ & _ & Hframe).
  split; [now rewrite Hrun | exact Hframe].
Defined.

Lemma triple_moves_together :
  allNone (client (snd (discardKey keyed))) /\
  allSome (client (snd (importSubscriptionKey online
                          "wrapped-key1lairetam-yek-rehto-na" (observing None)))) /\
  allSome (client (snd (createGroupKey online (observing None)))) /\
  coherent (client (snd (createGroupKey offline (observing None)))).
Proof.
  destruct (key_triple_atomic online keyed) as (H1 & _).
  destruct (key_triple_atomic online (observing None)) as (_ & H2 & H3 & _).
  destruct (key_triple_atomic offline (observing None)) as (_ & _ & _ & H4).
  split; [exact H1|]. split; [|split].
  - apply (H2 "wrapped-key1lairetam-yek-rehto-na"). vm_compute. reflexivity.
  - apply H3. vm_compute. reflexivity.
  - apply H4. left. repeat split.
Defined.


Lemma mismatched_room_imports :
  settle online (snd (handleMetadataChanged (observing (Some mismatched_room)))) =
  {| client := adopt 9%nat "an-other-key" "an-other-key-material"
                     (client (observing (Some mismatched_room)));
     trace := [EvEmit keyChanged;
               EvDecryptRSA 1%nat (list_byte_of_string "lairetam-yek-rehto-na");
               EvImportAESKey (jwk_of "an-other-key-material");
               EvEmit keyChanged];
     tasks := []; jobs := [] |}.
Proof.
  exact (imported_key_adopted_unchecked online (observing (Some mismatched_room))
           mismatched_room (list_byte_of_string "lairetam-yek-rehto-na")
           (list_byte_of_string "an-other-key-material")
           (jwk_of "an-other-key-material") 9%nat
           eq_refl eq_refl eq_refl eq_refl eq_refl eq_refl eq_refl eq_refl eq_refl).
Defined.

Lemma broken_room_stays_keyless :
  let final := settle online (snd (handleMetadataChanged (observing (Some broken_room)))) in
  let refused :=
    settle unreachable (snd (handleMetadataChanged (observing (Some fresh_room)))) in
  let unanswered :=
    settle offline (snd (handleMetadataChanged (observing (Some fresh_room)))) in
  last (trace final) = Some (EvConsoleError (Error "Unexpected end of JSON input")) /\
  allNone (client final) /\
  last (trace refused) = Some (EvConsoleError (Error "Failed to fetch")) /\
  allNone (client refused) /\
  last (trace unanswered) = Some (EvConsoleError (Error "Failed to fetch")) /\
  allSome (client unanswered).
Proof.
  intros final refused unanswered.
  destruct (failed_transition_caught online (observing (Some broken_room))
              (Error "Unexpected end of JSON input") eq_refl eq_refl
              (or_introl (ex_intro _ "wrapped-key1" (conj eq_refl eq_refl))))
    as (_ & Hlast1 & _ & _ & Hiff1 & Hkeyless1 & _).
  destruct (failed_transition_caught unreachable (observing (Some fresh_room))
              (Error "Failed to fetch") eq_refl eq_refl
              (or_intror (conj eq_refl eq_refl)))
    as (_ & Hlast2 & _ & _ & Hiff2 & Hkeyless2 & _).
  destruct (failed_transition_caught offline (observing (Some fresh_room))
              (Error "Failed to fetch") eq_refl eq_refl
              (or_intror (conj eq_refl eq_refl)))
    as (_ & Hlast3 & _ & _ & Hiff3 & _ & Hadopted3).
  split; [exact Hlast1|]. split.
  { apply Hkeyless1. intros Hq. apply Hiff1 in Hq. destruct Hq as (Hq & _).
    discriminate Hq. }
  split; [exact Hlast2|]. split.
  { apply Hkeyless2. intros Hq. apply Hiff2 in Hq.
    destruct Hq as (_ & k & jwk & _ & _ & Hpost & _). discriminate Hpost. }
  split; [exact Hlast3|].
  apply Hadopted3. apply Hiff3. split; [reflexivity|].
  exists 7%nat, (jwk_of "fresh-room-key-material"). repeat split.
Defined.


(** *** Whole runs *)

(** A fresh client is started and the sources then change without changing
    the snapshot: the handler runs once, finds a room key id and no wrapped
    key, and asks for the key. *)
Example started_client_asks_once :
  trace (run online [CallStart store_a; StoreChanged store_b] (create "GENERAL" 1%nat))
  = [EvEmit metadataChanged; EvEmit keyChanged; EvKeyRequest "GENERAL" "room-key-id1"].
Proof. vm_compute. reflexivity. Qed.

(** What [encryptMessage] returns, [decryptMessage] turns back: the text is
    the original one and the status is "done". *)
Example encrypt_then_decrypt_message :
  exists encrypted decrypted,
    fst (encryptMessage online plain_message keyed) = Resolved encrypted /\
    field encrypted "t" = VString "e2e" /\
    field encrypted "e2e" = VString "pending" /\
    fst (decryptMessage online encrypted false keyed) = Resolved decrypted /\
    field decrypted "msg" = VString "hello" /\
    field decrypted "e2e" = VString "done" /\
    field decrypted "_id" = VString "m0".
Proof. do 2 eexists. vm_compute. repeat split; reflexivity. Qed.

(** In a fresh room the key that was created is wrapped for the one
    participant who has a public key: that key is handed to [importRSAKey]
    before [keyChanged] is emitted, the wrapping is made and pushed after
    it. *)
Example fresh_room_distributes :
  trace (settle online (snd (handleMetadataChanged (observing (Some fresh_room)))))
  = [EvEmit keyChanged; EvGenerateAESKey; EvExportJWKKey 7%nat;
     EvSetRoomKeyID "GENERAL" "fresh-room-k";
     EvGetUsersOfRoomWithoutKey "GENERAL";
     EvImportRSAKey (jwk_of "alice-public-key");
     EvEmit keyChanged;
     EvEncryptRSA 5%nat (list_byte_of_string "fresh-room-key-material");
     EvUpdateGroupKey "GENERAL" "alice" "fresh-room-klairetam-yek-moor-hserf"].
Proof. vm_compute. reflexivity. Qed.

(** A change that confirms the held key: the pending messages are looked
    up and each is handed to [decryptAES] while the handler runs; the last
    message and the writing back come after that. *)
Example confirmed_key_decrypts_backlog :
  map (fun e => match e with
                | EvMessagesFind _ => "find"
                | EvDecryptAES _ _ _ => "decryptAES"
                | EvRoomsUpdate _ _ _ => "Rooms.update"
                | EvSubscriptionsUpdate _ _ _ => "Subscriptions.update"
                | EvMessagesUpdate _ _ => "Messages.update"
                | _ => "other"
                end)
      (firstn 4 (trace (settle archive (snd (handleMetadataChanged reading)))))
  = ["find"; "decryptAES"; "decryptAES"; "decryptAES"].
Proof. vm_compute. reflexivity. Qed.

(** *** Where the spec and the code part *)

(** Scenario D does not hold: the wrapped key of [mismatched_room] derives
    "an-other-key", the room has published "room-key-id1", and the key is
    adopted all the same. *)
Lemma mismatched_key_is_adopted :
  ~ rejects_mismatched_key online (observing (Some mismatched_room)).
Proof.
  intros H.
  specialize (H mismatched_room "an-other-key-material" eq_refl eq_refl eq_refl
                ltac:(vm_compute; discriminate)).
  destruct H as [Hkey _]. vm_compute in Hkey. discriminate.
Qed.


(** A creation that fails in the participants query leaves the new key in
    place. *)
Lemma failed_distribution_keeps_key :
  ~ failure_leaves_keyless offline (observing (Some fresh_room)).
Proof.
  intros H.
  specialize (H (Error "Failed to fetch") (or_intror (conj eq_refl eq_refl))).
  destruct H as [Hkey _]. vm_compute in Hkey. discriminate.
Qed.


End Scenarios.

(** * Further properties of the code *)

(** ** Eligibility of a room *)

Section Eligibility.

Context {CryptoKey : Type}.

(** [getRoomMetadata] gives a snapshot only for a logged-in user with a
    subscription and a room whose type allows the E2E setting; the
    snapshot's fields are read off the room and the subscription; and a
    room that is not encrypted has a snapshot only when it has both a room
    key id and a wrapped key for this user. *)
Theorem getRoomMetadata_present (store : Store) (md : RoomMetadata) :
  getRoomMetadata store = Some md ->
  exists subscription room,
    Meteor_userId store = Some (uid md) /\ uid md <> "" /\
    Subscriptions_findOne store = Some subscription /\
    Rooms_findOne store = Some room /\
    allowRoomSettingChange_E2E store (room_t room) = true /\
    (encryptionRequired md = true <-> room_encrypted room = Some true) /\
    roomKeyID md = room_e2eKeyId room /\
    encryptedKey md = sub_E2EKey subscription /\
    lastMessage md = room_lastMessage room /\
    (encryptionRequired md = false ->
     truthy (roomKeyID md) = true /\ truthy (encryptedKey md) = true).
Proof.
  unfold getRoomMetadata. intros H.
  destruct (Meteor_userId store) as [u|]; [|discriminate].
  destruct (negb (truthy (Some u))) eqn:Hu; [discriminate|].
  destruct (Subscriptions_findOne store) as [subscription|]; [|discriminate].
  destruct (Rooms_findOne store) as [room|]; [|discriminate].
  destruct (negb (allowRoomSettingChange_E2E store (room_t room))) eqn:Hallow;
    [discriminate|].
  apply negb_false_iff in Hallow.
  destruct (negb (default false (room_encrypted room))
            && negb (truthy (sub_E2EKey subscription))) eqn:H1; [discriminate|].
  destruct (negb (default false (room_encrypted room))
            && negb (truthy (room_e2eKeyId room))) eqn:H2; [discriminate|].
  inversion H as [Hmd]. clear H. exists subscription, room. simpl.
  repeat split; trivial.
  - intros ->. discriminate Hu.
  - now destruct (room_encrypted room) as [[]|].
  - now destruct (room_encrypted room) as [[]|].
  - destruct (room_encrypted room) as [[]|]; try discriminate;
      simpl in H2; now apply negb_false_iff in H2.
  - destruct (room_encrypted room) as [[]|]; try discriminate;
      simpl in H1; now apply negb_false_iff in H1.
Qed.

Lemma getRoomMetadata_unencrypted (store : Store) (md : RoomMetadata) :
  getRoomMetadata store = Some md ->
  encryptionRequired md = false ->
  truthy (encryptedKey md) = true.
Proof.
  unfold getRoomMetadata. intros H.
  destruct (Meteor_userId store) as [u|]; [|discriminate].
  destruct (negb (truthy (Some u))); [discriminate|].
  destruct (Subscriptions_findOne store) as [subscription|]; [|discriminate].
  destruct (Rooms_findOne store) as [room|]; [|discriminate].
  destruct (negb (allowRoomSettingChange_E2E store (room_t room))); [discriminate|].
  destruct (negb (default false (room_encrypted room))
            && negb (truthy (sub_E2EKey subscription))) eqn:H1; [discriminate|].
  destruct (negb (default false (room_encrypted room))
            && negb (truthy (room_e2eKeyId room))); [discriminate|].
  inversion H as [Hmd]. clear H. simpl.
  destruct (room_encrypted room) as [[]|]; intros Hreq; simpl in Hreq;
    try discriminate Hreq; simpl in H1; now apply negb_false_iff in H1.
Qed.

(** The handler starts the creation of a room key only for a room that
    requires encryption: on a snapshot that [getRoomMetadata] made, a
    [createGroupKey] is started only if the room is encrypted and has
    neither a room key id nor a wrapped key. *)
Theorem creation_only_when_required (store : Store) (m : Machine CryptoKey) :
  metadata (client m) = getRoomMetadata store ->
  tasks m = [] ->
  In TCreateGroupKey (tasks (snd (handleMetadataChanged m))) ->
  exists md,
    getRoomMetadata store = Some md /\ encryptionRequired md = true /\
    truthy (roomKeyID md) = false /\ truthy (encryptedKey md) = false.
Proof.
  intros Hsnap Ht Hin.
  destruct (metadata (client m)) as [md|] eqn:Hmd.
  - destruct (keyValid (client m) md) eqn:Hvalid.
    { rewrite (handleMetadataChanged_valid m md Hmd Hvalid) in Hin. simpl in Hin.
      rewrite Ht in Hin. simpl in Hin. intuition discriminate. }
    destruct (truthy (encryptedKey md)) eqn:Henc.
    { rewrite (handleMetadataChanged_import m md Hmd Hvalid Henc) in Hin. simpl in Hin.
      rewrite Ht in Hin. simpl in Hin. intuition discriminate. }
    destruct (truthy (roomKeyID md)) eqn:Hroom.
    { rewrite (handleMetadataChanged_request m md Hmd Hvalid Henc Hroom) in Hin.
      simpl in Hin. rewrite Ht in Hin. contradiction. }
    exists md. repeat split; auto.
    destruct (encryptionRequired md) eqn:Hreq; [reflexivity|].
    rewrite (getRoomMetadata_unencrypted store md (eq_sym Hsnap) Hreq) in Henc.
    discriminate.
  - rewrite (handleMetadataChanged_absent m Hmd) in Hin. simpl in Hin.
    rewrite Ht in Hin. contradiction.
Qed.

End Eligibility.

(** ** Edges of the cipher *)

Lemma slice_to_length (n : nat) (s : string) : (String.length (slice_to n s) <= n)%nat.
Proof.
  revert s. induction n as [|n IH]; intros [|c s]; simpl; try lia.
  specialize (IH s). lia.
Qed.

Lemma slice_to_app_short (n : nat) (a b : string) :
  (String.length a < n)%nat -> slice_to n (a +:+ b) = a -> b = "".
Proof.
  revert n. induction a as [|c a IH]; intros n Hlen H; simpl in *.
  - destruct n as [|n]; [lia|]. destruct b; [reflexivity | discriminate].
  - destruct n as [|n]; [lia|]. injection H as H. apply (IH n); [lia | exact H].
Qed.

Section CipherEdges.

Context {CryptoKey : Type} (W : World CryptoKey).

(** What [Cipher.decrypt] resolves with is an object that has a [text]
    key, the ciphertext carried the caller's key id, the client's fields
    are untouched, and exactly one decryption was asked for, on the nonce
    and the body that the ciphertext holds. *)
Theorem Cipher_decrypt_resolved (input : string) (k : CryptoKey) (id : string)
    (mach mach' : Machine CryptoKey) (v : Value) :
  Cipher_decrypt W input k id mach = (Resolved v, mach') ->
  extractEncryptedKeyId input = id /\
  (exists fields, v = VObject fields /\ has_field "text" fields = true) /\
  client mach' = client mach /\
  exists encrypted,
    extractEncryptedBody W input = inr encrypted /\
    trace mach' = trace mach ++ [EvDecryptAES (firstn 16 encrypted) k (skipn 16 encrypted)].
Proof.
  unfold Cipher_decrypt.
  destruct (String.eqb (extractEncryptedKeyId input) id) eqn:Hid; simpl;
    [|unfold throw; discriminate].
  apply String.eqb_eq in Hid.
  unfold await. unfold_M. unfold splitVectorAndEncryptedData.
  destruct (extractEncryptedBody W input) as [e|encrypted]; [discriminate|].
  simpl.
  destruct (decryptAES W (firstn 16 encrypted) k (skipn 16 encrypted)) as [e|result];
    [discriminate|].
  simpl.
  destruct (EJSON_parse W (TextDecoder_decode W result)) as [e|parsed]; [discriminate|].
  simpl.
  destruct (Cipher_isEncryptableMessage parsed) eqn:Hshape; simpl; [|discriminate].
  intros H. inversion H; subst; clear H. simpl.
  split; [reflexivity|]. split.
  - destruct v; try discriminate. now exists fields.
  - split; [reflexivity|]. now exists encrypted.
Qed.

(** A key id that is not 12 characters long never comes back: what
    [Cipher.encrypt] makes under it is rejected by [Cipher.decrypt] under
    the same key id, as not decryptable, before any decryption. *)
Theorem Cipher_keyID_must_be_12 (input : Value) (k k' : CryptoKey) (id : string)
    (mach mach' mach2 : Machine CryptoKey) (c : string) :
  String.length id <> 12%nat ->
  length (getRandomValues W 16) = 16%nat ->
  (forall bs, Base64_encode W bs = "" -> bs = []) ->
  Cipher_encrypt W input k id mach = (Resolved c, mach') ->
  Cipher_decrypt W c k' id mach2 = (Rejected NotDecryptable, mach2).
Proof.
  intros Hlen Hnonce Hb64 Henc.
  destruct (Cipher_encrypt_resolved _ _ _ _ _ _ _ Henc) as (result & _ & ->).
  apply Cipher_decrypt_rejects. apply String.eqb_neq.
  unfold extractEncryptedKeyId. intros Heq.
  destruct (Nat.lt_ge_cases (String.length id) 12) as [Hshort|Hlong].
  - apply slice_to_app_short in Heq; [|exact Hshort].
    apply Hb64 in Heq. unfold joinVectorAndEncryptedData in Heq.
    apply (f_equal (@length _)) in Heq. rewrite length_app, Hnonce in Heq.
    simpl in Heq. lia.
  - pose proof (slice_to_length 12 (id +:+ Base64_encode W
      (joinVectorAndEncryptedData (getRandomValues W 16) result))) as Hle.
    rewrite Heq in Hle. lia.
Qed.

End CipherEdges.

(** ** Encrypting and decrypting messages *)

Section Messages.

Context {CryptoKey : Type} (W : World CryptoKey).

(** [encryptMessage] past its early returns, with key and key id held. *)
Lemma encryptMessage_run (message : Message) (mach : Machine CryptoKey)
    (md : RoomMetadata) (k : CryptoKey) (kid : string) :
  metadata (client mach) = Some md -> encryptionRequired md = true ->
  is_string (field message "t") "e2e" = false ->
  key (client mach) = Some k -> keyID (client mach) = Some kid ->
  encryptMessage W message mach =
  match Cipher_encrypt W (plaintext_record W md message) k kid mach with
  | (Resolved c, m') => (Resolved (encrypted_message message c), m')
  | (Rejected e, m') => (Rejected e, m')
  | (Pending, m') => (Pending, m')
  end.
Proof.
  intros Hmd Hreq Ht Hk Hkid.
  unfold encryptMessage, getMetadata, fetchKey, fetchKeyID, getKey, getKeyID.
  unfold bind at 1. unfold read at 1. simpl. rewrite Hmd, Hreq, Ht. simpl.
  unfold bind at 1 2. unfold read at 1. simpl. rewrite Hk. unfold ret at 1.
  unfold bind at 1 2. unfold read at 1. simpl. rewrite Hkid. unfold ret at 1.
  unfold bind, plaintext_record, encrypted_message.
  now destruct (Cipher_encrypt W _ k kid mach) as [[c|e|] m'].
Qed.

(** [decryptMessage] past its early returns, with key and key id held. *)
Lemma decryptMessage_run (message : Message) (waitForKey : bool)
    (mach : Machine CryptoKey) (k : CryptoKey) (kid input : string) :
  is_string (field message "t") "e2e" = true ->
  is_string (field message "e2e") "done" = false ->
  key (client mach) = Some k -> keyID (client mach) = Some kid -> kid <> "" ->
  field message "msg" = VString input ->
  decryptMessage W message waitForKey mach =
  match Cipher_decrypt W input k kid mach with
  | (Resolved data, m') => (Resolved (decrypted_message message data), m')
  | (Rejected e, m') => (Rejected e, m')
  | (Pending, m') => (Pending, m')
  end.
Proof.
  intros Ht Hdone Hk Hkid Hne Hmsg. apply String.eqb_neq in Hne.
  unfold decryptMessage. rewrite Ht, Hdone. simpl.
  destruct waitForKey; unfold fetchKey, fetchKeyID, getKey, getKeyID;
    unfold_M; simpl; rewrite Hk; simpl; rewrite Hkid; simpl; rewrite Hne; simpl;
    rewrite Hmsg; simpl; unfold decrypted_message;
    now destruct (Cipher_decrypt W input k kid mach) as [[data|e|] m'].
Qed.

(** The cipher's round trip with the machine it leaves: one decryption is
    logged and nothing else changes. *)
Lemma Cipher_roundtrip_run (L : CipherLaws W) (m : EncryptableMessage) (k : CryptoKey)
    (id c : string) (mach mach' mach2 : Machine CryptoKey) :
  String.length id = 12%nat ->
  Cipher_encrypt W (toValue m) k id mach = (Resolved c, mach') ->
  exists vector cipherText,
    Cipher_decrypt W c k id mach2 =
    (Resolved (toValue m),
     {| client := client mach2;
        trace := trace mach2 ++ [EvDecryptAES vector k cipherText];
        tasks := tasks mach2; jobs := jobs mach2 |}).
Proof.
  intros Hid Henc.
  destruct (Cipher_encrypt_resolved _ _ _ _ _ _ _ Henc) as (result & Haes & ->).
  set (body := Base64_encode W _).
  assert (Hhead : slice_to 12 (id +:+ body) = id)
    by (rewrite <- Hid; apply slice_to_app).
  assert (Htail : slice_from 12 (id +:+ body) = body)
    by (rewrite <- Hid; apply slice_from_app).
  exists (getRandomValues W 16), result.
  unfold Cipher_decrypt, extractEncryptedKeyId, extractEncryptedBody.
  rewrite Hhead, Htail, String.eqb_refl. subst body.
  unfold await, bind, log, lift, ret, throw.
  rewrite (base64_decode_encode W L), (split_join _ _ (nonce_length W L)).
  cbv beta iota.
  rewrite (aes_decrypt_encrypt W L _ _ _ _ (nonce_length W L) Haes).
  rewrite (utf8_decode_encode W L), (ejson_parse_stringify W L).
  reflexivity.
Qed.

(** When [encryptMessage] encrypts with key and key id in hand, the
    result is the input retagged: [t] is "e2e", [e2e] is "pending", [msg]
    is what [Cipher.encrypt] made, under that key and key id, of the
    message's id and text, the user's id and the corrected time; every
    other field is the input's. *)
Theorem encryptMessage_frame (message r : Message) (mach mach' : Machine CryptoKey)
    (md : RoomMetadata) (k : CryptoKey) (kid : string) :
  metadata (client mach) = Some md -> encryptionRequired md = true ->
  field message "t" <> VString "e2e" ->
  key (client mach) = Some k -> keyID (client mach) = Some kid ->
  encryptMessage W message mach = (Resolved r, mach') ->
  exists c,
    Cipher_encrypt W (plaintext_record W md message) k kid mach = (Resolved c, mach') /\
    r !! "t" = Some (VString "e2e") /\
    r !! "e2e" = Some (VString "pending") /\
    r !! "msg" = Some (VString c) /\
    forall f, f <> "t" -> f <> "e2e" -> f <> "msg" -> r !! f = message !! f.
Proof.
  intros Hmd Hreq Ht Hk Hkid Hrun. apply is_string_false in Ht.
  rewrite (encryptMessage_run message mach md k kid Hmd Hreq Ht Hk Hkid) in Hrun.
  destruct (Cipher_encrypt W _ k kid mach) as [[c|e|] m'] eqn:Henc; try discriminate.
  inversion Hrun; subst; clear Hrun.
  exists c. unfold encrypted_message. repeat split; trivial.
  - rewrite !lookup_insert_ne by done. apply lookup_insert_eq.
  - apply lookup_insert_eq.
  - rewrite lookup_insert_ne by done. apply lookup_insert_eq.
  - intros f H1 H2 H3. now rewrite !lookup_insert_ne by done.
Qed.


End Messages.

Section MessageRoundTrip.

Context {CryptoKey : Type} (W : World CryptoKey).

Lemma field_lookup (message : Message) (f : string) (s : string) :
  field message f = VString s -> message !! f = Some (VString s).
Proof.
  unfold field. destruct (message !! f) as [v|]; simpl; [congruence | discriminate].
Qed.

Lemma Cipher_encrypt_client (input : Value) (k : CryptoKey) (id c : string)
    (mach mach' : Machine CryptoKey) :
  Cipher_encrypt W input k id mach = (Resolved c, mach') -> client mach' = client mach.
Proof.
  unfold Cipher_encrypt, await. unfold_M. simpl.
  destruct (encryptAES W _ k _); intros H; inversion H; reflexivity.
Qed.

(** What [encryptMessage] made of a message, [decryptMessage] turns back,
    under the same key and a key id of 12 characters: the text is the
    original text, the status is "done", the type stays "e2e", and every
    other field is the original's. *)
Theorem message_roundtrip (L : CipherLaws W) (message r : Message)
    (mach mach' : Machine CryptoKey) (md : RoomMetadata) (id text kid : string) :
  metadata (client mach) = Some md -> encryptionRequired md = true ->
  field message "t" <> VString "e2e" ->
  field message "_id" = VString id -> field message "msg" = VString text ->
  keyID (client mach) = Some kid -> String.length kid = 12%nat ->
  encryptMessage W message mach = (Resolved r, mach') ->
  exists d mach'',
    decryptMessage W r false mach' = (Resolved d, mach'') /\
    d !! "msg" = Some (VString text) /\
    d !! "e2e" = Some (VString "done") /\
    d !! "t" = Some (VString "e2e") /\
    forall f, f <> "t" -> f <> "e2e" -> d !! f = message !! f.
Proof.
  intros Hmd Hreq Ht Hid Hmsg Hkid Hlen Hrun. apply is_string_false in Ht.
  destruct (key (client mach)) as [k|] eqn:Hk.
  2:{ unfold encryptMessage, getMetadata, fetchKey, getKey in Hrun.
      unfold_M_in Hrun. simpl in Hrun. rewrite Hmd, Hreq, Ht in Hrun. simpl in Hrun.
      rewrite Hk in Hrun. discriminate. }
  rewrite (encryptMessage_run W message mach md k kid Hmd Hreq Ht Hk Hkid) in Hrun.
  unfold plaintext_record in Hrun. rewrite Hid, Hmsg in Hrun.
  set (m := {| em_id := id; em_text := text; em_userId := uid md;
               em_ts := Date_now W + default 0 (TimeSync_serverOffset W) |}).
  change (VObject _) with (toValue m) in Hrun.
  destruct (Cipher_encrypt W (toValue m) k kid mach) as [[c|e|] m'] eqn:Henc;
    try discriminate.
  inversion Hrun; subst r mach'; clear Hrun.
  pose proof (Cipher_encrypt_client _ _ _ _ _ _ Henc) as Hclient.
  destruct (Cipher_roundtrip_run W L m k kid c mach m' m' Hlen Henc)
    as (vector & cipherText & Hdec).
  assert (Hne : kid <> "") by (intros ->; discriminate Hlen).
  eexists _, _. split.
  - rewrite (decryptMessage_run W (encrypted_message message c) false m' k kid c).
    + rewrite Hdec. reflexivity.
    + unfold encrypted_message, field.
      rewrite !lookup_insert_ne by done. now rewrite lookup_insert_eq.
    + unfold encrypted_message, field. now rewrite lookup_insert_eq.
    + now rewrite Hclient.
    + now rewrite Hclient.
    + exact Hne.
    + unfold encrypted_message, field.
      rewrite lookup_insert_ne by done. now rewrite lookup_insert_eq.
  - unfold decrypted_message, encrypted_message. simpl. repeat split.
    + rewrite lookup_insert_ne by done. now rewrite lookup_insert_eq.
    + now rewrite lookup_insert_eq.
    + rewrite !lookup_insert_ne by done. now rewrite lookup_insert_eq.
    + intros f H1 H2. rewrite lookup_insert_ne by done.
      destruct (decide (f = "msg")) as [->|H3].
      * rewrite lookup_insert_eq. symmetry. now apply field_lookup.
      * now rewrite !lookup_insert_ne by done.
Qed.

(** A message of a rotated key is not passed through: when key and key id
    are held and the message's ciphertext carries another key id,
    [decryptMessage] rejects with [NotDecryptable] and nothing else
    happens. *)
Theorem decryptMessage_other_key (message : Message) (waitForKey : bool)
    (mach : Machine CryptoKey) (k : CryptoKey) (kid input : string) :
  field message "t" = VString "e2e" ->
  field message "e2e" <> VString "done" ->
  key (client mach) = Some k -> keyID (client mach) = Some kid -> kid <> "" ->
  field message "msg" = VString input ->
  extractEncryptedKeyId input <> kid ->
  decryptMessage W message waitForKey mach = (Rejected NotDecryptable, mach).
Proof.
  intros Ht Hdone Hk Hkid Hne Hmsg Hother.
  apply is_string_true in Ht. apply is_string_false in Hdone.
  rewrite (decryptMessage_run W message waitForKey mach k kid input
             Ht Hdone Hk Hkid Hne Hmsg).
  rewrite Cipher_decrypt_rejects; [reflexivity|]. now apply String.eqb_neq.
Qed.

Lemma decryptMessage_missing (message r : Message) (waitForKey : bool)
    (mach mach' : Machine CryptoKey) :
  key (client mach) = None \/ truthy (keyID (client mach)) = false ->
  decryptMessage W message waitForKey mach = (Resolved r, mach') ->
  r = message /\ mach' = mach /\
  decryptMessage W message false mach = (Resolved message, mach).
Proof.
  intros Hmissing. unfold decryptMessage.
  destruct (negb _ || _); [intros H; inversion H; auto|].
  destruct waitForKey; unfold fetchKey, fetchKeyID, getKey, getKeyID; unfold_M; simpl;
    destruct (key (client mach)) as [k|];
    destruct (keyID (client mach)) as [kid|]; simpl;
    destruct Hmissing as [Hk|Hid]; try discriminate; simpl in *;
    try rewrite Hid; simpl; intros H; inversion H; auto.
Qed.

(** Decrypting is idempotent: what [decryptMessage] resolved with, it
    returns as it is when it is called on it again, with the same
    [waitForKey] or without waiting. *)
Theorem decryptMessage_idempotent (message r : Message) (waitForKey again : bool)
    (mach mach' : Machine CryptoKey) :
  decryptMessage W message waitForKey mach = (Resolved r, mach') ->
  again = waitForKey \/ again = false ->
  decryptMessage W r again mach' = (Resolved r, mach').
Proof.
  intros Hrun Hagain.
  destruct (negb (is_string (field message "t") "e2e")
            || is_string (field message "e2e") "done") eqn:Htest.
  { unfold decryptMessage in Hrun. rewrite Htest in Hrun.
    inversion Hrun; subst. unfold decryptMessage. now rewrite Htest. }
  destruct (key (client mach)) as [k|] eqn:Hk.
  2:{ destruct (decryptMessage_missing message r waitForKey mach mach'
                  (or_introl Hk) Hrun) as (Hr & Hm & H).
      subst r mach'. destruct Hagain as [-> | ->]; [exact Hrun | exact H]. }
  destruct (truthy (keyID (client mach))) eqn:Htruthy.
  2:{ destruct (decryptMessage_missing message r waitForKey mach mach'
                  (or_intror Htruthy) Hrun) as (Hr & Hm & H).
      subst r mach'. destruct Hagain as [-> | ->]; [exact Hrun | exact H]. }
  destruct (keyID (client mach)) as [kid|] eqn:Hkid; [|discriminate].
  assert (Hne : kid <> "").
  { simpl in Htruthy. apply negb_true_iff in Htruthy. now apply String.eqb_neq. }
  apply orb_false_iff in Htest. destruct Htest as [Ht Hdone].
  apply negb_false_iff in Ht.
  destruct (field message "msg") as [| | | |input| | |] eqn:Hmsg.
  5:{ rewrite (decryptMessage_run W message waitForKey mach k kid input
                 Ht Hdone Hk Hkid Hne Hmsg) in Hrun.
      destruct (Cipher_decrypt W input k kid mach) as [[data|e|] m']; try discriminate.
      inversion Hrun; subst. unfold decryptMessage.
      replace (is_string (field (decrypted_message message data) "e2e") "done")
        with true; [now rewrite orb_true_r|].
      unfold decrypted_message, field. now rewrite lookup_insert_eq. }
  all: apply String.eqb_neq in Hne.
  all: exfalso; revert Hrun; unfold decryptMessage; rewrite Ht, Hdone; simpl;
    destruct waitForKey; unfold fetchKey, fetchKeyID, getKey, getKeyID; unfold_M;
    simpl; rewrite Hk; simpl; rewrite Hkid; simpl; rewrite Hne; simpl;
    rewrite Hmsg; simpl; discriminate.
Qed.

End MessageRoundTrip.

(** ** What a transition can add to the trace *)

Section Traces.

Context {CryptoKey : Type} (W : World CryptoKey).

Section AddsOnly.

Context (P : Event CryptoKey -> bool).

#[local] Instance adds_only_preorder : PreOrder (adds_only P).
Proof.
  split.
  - intros m. exists []. now rewrite app_nil_r.
  - intros a b c (evs & H1 & H2) (evs' & G1 & G2).
    exists (evs ++ evs'). rewrite G1, H1, <- app_assoc, forallb_app, H2, G2. auto.
Qed.

Lemma adds_only_log (e : Event CryptoKey) : P e = true -> respects (adds_only P) (log e).
Proof. intros He m. exists [e]. simpl. now rewrite He. Qed.

Lemma adds_only_write (f : Client CryptoKey -> Client CryptoKey) :
  respects (adds_only P) (write f).
Proof. intros m. exists []. simpl. now rewrite app_nil_r. Qed.

Lemma adds_only_spawn_job (j : Job) :
  respects (adds_only P) (spawn_job (CryptoKey:=CryptoKey) j).
Proof. intros m. exists []. simpl. now rewrite app_nil_r. Qed.

Lemma adds_only_spawn_task (t : Task) :
  respects (adds_only P) (spawn_task (CryptoKey:=CryptoKey) t).
Proof. intros m. exists []. simpl. now rewrite app_nil_r. Qed.

Lemma adds_only_clear_tasks (m : Machine CryptoKey) : adds_only P m (clear_tasks m).
Proof. exists []. simpl. now rewrite app_nil_r. Qed.

Lemma adds_only_clear_jobs (m : Machine CryptoKey) : adds_only P m (clear_jobs m).
Proof. exists []. simpl. now rewrite app_nil_r. Qed.

Lemma adds_only_events_since (m m' : Machine CryptoKey) :
  adds_only P m m' -> forallb P (events_since m m') = true.
Proof.
  intros (evs & Htr & Hall). unfold events_since. now rewrite Htr, drop_app_length.
Qed.

End AddsOnly.

#[local] Existing Instance adds_only_preorder.

(** Walk through client code and check every event it may log against the
    predicate of the goal. *)
Ltac only_adds :=
  unfold run_task, run_job, importSubscriptionKey, createGroupKey,
    encryptKeyForOtherParticipants, encryptForParticipant, encryptForParticipant_called,
    encryptForParticipant_resumed, decryptLastMessage, decryptPendingMessages,
    decryptPendingMessage_called, decryptPendingMessage_resumed, decryptMessage,
    Cipher_decrypt, Cipher_encrypt, emit_keyChanged, await, fetchKey, fetchKeyID,
    getKey, getKeyID, getMetadata;
  repeat first
    [ progress cbv beta zeta
    | apply adds_only_log; reflexivity
    | apply adds_only_write | apply adds_only_spawn_job | apply adds_only_spawn_task
    | apply respects_ret; typeclasses eauto
    | apply respects_throw; typeclasses eauto
    | apply respects_suspend; typeclasses eauto
    | apply respects_read; typeclasses eauto
    | apply respects_lift; typeclasses eauto
    | match goal with
      | |- respects _ (await_promise _) =>
        apply respects_await_promise; typeclasses eauto
      end
    | match goal with
      | |- respects _ (call _) => apply respects_call; try typeclasses eauto
      end
    | apply respects_bind; [typeclasses eauto | | intros ?]
    | apply respects_try_catch; [typeclasses eauto | | intros ?]
    | apply respects_forEach; [typeclasses eauto | intros ?]
    | match goal with
      | |- respects _ (match ?x with _ => _ end) => destruct x
      end ].

(** No started promise asks for the room key: only the handler does. *)
Lemma run_task_no_request t : respects (adds_only not_key_request) (run_task W t).
Proof. destruct t; only_adds. Qed.

Lemma run_job_no_request j : respects (adds_only not_key_request) (run_job W j).
Proof. destruct j; only_adds. Qed.

Lemma run_job_no_creation j : respects (adds_only not_creation_event) (run_job W j).
Proof. destruct j; only_adds. Qed.

Lemma run_task_no_creation t :
  t <> TCreateGroupKey -> respects (adds_only not_creation_event) (run_task W t).
Proof. destruct t; intros Hne; try (now destruct Hne); only_adds. Qed.

Lemma run_job_grows j : respects (adds_only any_event) (run_job W j).
Proof. destruct j; only_adds. Qed.

Lemma settle_adds_only (P : Event CryptoKey -> bool) (m : Machine CryptoKey) :
  (forall t, In t (tasks m) -> respects (adds_only P) (run_task W t)) ->
  (forall j, respects (adds_only P) (run_job W j)) ->
  adds_only P m (settle W m).
Proof.
  intros Ht Hj.
  pose proof (respects_run_tasks W (adds_only P) m Ht) as H1.
  pose proof (respects_run_all (adds_only P) (run_job W) (jobs (run_tasks W m)) Hj
                               (clear_jobs (run_tasks W m))) as H2.
  change (adds_only P (clear_jobs (run_tasks W m)) (settle W m)) in H2.
  pose proof (adds_only_clear_tasks P m) as A1.
  pose proof (adds_only_clear_jobs P (run_tasks W m)) as A2.
  exact (transitivity A1 (transitivity H1 (transitivity A2 H2))).
Qed.

Lemma forallb_not_In (P : Event CryptoKey -> bool) (e : Event CryptoKey)
    (evs : list (Event CryptoKey)) :
  forallb P evs = true -> P e = false -> ~ In e evs.
Proof.
  intros Hall He Hin. rewrite forallb_forall in Hall.
  specialize (Hall e Hin). congruence.
Qed.

(** What the handler and everything it started add to the trace: the
    handler's own events, then events that satisfy [P] when the started
    tasks and all jobs do. *)
Lemma handled_events (P : Event CryptoKey -> bool) (mach m1 : Machine CryptoKey)
    (own : list (Event CryptoKey)) :
  trace m1 = trace mach ++ own ->
  (forall t, In t (tasks m1) -> respects (adds_only P) (run_task W t)) ->
  (forall j, respects (adds_only P) (run_job W j)) ->
  exists evs, events_since mach (settle W m1) = own ++ evs /\ forallb P evs = true.
Proof.
  intros Hown Ht Hj.
  destruct (settle_adds_only P m1 Ht Hj) as (evs & Htr & Hall).
  exists evs. split; [|exact Hall].
  apply events_since_app. now rewrite Htr, Hown, <- app_assoc.
Qed.

(** A key request goes out exactly when metadata is held, the held key is
    not the room's, no wrapped key is there and the room has a key id; it
    is made for this room and names the room's key id. *)
Theorem key_request_exactly_when_needed (mach : Machine CryptoKey) (r kid : string) :
  tasks mach = [] -> jobs mach = [] ->
  In (EvKeyRequest r kid)
     (events_since mach (settle W (snd (handleMetadataChanged mach)))) <->
  exists md,
    metadata (client mach) = Some md /\ keyValid (client mach) md = false /\
    truthy (encryptedKey md) = false /\ truthy (roomKeyID md) = true /\
    r = rid (client mach) /\ roomKeyID md = Some kid.
Proof.
  intros Ht Hj.
  assert (Hquiet : forall m1 own,
    snd (handleMetadataChanged mach) = m1 ->
    trace m1 = trace mach ++ own ->
    ~ In (EvKeyRequest r kid) own ->
    ~ In (EvKeyRequest r kid) (events_since mach (settle W m1))).
  { intros m1 own _ Hown Hnot Hin.
    destruct (handled_events not_key_request mach m1 own Hown
                (fun t _ => run_task_no_request t) run_job_no_request)
      as (evs & Hev & Hall).
    rewrite Hev in Hin. apply in_app_or in Hin. destruct Hin as [Hin|Hin].
    - now apply Hnot.
    - exact (forallb_not_In not_key_request (EvKeyRequest r kid) evs Hall eq_refl Hin). }
  destruct (metadata (client mach)) as [md|] eqn:Hmd.
  - destruct (keyValid (client mach) md) eqn:Hvalid.
    { split; [|intros (md' & [= <-] & ? & _); congruence].
      intros Hin. exfalso. revert Hin.
      apply (Hquiet _ [] eq_refl).
      + rewrite (handleMetadataChanged_valid mach md Hmd Hvalid). simpl.
        now rewrite app_nil_r.
      + intros []. }
    destruct (truthy (encryptedKey md)) eqn:Henc.
    { split; [|intros (md' & [= <-] & _ & ? & _); congruence].
      intros Hin. exfalso. revert Hin.
      apply (Hquiet _ [EvEmit keyChanged] eq_refl).
      + now rewrite (handleMetadataChanged_import mach md Hmd Hvalid Henc).
      + simpl. intuition discriminate. }
    destruct (truthy (roomKeyID md)) eqn:Hroom.
    + rewrite (handleMetadataChanged_request mach md Hmd Hvalid Henc Hroom). simpl.
      rewrite settle_idle by (simpl; assumption).
      unfold events_since. simpl. rewrite drop_app_length.
      destruct (roomKeyID md) as [room|] eqn:Hid; [|discriminate]. simpl.
      split.
      * intros [H|[H|[]]]; [discriminate|]. injection H as <- <-.
        exists md. rewrite Hid. repeat split; auto.
      * intros (md' & [= <-] & _ & _ & _ & -> & Hkid).
        rewrite Hid in Hkid. injection Hkid as ->. auto.
    + split; [|intros (md' & [= <-] & _ & _ & ? & _); congruence].
      intros Hin. exfalso. revert Hin.
      apply (Hquiet _ [EvEmit keyChanged] eq_refl).
      * now rewrite (handleMetadataChanged_create mach md Hmd Henc Hroom).
      * simpl. intuition discriminate.
  - split; [|intros (md' & [=] & _)].
    intros Hin. exfalso. revert Hin.
    apply (Hquiet _ [EvEmit keyChanged] eq_refl).
    + now rewrite (handleMetadataChanged_absent mach Hmd).
    + simpl. intuition discriminate.
Qed.

Lemma createGroupKey_generates (m : Machine CryptoKey) :
  exists evs, trace (snd (createGroupKey W m)) = trace m ++ EvGenerateAESKey :: evs.
Proof.
  unfold createGroupKey. unfold_M. simpl.
  destruct (generateAESKey W) as [e|k]; simpl; [now eexists|].
  destruct (exportJWKKey W k) as [e|jwk]; simpl.
  { eexists. now rewrite <- app_assoc. }
  destruct (post_setRoomKeyID W _ _) as [e|[]]; simpl.
  { eexists. now rewrite <- !app_assoc. }
  rewrite encryptKeyForOtherParticipants_run. simpl.
  destruct (get_getUsersOfRoomWithoutKey W _) as [e|users]; simpl;
    eexists; now rewrite <- !app_assoc.
Qed.

Lemma run_task_create_generates (m : Machine CryptoKey) :
  exists evs,
    trace (snd (run_task W TCreateGroupKey m)) = trace m ++ EvGenerateAESKey :: evs.
Proof.
  destruct (createGroupKey_generates m) as (evs & Hev).
  unfold run_task, try_catch, bind, emit_keyChanged, log.
  destruct (createGroupKey W m) as [[[]|e|] m']; simpl in *; rewrite Hev;
    rewrite <- ?app_assoc; simpl; now eexists.
Qed.

(** A new room key is generated exactly when metadata is held and names
    neither a wrapped key nor a room key id: a client that was given a
    wrapped key, or whose room has a key id, never makes a key of its
    own. *)
Theorem key_generated_exactly_when_fresh (mach : Machine CryptoKey) :
  tasks mach = [] -> jobs mach = [] ->
  In EvGenerateAESKey
     (events_since mach (settle W (snd (handleMetadataChanged mach)))) <->
  exists md,
    metadata (client mach) = Some md /\
    truthy (encryptedKey md) = false /\ truthy (roomKeyID md) = false.
Proof.
  intros Ht Hj.
  assert (Hquiet : forall m1 own,
    trace m1 = trace mach ++ own ->
    (forall t, In t (tasks m1) -> t <> TCreateGroupKey) ->
    ~ In EvGenerateAESKey own ->
    ~ In EvGenerateAESKey (events_since mach (settle W m1))).
  { intros m1 own Hown Htasks Hnot Hin.
    destruct (handled_events not_creation_event mach m1 own Hown
                (fun t Hin => run_task_no_creation t (Htasks t Hin))
                run_job_no_creation)
      as (evs & Hev & Hall).
    rewrite Hev in Hin. apply in_app_or in Hin. destruct Hin as [Hin|Hin].
    - now apply Hnot.
    - exact (forallb_not_In not_creation_event EvGenerateAESKey evs Hall eq_refl Hin). }
  destruct (metadata (client mach)) as [md|] eqn:Hmd.
  - destruct (keyValid (client mach) md) eqn:Hvalid.
    { split.
      - intros Hin. exfalso. revert Hin.
        rewrite (handleMetadataChanged_valid mach md Hmd Hvalid).
        apply (Hquiet _ []); simpl.
        + now rewrite app_nil_r.
        + rewrite Ht. simpl. intros t [<-|[<-|[]]]; discriminate.
        + intros [].
      - intros (md' & [= <-] & _ & Hroom).
        rewrite (keyValid_roomKeyID (client mach) md Hroom) in Hvalid. discriminate. }
    destruct (truthy (encryptedKey md)) eqn:Henc.
    { split; [|intros (md' & [= <-] & ? & _); congruence].
      intros Hin. exfalso. revert Hin.
      rewrite (handleMetadataChanged_import mach md Hmd Hvalid Henc).
      apply (Hquiet _ [EvEmit keyChanged]); simpl.
      + reflexivity.
      + rewrite Ht. simpl. intros t [<-|[]]. discriminate.
      + intuition discriminate. }
    destruct (truthy (roomKeyID md)) eqn:Hroom.
    + split; [|intros (md' & [= <-] & _ & ?); congruence].
      intros Hin. exfalso. revert Hin.
      rewrite (handleMetadataChanged_request mach md Hmd Hvalid Henc Hroom).
      apply (Hquiet _ [EvEmit keyChanged;
                       EvKeyRequest (rid (client mach)) (to_js_string (roomKeyID md))]);
        simpl.
      * reflexivity.
      * rewrite Ht. intros t [].
      * intuition discriminate.
    + split; [intros _; exists md; auto|]. intros _.
      rewrite (handleMetadataChanged_create mach md Hmd Henc Hroom). simpl.
      rewrite (settle_one_task W _ TCreateGroupKey) by (simpl; now rewrite Ht).
      match goal with |- context [run_task W TCreateGroupKey ?m0] =>
        destruct (run_task_create_generates m0) as (evs & Hev);
        set (m2 := snd (run_task W TCreateGroupKey m0)) in *
      end.
      simpl in Hev.
      destruct (respects_run_all (adds_only any_event) (run_job W) (jobs m2)
                  run_job_grows (clear_jobs m2)) as (evs' & Hev' & _).
      fold (run_jobs W m2) in Hev'. simpl in Hev'.
      rewrite (events_since_app mach (run_jobs W m2)
                 ((EvEmit keyChanged :: EvGenerateAESKey :: evs) ++ evs')).
      * simpl. auto.
      * rewrite Hev', Hev, <- !app_assoc. reflexivity.
  - split; [|intros (md' & [=] & _)].
    intros Hin. exfalso. revert Hin.
    rewrite (handleMetadataChanged_absent mach Hmd).
    apply (Hquiet _ [EvEmit keyChanged]); simpl.
    + reflexivity.
    + rewrite Ht. intros t [].
    + intuition discriminate.
Qed.

#[local] Instance same_client_preorder : PreOrder (@same_client CryptoKey).
Proof.
  split.
  - intros m. reflexivity.
  - intros a b c H G. unfold same_client in *. congruence.
Qed.

Lemma same_client_log (e : Event CryptoKey) : respects same_client (log e).
Proof. intros m. reflexivity. Qed.

Lemma same_client_spawn_job (j : Job) :
  respects same_client (spawn_job (CryptoKey:=CryptoKey) j).
Proof. intros m. reflexivity. Qed.

(** Walk through client code that assigns no field. *)
Ltac reads_only :=
  unfold run_task, run_job, decryptLastMessage, decryptPendingMessages,
    decryptPendingMessage_called, decryptPendingMessage_resumed, decryptMessage,
    Cipher_decrypt, Cipher_encrypt, await, fetchKey, fetchKeyID, getKey, getKeyID,
    getMetadata;
  repeat first
    [ progress cbv beta zeta
    | apply same_client_log | apply same_client_spawn_job
    | apply respects_ret; typeclasses eauto
    | apply respects_throw; typeclasses eauto
    | apply respects_suspend; typeclasses eauto
    | apply respects_read; typeclasses eauto
    | apply respects_lift; typeclasses eauto
    | match goal with
      | |- respects _ (await_promise _) =>
        apply respects_await_promise; typeclasses eauto
      end
    | match goal with
      | |- respects _ (call _) => apply respects_call; try typeclasses eauto
      end
    | apply respects_bind; [typeclasses eauto | | intros ?]
    | apply respects_forEach; [typeclasses eauto | intros ?]
    | match goal with
      | |- respects _ (match ?x with _ => _ end) => destruct x
      end ].

(** The callbacks of [decryptPendingMessages] leave decryptions waiting,
    and nothing else. *)
Lemma decryptPendingMessages_jobs (m : Machine CryptoKey) :
  exists promises,
    jobs (snd (decryptPendingMessages W m)) = jobs m ++ map JDecryptPendingMessage promises.
Proof.
  unfold decryptPendingMessages, bind at 1, read at 1. simpl.
  unfold bind at 1, log at 1. simpl.
  set (m0 := {| client := client m; trace := trace m ++ [EvMessagesFind (rid (client m))];
                tasks := tasks m; jobs := jobs m |}).
  change (jobs m) with (jobs m0). generalize m0. clear m0.
  induction (Messages_find W (rid (client m))) as [|message messages IH]; intros m0.
  - exists []. simpl. now rewrite app_nil_r.
  - simpl forEach. unfold bind at 1.
    assert (Hone : exists promise m1,
      decryptPendingMessage_called W message m0 = (Resolved tt, m1) /\
      jobs m1 = jobs m0 ++ [JDecryptPendingMessage promise]).
    { unfold decryptPendingMessage_called, bind, call, spawn_job. simpl.
      destruct (still_decryptMessage W message false m0) as (_ & Hj).
      eexists _, _. split; [reflexivity|]. simpl. now rewrite Hj. }
    destruct Hone as (promise & m1 & -> & Hj1).
    destruct (IH m1) as (promises & Hj).
    exists (promise :: promises). rewrite Hj, Hj1. simpl. now rewrite <- app_assoc.
Qed.

Lemma decryptLastMessage_jobs (m : Machine CryptoKey) :
  jobs (snd (decryptLastMessage W m)) = jobs m.
Proof.
  unfold decryptLastMessage, getMetadata, bind at 1, read at 1. simpl.
  destruct (metadata (client m)) as [md|]; [|reflexivity].
  destruct (lastMessage md) as [lm|]; [|reflexivity].
  unfold bind at 1.
  destruct (still_decryptMessage W lm true m) as (_ & Hj).
  destruct (decryptMessage W lm true m) as [[d|e|] m']; simpl in *; exact Hj.
Qed.

(** The second branch of the handler, settled, for any preorder that the
    two decryptions, what is left of the callbacks and the emptying of the
    queues respect. *)
Lemma valid_branch_settled (R : relation (Machine CryptoKey)) `{!PreOrder R}
    (mach : Machine CryptoKey) (md : RoomMetadata) :
  respects R (decryptLastMessage W) ->
  respects R (decryptPendingMessages W) ->
  (forall promise, respects R (decryptPendingMessage_resumed (CryptoKey:=CryptoKey) promise)) ->
  (forall m, R m (clear_jobs m)) ->
  metadata (client mach) = Some md -> keyValid (client mach) md = true ->
  tasks mach = [] -> jobs mach = [] ->
  R mach (settle W (snd (handleMetadataChanged mach))).
Proof.
  intros Hlast Hpending Hjob Hclear Hmd Hvalid Ht Hj.
  rewrite (handleMetadataChanged_valid mach md Hmd Hvalid).
  unfold settle, run_tasks. simpl. rewrite Ht. simpl.
  replace (clear_tasks _) with mach by (destruct mach; simpl in *; now subst).
  set (m2 := snd (decryptPendingMessages W mach)).
  set (m3 := snd (decryptLastMessage W m2)).
  assert (Hjobs : forall j, In j (jobs m3) -> exists promise, j = JDecryptPendingMessage promise).
  { subst m3. rewrite decryptLastMessage_jobs. subst m2.
    destruct (decryptPendingMessages_jobs mach) as (promises & ->). rewrite Hj. simpl.
    intros j Hin. apply in_map_iff in Hin. destruct Hin as (promise & <- & _).
    now exists promise. }
  transitivity m2; [apply Hpending|].
  transitivity m3; [apply Hlast|].
  transitivity (clear_jobs m3); [apply Hclear|].
  change (R (clear_jobs m3) (run_all (run_job W) (jobs m3) (clear_jobs m3))).
  apply respects_run_all_in; [typeclasses eauto|].
  intros j Hin. destruct (Hjobs j Hin) as (promise & ->). apply Hjob.
Qed.

(** A metadata change that confirms the held key only decrypts: once it
    has settled, the client's fields are what they were, and everything
    that was added to the trace is a decryption or the writing back of a
    message; no signal is emitted and no key is asked for, made or
    distributed. *)
Theorem confirmed_key_only_decrypts (mach : Machine CryptoKey) (md : RoomMetadata) :
  metadata (client mach) = Some md -> keyValid (client mach) md = true ->
  tasks mach = [] -> jobs mach = [] ->
  client (settle W (snd (handleMetadataChanged mach))) = client mach /\
  forallb is_decryption_event
          (events_since mach (settle W (snd (handleMetadataChanged mach)))) = true.
Proof.
  intros Hmd Hvalid Ht Hj. split.
  - apply (valid_branch_settled same_client mach md); trivial.
    + reads_only.
    + reads_only.
    + intros promise. reads_only.
    + intros m. reflexivity.
  - apply adds_only_events_since.
    apply (valid_branch_settled (adds_only is_decryption_event) mach md); trivial.
    + only_adds.
    + only_adds.
    + intros promise. only_adds.
    + apply adds_only_clear_jobs.
Qed.

(** When the room stops being eligible the key goes: a run of the
    observer's function that finds no snapshot, where one was held, emits
    [metadataChanged], discards the key triple, emits [keyChanged], and
    starts nothing. *)
Theorem ineligible_room_drops_key (store : Store) (mach : Machine CryptoKey) :
  getRoomMetadata store = None ->
  isShallowEqual W (metadata (client mach)) None = false ->
  tasks mach = [] -> jobs mach = [] ->
  settle W (snd (autorun W store mach)) =
  {| client := discard (with_metadata None (client mach));
     trace := trace mach ++ [EvEmit metadataChanged; EvEmit keyChanged];
     tasks := []; jobs := [] |}.
Proof.
  intros Hnone Hdiff Ht Hj.
  rewrite autorun_changed by now rewrite Hnone.
  rewrite handleMetadataChanged_absent by now rewrite Hnone.
  rewrite settle_idle by assumption.
  simpl. now rewrite Hnone, <- app_assoc, Ht, Hj.
Qed.

(** *** Distribution *)

(** What [encryptForParticipant] pushes for a participant, that
    participant's [importSubscriptionKey] takes in: with a key id of 12
    characters and a private key that undoes the public one, the pushed
    text imports to the sender's exported material, under the key id
    derived from it. *)
Theorem pushed_key_imports (publicKey privateKey : CryptoKey)
    (L : WrapLaws W publicKey privateKey) (user : User)
    (sender recipient : Machine CryptoKey)
    (public_key material kid : string) (pjwk jwk : Value) (wrapped : bytes)
    (k : CryptoKey) :
  user_e2e user = Some public_key ->
  JSON_parse W public_key = inr pjwk -> importRSAKey W pjwk = inr publicKey ->
  sessionKeyExportedString (client sender) = Some material -> material <> "" ->
  keyID (client sender) = Some kid -> String.length kid = 12%nat ->
  encryptRSA W publicKey (fromStringToBuffer W material) = inr wrapped ->
  post_updateGroupKey W (rid (client sender)) (user_id user)
                      (kid +:+ Base64_encode W wrapped) = inr tt ->
  userPrivateKey (client recipient) = privateKey ->
  JSON_parse W material = inr jwk -> importAESKey W jwk = inr k ->
  In (EvUpdateGroupKey (rid (client sender)) (user_id user)
                       (kid +:+ Base64_encode W wrapped))
     (events_since sender (snd (encryptForParticipant W user sender))) /\
  importSubscriptionKey W (kid +:+ Base64_encode W wrapped) recipient =
  (Resolved tt,
   {| client := adopt k (derivedKeyID W material) material (client recipient);
      trace := trace recipient ++ [EvDecryptRSA privateKey wrapped; EvImportAESKey jwk];
      tasks := tasks recipient; jobs := jobs recipient |}).
Proof.
  intros He Hp Hi Hmat Hne Hkid Hlen Hrsa Hpost Hpriv Hparse Himport. split.
  - rewrite (encryptForParticipant_pushes W user sender public_key material kid pjwk
               publicKey wrapped He Hmat Hne Hkid Hp Hi Hrsa Hpost).
    unfold events_since. simpl. rewrite drop_app_length. simpl. auto.
  - assert (Htail : slice_from 12 (kid +:+ Base64_encode W wrapped)
                    = Base64_encode W wrapped)
      by (rewrite <- Hlen; apply slice_from_app).
    unfold importSubscriptionKey, extractEncryptedBody. rewrite Htail.
    rewrite (wrap_base64 W _ _ L). unfold_M. simpl. rewrite Hpriv.
    rewrite (wrap_rsa W _ _ L _ _ Hrsa). simpl.
    rewrite (wrap_buffer W _ _ L). rewrite Hparse. simpl. rewrite Himport. simpl.
    now rewrite <- !app_assoc.
Qed.

(** Nothing is wrapped or pushed for a participant without a public key,
    nor when no exported material is held: at most the participant's
    public key is imported. *)
Theorem no_push_without_material (user : User) (m : Machine CryptoKey) :
  user_e2e user = None \/ truthy (sessionKeyExportedString (client m)) = false ->
  client (snd (encryptForParticipant W user m)) = client m /\
  (events_since m (snd (encryptForParticipant W user m)) = [] \/
   exists jwk, events_since m (snd (encryptForParticipant W user m)) = [EvImportRSAKey jwk]).
Proof.
  intros H. unfold encryptForParticipant, events_since.
  destruct (user_e2e user) as [public_key|].
  2:{ simpl. rewrite drop_all. auto. }
  destruct H as [H|H]; [discriminate|].
  unfold_M. simpl.
  destruct (JSON_parse W public_key) as [e|jwk]; simpl.
  { rewrite drop_all. auto. }
  destruct (importRSAKey W jwk) as [e|userKey]; simpl.
  { rewrite drop_app_length. eauto. }
  rewrite H. simpl. rewrite drop_app_length. eauto.
Qed.

Lemma strict_eq_Some (a : option string) (b : string) :
  strict_eq a (Some b) = true <-> a = Some b.
Proof.
  destruct a as [a|]; simpl; [|split; discriminate].
  rewrite String.eqb_eq. split; congruence.
Qed.

(** [provideKeyToUser] asks for the participants without a key exactly
    when the key id it is called with is the key id held: a request for
    another key, or one that reaches a client without a key, is dropped
    and changes nothing. *)
Theorem provideKeyToUser_guard (m : Machine CryptoKey) (keyID' : string) :
  tasks m = [] -> jobs m = [] ->
  (In (EvGetUsersOfRoomWithoutKey (rid (client m)))
      (events_since m (step W m (CallProvideKeyToUser keyID')))
   <-> keyID (client m) = Some keyID') /\
  (keyID (client m) <> Some keyID' -> step W m (CallProvideKeyToUser keyID') = m).
Proof.
  intros Ht Hj.
  assert (Hdrop : keyID (client m) <> Some keyID' ->
                  step W m (CallProvideKeyToUser keyID') = m).
  { intros Hne. unfold step, react, provideKeyToUser, bind, read. simpl.
    destruct (strict_eq (keyID (client m)) (Some keyID')) eqn:Heq.
    - apply strict_eq_Some in Heq. contradiction.
    - simpl. now apply settle_idle. }
  split; [|exact Hdrop]. split.
  - intros Hin. destruct (decide (keyID (client m) = Some keyID')) as [|Hne]; [trivial|].
    rewrite (Hdrop Hne) in Hin. unfold events_since in Hin.
    rewrite drop_all in Hin. contradiction.
  - intros Hid. unfold step, react, provideKeyToUser, bind, read. simpl.
    rewrite (proj2 (strict_eq_Some _ _) Hid). simpl. unfold spawn_task.
    rewrite (settle_one_task W _ TEncryptKeyForOtherParticipants) by (simpl; now rewrite Ht).
    unfold run_task. rewrite encryptKeyForOtherParticipants_run. simpl.
    destruct (get_getUsersOfRoomWithoutKey W (rid (client m))) as [e|users]; simpl;
      match goal with |- context [run_jobs W ?m2] =>
        destruct (respects_run_all (adds_only any_event) (run_job W) (jobs m2)
                    run_job_grows (clear_jobs m2)) as (evs' & Hev' & _);
        fold (run_jobs W m2) in Hev'; simpl in Hev'
      end.
    + rewrite (events_since_app m _
                 ([EvGetUsersOfRoomWithoutKey (rid (client m))] ++ evs'))
        by (rewrite Hev'; now rewrite <- app_assoc).
      simpl. auto.
    + rewrite (events_since_app m _
                 ((EvGetUsersOfRoomWithoutKey (rid (client m)) :: import_calls W users)
                  ++ evs'))
        by (rewrite Hev'; now rewrite <- app_assoc).
      simpl. auto.
Qed.

(** *** The observer and the decryption queue *)

Lemma autorun_resolved (store : Store) (m : Machine CryptoKey) :
  fst (autorun W store m) = Resolved tt.
Proof.
  destruct (isShallowEqual W (metadata (client m)) (getRoomMetadata store)) eqn:H.
  - now rewrite (autorun_unchanged W store m H).
  - rewrite (autorun_changed W store m H). apply handleMetadataChanged_calm.
Qed.

(** [start] is idempotent: whatever the client was and whatever the
    sources say, a second [start] changes nothing. *)
Theorem start_twice (store1 store2 : Store) (m : Machine CryptoKey) :
  start W store2 (snd (start W store1 m)) = (Resolved tt, snd (start W store1 m)).
Proof.
  assert (Hrunning : computation (client (snd (start W store1 m))) = true).
  { unfold start, bind at 1, read at 1. simpl.
    destruct (computation (client m)) eqn:Hc; [exact Hc|].
    unfold bind. pose proof (autorun_resolved store1 m) as Hres.
    destruct (autorun W store1 m) as [o m']. simpl in Hres. now subst o. }
  unfold start at 1. unfold bind, read. simpl. now rewrite Hrunning.
Qed.

Lemma decryptPendingMessages_keyless (m : Machine CryptoKey) :
  key (client m) = None ->
  decryptPendingMessages W m =
  (Resolved tt,
   {| client := client m; trace := trace m ++ [EvMessagesFind (rid (client m))];
      tasks := tasks m;
      jobs := jobs m ++ map (fun message => JDecryptPendingMessage (Resolved message))
                            (Messages_find W (rid (client m))) |}).
Proof.
  intros Hk. unfold decryptPendingMessages, bind at 1, read at 1. simpl.
  unfold bind at 1, log at 1. simpl.
  set (m0 := {| client := client m; trace := trace m ++ [EvMessagesFind (rid (client m))];
                tasks := tasks m; jobs := jobs m |}).
  assert (Hk0 : key (client m0) = None) by exact Hk.
  change (client m) with (client m0) at 2. change (tasks m) with (tasks m0).
  change (jobs m) with (jobs m0). change (trace m ++ _) with (trace m0).
  generalize dependent m0. clear.
  induction (Messages_find W (rid (client m))) as [|message messages IH]; intros m0 Hk0.
  - simpl. unfold ret. rewrite app_nil_r. now destruct m0.
  - simpl forEach. unfold bind at 1.
    assert (Hone : decryptPendingMessage_called W message m0 =
      (Resolved tt, {| client := client m0; trace := trace m0; tasks := tasks m0;
                       jobs := jobs m0 ++ [JDecryptPendingMessage (Resolved message)] |})).
    { unfold decryptPendingMessage_called, bind, call, spawn_job.
      assert (H : decryptMessage W message false m0 = (Resolved message, m0)).
      { unfold decryptMessage. destruct (negb _ || _); [reflexivity|].
        unfold getKey, getKeyID. unfold_M. simpl. now rewrite Hk0. }
      now rewrite H. }
    rewrite Hone, IH by exact Hk0. simpl. now rewrite <- app_assoc.
Qed.

Lemma run_jobs_resolved (messages : list Message) (m : Machine CryptoKey) :
  run_all (run_job W)
          (map (fun message => JDecryptPendingMessage (Resolved message)) messages) m =
  {| client := client m;
     trace := trace m ++
              map (fun message =>
                     EvMessagesUpdate (field message "_id") (delete "_id" message))
                  messages;
     tasks := tasks m; jobs := jobs m |}.
Proof.
  revert m. induction messages as [|message messages IH]; intros m; simpl.
  - rewrite app_nil_r. now destruct m.
  - rewrite IH. simpl. now rewrite <- app_assoc.
Qed.

(** Without a key, [decryptPendingMessages] still writes every pending
    message it finds back to the store, each once, in the order found and
    as it was found (less its [_id], which selects it). *)
Theorem pending_messages_without_key (m : Machine CryptoKey) :
  key (client m) = None -> jobs m = [] ->
  run_jobs W (snd (decryptPendingMessages W m)) =
  {| client := client m;
     trace := trace m ++
              EvMessagesFind (rid (client m)) ::
              map (fun message =>
                     EvMessagesUpdate (field message "_id") (delete "_id" message))
                  (Messages_find W (rid (client m)));
     tasks := tasks m; jobs := [] |}.
Proof.
  intros Hk Hj. rewrite (decryptPendingMessages_keyless m Hk). unfold run_jobs. simpl.
  rewrite Hj. simpl. rewrite run_jobs_resolved. simpl.
  now rewrite <- app_assoc.
Qed.

Lemma decryptMessage_no_update message waitForKey :
  respects (adds_only not_projection_update) (decryptMessage W message waitForKey).
Proof. only_adds. Qed.

Lemma decryptLastMessage_events (m : Machine CryptoKey) :
  exists evs,
    trace (snd (decryptLastMessage W m)) = trace m ++ evs /\
    forall r msg e2e,
      In (EvRoomsUpdate r msg e2e) evs <-> In (EvSubscriptionsUpdate r msg e2e) evs.
Proof.
  unfold decryptLastMessage, getMetadata, bind at 1, read at 1. simpl.
  destruct (metadata (client m)) as [md|].
  2:{ exists []. simpl. rewrite app_nil_r. split; [reflexivity | tauto]. }
  destruct (lastMessage md) as [lm|].
  2:{ exists []. simpl. rewrite app_nil_r. split; [reflexivity | tauto]. }
  unfold bind at 1.
  destruct (decryptMessage_no_update lm true m) as (evs & Hev & Hall).
  assert (Hnone : forall ev, In ev evs -> not_projection_update ev = true).
  { now apply forallb_forall. }
  destruct (decryptMessage W lm true m) as [[d|e|] m']; simpl in *.
  - unfold_M. simpl.
    exists (evs ++ [EvRoomsUpdate (rid (client m')) (field d "msg") (field d "e2e");
                    EvSubscriptionsUpdate (rid (client m')) (field d "msg")
                                          (field d "e2e")]).
    split; [now rewrite Hev, <- !app_assoc|].
    intros r msg e2e. rewrite !in_app_iff. simpl.
    split; intros [Hin|[H|[H|[]]]]; try discriminate.
    + now apply Hnone in Hin.
    + injection H as <- <- <-. auto.
    + now apply Hnone in Hin.
    + injection H as <- <- <-. auto.
  - exists evs. split; [exact Hev|].
    intros r msg e2e. split; intros Hin; now apply Hnone in Hin.
  - exists evs. split; [exact Hev|].
    intros r msg e2e. split; intros Hin; now apply Hnone in Hin.
Qed.

(** [decryptLastMessage] updates the two projections of the last message
    together: the room's is written exactly when the subscription's is,
    for the same room and with the same text and status. *)
Theorem last_message_projections_agree (m : Machine CryptoKey) (r : string)
    (msg e2e : Value) :
  In (EvRoomsUpdate r msg e2e) (events_since m (snd (decryptLastMessage W m))) <->
  In (EvSubscriptionsUpdate r msg e2e) (events_since m (snd (decryptLastMessage W m))).
Proof.
  destruct (decryptLastMessage_events m) as (evs & Hev & Hiff).
  rewrite (events_since_app m _ evs Hev). apply Hiff.
Qed.

End Traces.
(** * The further properties at concrete inputs *)

Module Instances.

Import Demo.

Lemma wrap_laws (users : exn + list User) : WrapLaws (world users) 5%nat 1%nat.
Proof.
  split; simpl.
  - intros bs. now rewrite list_byte_of_string_of_list_byte.
  - intros data wrapped [= <-]. now rewrite rev_involutive.
  - intros s. apply string_of_list_byte_of_string.
Qed.

Lemma encoding_of_nothing (bs : bytes) : string_of_list_byte bs = "" -> bs = [].
Proof. destruct bs; simpl; [reflexivity | discriminate]. Qed.

Lemma store_a_snapshot :
  exists subscription room,
    Meteor_userId store_a = Some "me" /\
    Subscriptions_findOne store_a = Some subscription /\
    Rooms_findOne store_a = Some room /\
    allowRoomSettingChange_E2E store_a (room_t room) = true /\
    room_e2eKeyId room = Some "room-key-id1".
Proof.
  destruct (getRoomMetadata_present store_a
              {| uid := "me"; encryptionRequired := true;
                 roomKeyID := Some "room-key-id1"; encryptedKey := None;
                 lastMessage := None |} eq_refl)
    as (subscription & room & H1 & _ & H3 & H4 & H5 & _ & H7 & _).
  exists subscription, room. repeat split; auto.
Defined.

Lemma fresh_store_creates :
  exists md,
    getRoomMetadata store_fresh = Some md /\ encryptionRequired md = true /\
    truthy (roomKeyID md) = false /\ truthy (encryptedKey md) = false.
Proof.
  apply (creation_only_when_required store_fresh
           (observing (getRoomMetadata store_fresh)) eq_refl eq_refl).
  vm_compute. auto.
Defined.

Lemma hello_decrypts :
  extractEncryptedKeyId ciphertext = "room-key-id1" /\
  (exists fields, toValue hello = VObject fields /\ has_field "text" fields = true) /\
  client (snd (Cipher_decrypt online ciphertext 9%nat "room-key-id1" keyed)) = client keyed /\
  exists encrypted,
    extractEncryptedBody online ciphertext = inr encrypted /\
    trace (snd (Cipher_decrypt online ciphertext 9%nat "room-key-id1" keyed)) =
    trace keyed ++ [EvDecryptAES (firstn 16 encrypted) 9%nat (skipn 16 encrypted)].
Proof.
  apply (Cipher_decrypt_resolved online ciphertext 9%nat "room-key-id1" keyed).
  vm_compute. reflexivity.
Defined.

Lemma short_keyID_lost :
  exists c,
    fst (Cipher_encrypt online (toValue hello) 9%nat "short" keyed) = Resolved c /\
    Cipher_decrypt online c 9%nat "short" keyed = (Rejected NotDecryptable, keyed).
Proof.
  eexists. split.
  - vm_compute. reflexivity.
  - apply (Cipher_keyID_must_be_12 online (toValue hello) 9%nat 9%nat "short" keyed
             (snd (Cipher_encrypt online (toValue hello) 9%nat "short" keyed)) keyed).
    + vm_compute. discriminate.
    + reflexivity.
    + exact encoding_of_nothing.
    + vm_compute. reflexivity.
Defined.

Lemma next_keyID_rejected :
  Cipher_decrypt online ciphertext 11%nat "room-key-id2" rotated
  = (Rejected NotDecryptable, rotated).
Proof.
  apply (Cipher_decrypt_other_keyID online (toValue hello) 9%nat 11%nat
           "room-key-id1" "room-key-id2" keyed
           (snd (Cipher_encrypt online (toValue hello) 9%nat "room-key-id1" keyed))
           rotated ciphertext).
  - reflexivity.
  - discriminate.
  - vm_compute. reflexivity.
Defined.

Lemma plain_message_retagged :
  exists r c,
    fst (encryptMessage online plain_message keyed) = Resolved r /\
    r !! "t" = Some (VString "e2e") /\
    r !! "e2e" = Some (VString "pending") /\
    r !! "msg" = Some (VString c) /\
    forall f, f <> "t" -> f <> "e2e" -> f <> "msg" -> r !! f = plain_message !! f.
Proof.
  assert (Hrun : exists r, encryptMessage online plain_message keyed
                 = (Resolved r, snd (encryptMessage online plain_message keyed))).
  { eexists. vm_compute. reflexivity. }
  destruct Hrun as [r Hrun].
  destruct (encryptMessage_frame online plain_message r keyed _ broken_room 9%nat
              "room-key-id1" eq_refl eq_refl ltac:(vm_compute; discriminate)
              eq_refl eq_refl Hrun)
    as (c & _ & Ht & He & Hm & Hframe).
  exists r, c. rewrite Hrun. auto.
Defined.


Lemma plain_message_comes_back :
  exists r d,
    fst (encryptMessage online plain_message keyed) = Resolved r /\
    fst (decryptMessage online r false
           (snd (encryptMessage online plain_message keyed))) = Resolved d /\
    d !! "msg" = Some (VString "hello") /\
    d !! "e2e" = Some (VString "done") /\
    forall f, f <> "t" -> f <> "e2e" -> d !! f = plain_message !! f.
Proof.
  set (mach' := snd (encryptMessage online plain_message keyed)).
  assert (Hrun : exists r, encryptMessage online plain_message keyed = (Resolved r, mach')).
  { eexists. vm_compute. reflexivity. }
  destruct Hrun as [r Hrun].
  destruct (message_roundtrip online (Scenarios.laws _) plain_message r keyed mach' broken_room
              "m0" "hello" "room-key-id1" eq_refl eq_refl
              ltac:(vm_compute; discriminate) eq_refl eq_refl eq_refl eq_refl Hrun)
    as (d & mach'' & Hd & Hmsg & He2e & _ & Hframe).
  exists r, d. rewrite Hrun, Hd. auto.
Defined.

Lemma old_message_after_rotation :
  decryptMessage online pending_message false rotated = (Rejected NotDecryptable, rotated).
Proof.
  apply (decryptMessage_other_key online pending_message false rotated 11%nat
           "room-key-id2" ciphertext).
  - reflexivity.
  - vm_compute. discriminate.
  - reflexivity.
  - reflexivity.
  - discriminate.
  - reflexivity.
  - vm_compute. discriminate.
Defined.

Lemma decrypted_message_stays :
  exists r,
    fst (decryptMessage online pending_message true keyed) = Resolved r /\
    decryptMessage online r true (snd (decryptMessage online pending_message true keyed))
    = (Resolved r, snd (decryptMessage online pending_message true keyed)) /\
    decryptMessage online r false (snd (decryptMessage online pending_message true keyed))
    = (Resolved r, snd (decryptMessage online pending_message true keyed)).
Proof.
  assert (Hrun : exists r, decryptMessage online pending_message true keyed
                 = (Resolved r, snd (decryptMessage online pending_message true keyed))).
  { eexists. vm_compute. reflexivity. }
  destruct Hrun as [r Hrun]. exists r. split; [now rewrite Hrun|]. split.
  - exact (decryptMessage_idempotent online pending_message r true true keyed _ Hrun
             (or_introl eq_refl)).
  - exact (decryptMessage_idempotent online pending_message r true false keyed _ Hrun
             (or_intror eq_refl)).
Defined.

Lemma plain_room_asks :
  In (EvKeyRequest "GENERAL" "room-key-id1")
     (events_since (observing (Some plain_room))
        (settle online (snd (handleMetadataChanged (observing (Some plain_room)))))).
Proof.
  apply (key_request_exactly_when_needed online (observing (Some plain_room))
           "GENERAL" "room-key-id1" eq_refl eq_refl).
  exists plain_room. repeat split.
Defined.

Lemma fresh_room_generates :
  In EvGenerateAESKey
     (events_since (observing (Some fresh_room))
        (settle online (snd (handleMetadataChanged (observing (Some fresh_room)))))).
Proof.
  apply (key_generated_exactly_when_fresh online (observing (Some fresh_room))
           eq_refl eq_refl).
  exists fresh_room. repeat split.
Defined.

Lemma confirmed_key_decrypts_archive :
  client (settle archive (snd (handleMetadataChanged keyed))) = client keyed /\
  forallb is_decryption_event
          (events_since keyed (settle archive (snd (handleMetadataChanged keyed)))) = true.
Proof.
  exact (confirmed_key_only_decrypts archive keyed broken_room
           eq_refl eq_refl eq_refl eq_refl).
Defined.

Lemma logged_out_drops_key :
  settle online (snd (autorun online store_logged_out keyed)) =
  {| client := discard (with_metadata None (client keyed));
     trace := [EvEmit metadataChanged; EvEmit keyChanged];
     tasks := []; jobs := [] |}.
Proof.
  exact (ineligible_room_drops_key online store_logged_out keyed
           eq_refl eq_refl eq_refl eq_refl).
Defined.

Lemma alice_imports_pushed_key :
  In (EvUpdateGroupKey "GENERAL" "alice" "room-key-id1lairetam-1di-yek-moor")
     (events_since keyed (snd (encryptForParticipant online alice keyed))) /\
  importSubscriptionKey online "room-key-id1lairetam-1di-yek-moor" (observing None) =
  (Resolved tt,
   {| client := adopt 9%nat "room-key-id1" "room-key-id1-material"
                      (client (observing None));
      trace := [EvDecryptRSA 1%nat (rev (list_byte_of_string "room-key-id1-material"));
                EvImportAESKey (jwk_of "room-key-id1-material")];
      tasks := []; jobs := [] |}).
Proof.
  exact (pushed_key_imports online 5%nat 1%nat (wrap_laws _) alice keyed (observing None)
           "alice-public-key" "room-key-id1-material" "room-key-id1"
           (jwk_of "alice-public-key") (jwk_of "room-key-id1-material")
           (rev (list_byte_of_string "room-key-id1-material")) 9%nat
           eq_refl eq_refl eq_refl eq_refl ltac:(discriminate) eq_refl eq_refl
           eq_refl eq_refl eq_refl eq_refl eq_refl).
Defined.

Lemma bob_gets_nothing :
  client (snd (encryptForParticipant online bob keyed)) = client keyed /\
  (events_since keyed (snd (encryptForParticipant online bob keyed)) = [] \/
   exists jwk,
     events_since keyed (snd (encryptForParticipant online bob keyed)) = [EvImportRSAKey jwk]).
Proof.
  exact (no_push_without_material online bob keyed (or_introl eq_refl)).
Defined.

Lemma key_provided_on_request :
  In (EvGetUsersOfRoomWithoutKey "GENERAL")
     (events_since keyed (step online keyed (CallProvideKeyToUser "room-key-id1"))) /\
  step online keyed (CallProvideKeyToUser "room-key-id2") = keyed.
Proof.
  destruct (provideKeyToUser_guard online keyed "room-key-id1" eq_refl eq_refl)
    as [[_ Hin] _].
  destruct (provideKeyToUser_guard online keyed "room-key-id2" eq_refl eq_refl)
    as [_ Hdrop].
  split; [apply Hin; reflexivity | apply Hdrop; discriminate].
Defined.

Lemma started_client_emits_once :
  count_emits metadataChanged
    (trace (run online [CallStart store_a; StoreChanged store_b] (create "GENERAL" 1%nat)))
  = 1%nat.
Proof.
  exact (fresh_client_one_emission online "GENERAL" 1%nat store_a store_b eq_refl eq_refl).
Defined.

Lemma keyless_client_writes_back :
  run_jobs archive (snd (decryptPendingMessages archive (observing None))) =
  {| client := client (observing None);
     trace := [EvMessagesFind "GENERAL";
               EvMessagesUpdate (VString "m1") (delete "_id" pending_message);
               EvMessagesUpdate (VString "m2") (delete "_id" pending_reply)];
     tasks := []; jobs := [] |}.
Proof.
  exact (pending_messages_without_key archive (observing None) eq_refl eq_refl).
Defined.

End Instances.
